(** * Outbreak aggregation and prescription payment gate

    A shallow embedding of the two logic fragments of the telehealth
    front-end:

    - [src/components/SEO.tsx] (second document of the file): [groupLocal],
      the [localEntries] projection and the error handling of
      [fetchGlobalOutbreaks];
    - [src/pages/PrescriptionBox.tsx]: the payment-status handlers, the
      subscriptions that mirror the remote record into the component and the
      [shouldBlur] display policy.

    Modelling conventions.

    - A JavaScript string is a [string]; its characters stand for the code
      units U+0000..U+00FF, on which [trim] and [toLowerCase] are written
      out in full.
    - A JavaScript object used as a dictionary is the ordered list of its own
      enumerable properties (module [JSObject]).  The table of [groupLocal]
      and its rows are made by [{}]: a read of a key they do not own falls
      through to [Object.prototype], which module [Outbreak] writes out for
      the keys a lower-cased string can name, [constructor] and
      [__proto__].
    - Counts are JavaScript numbers holding whole numbers; they are
      integers of [Z].  Those of [groupLocal] are at most the number of
      reports; for those of a parsed table the statements say when the
      sums the code forms are exact.
    - [Array.prototype.sort] is the stable sort of ES2019.
    - A write to the remote store is handed to the listeners of its path
      within the step that makes it (module [Prescription]); statements
      that must hold whenever the snapshots arrive are made over
      components in any state. *)

From Stdlib Require Import List String Ascii ZArith NArith Bool Lia DecimalString.
From Stdlib Require Import Sorting.Sorted Sorting.Permutation.
Import ListNotations.

Local Open Scope string_scope.
Local Open Scope Z_scope.

(* ------------------------------------------------------------------ *)
(** ** JavaScript strings *)

Module JSString.

(** Code units removed by [String.prototype.trim]: TAB, LF, VT, FF, CR,
    SPACE and NBSP (the white space and line terminators below U+0100). *)
Definition isWhiteSpace (c : ascii) : bool :=
  let n := N_of_ascii c in
  ((9 <=? n) && (n <=? 13) || (n =? 32) || (n =? 160))%N.

(** Simple lower-case mapping of one code unit: A-Z, and the Latin-1
    capitals U+00C0..U+00DE except the multiplication sign U+00D7. *)
Definition lowerChar (c : ascii) : ascii :=
  let n := N_of_ascii c in
  if ((65 <=? n) && (n <=? 90)
      || (192 <=? n) && (n <=? 222) && negb (n =? 215))%N
  then ascii_of_N (n + 32) else c.

Fixpoint toLowerCase (s : string) : string :=
  match s with
  | EmptyString => EmptyString
  | String c s' => String (lowerChar c) (toLowerCase s')
  end.

Fixpoint trimStart (s : string) : string :=
  match s with
  | EmptyString => EmptyString
  | String c s' => if isWhiteSpace c then trimStart s' else s
  end.

Fixpoint trimEnd (s : string) : string :=
  match s with
  | EmptyString => EmptyString
  | String c s' =>
      match trimEnd s' with
      | EmptyString => if isWhiteSpace c then EmptyString else String c EmptyString
      | t => String c t
      end
  end.

Definition trim (s : string) : string := trimEnd (trimStart s).

(** Every character of [w] is white space. *)
Fixpoint allWhiteSpace (w : string) : bool :=
  match w with
  | EmptyString => true
  | String c w' => isWhiteSpace c && allWhiteSpace w'
  end.

(** The character [c] occurs in [s]. *)
Fixpoint occurs (c : ascii) (s : string) : bool :=
  match s with
  | EmptyString => false
  | String c' s' => Ascii.eqb c' c || occurs c s'
  end.

(** Truthiness of a string value: only the empty string is falsy. *)
Definition truthy (s : string) : bool :=
  match s with EmptyString => false | _ => true end.

End JSString.

(* ------------------------------------------------------------------ *)
(** ** JavaScript objects as ordered property lists *)

Module JSObject.

Definition obj (V : Type) : Type := list (string * V).

Definition isDigit (c : ascii) : bool :=
  let n := N_of_ascii c in ((48 <=? n) && (n <=? 57))%N.

Fixpoint digitsValue (acc : N) (s : string) : option N :=
  match s with
  | EmptyString => Some acc
  | String c s' =>
      if isDigit c
      then digitsValue (acc * 10 + (N_of_ascii c - 48))%N s'
      else None
  end.

(** A property key is an array index when it is the canonical decimal
    form of an integer in [0, 2^32 - 2]. *)
Definition arrayIndex (k : string) : option N :=
  match k with
  | EmptyString => None
  | String c rest =>
      if (N_of_ascii c =? 48)%N && JSString.truthy rest then None
      else match digitsValue 0%N k with
           | Some n => if (n <=? 4294967294)%N then Some n else None
           | None => None
           end
  end.

Section Ops.
Context {V : Type}.

Fixpoint get (o : obj V) (k : string) : option V :=
  match o with
  | [] => None
  | (k', v) :: o' => if String.eqb k k' then Some v else get o' k
  end.

Fixpoint update (k : string) (v : V) (o : obj V) : obj V :=
  match o with
  | [] => []
  | (k', v') :: o' =>
      if String.eqb k k' then (k, v) :: o' else (k', v') :: update k v o'
  end.

(** A new array-index key goes before the first property that is not
    an array index or that is a larger one. *)
Fixpoint insertIndex (n : N) (k : string) (v : V) (o : obj V) : obj V :=
  match o with
  | [] => [(k, v)]
  | (k', v') :: o' =>
      match arrayIndex k' with
      | Some m =>
          if (n <? m)%N then (k, v) :: o
          else (k', v') :: insertIndex n k v o'
      | None => (k, v) :: o
      end
  end.

(** [o[k] = v].  An existing property keeps its place; a new one is
    enumerated after the older ones, array indices first and in
    ascending order. *)
Definition set (k : string) (v : V) (o : obj V) : obj V :=
  match get o k with
  | Some _ => update k v o
  | None =>
      match arrayIndex k with
      | Some n => insertIndex n k v o
      | None => (o ++ [(k, v)])%list
      end
  end.

Definition entries (o : obj V) : list (string * V) := o.
Definition keys (o : obj V) : list string := map fst o.
Definition values (o : obj V) : list V := map snd o.

End Ops.

(** A count read from an object, an absent one reading as zero. *)
Definition valueOr0 (v : option Z) : Z :=
  match v with Some n => n | None => 0 end.

End JSObject.

(* ------------------------------------------------------------------ *)
(** ** Arrays: stable sort with a comparator, and reduce *)

Module JSArray.

Section Sort.
Context {A : Type}.
Variable cmp : A -> A -> Z.

(** [x] goes before the first element it does not compare greater
    than, so that equal elements keep their relative order. *)
Fixpoint insertSorted (x : A) (l : list A) : list A :=
  match l with
  | [] => [x]
  | y :: l' => if cmp x y <=? 0 then x :: l else y :: insertSorted x l'
  end.

Definition sort (l : list A) : list A := fold_right insertSorted [] l.
End Sort.

(** The comparator [(a, b) => f(b) - f(a)] and the order it asks for. *)
Definition byDescending {A : Type} (f : A -> Z) (a b : A) : Z := f b - f a.
Definition descending {A : Type} (f : A -> Z) (a b : A) : Prop := f b <= f a.

(** [xs.reduce((s, n) => s + n, 0)] *)
Definition sum (xs : list Z) : Z := fold_left Z.add xs 0.

End JSArray.

(* ------------------------------------------------------------------ *)
(** ** The report aggregator ([groupLocal], [localEntries]) *)

Module Outbreak.
Import JSString JSObject.

(** A field of type [string | null | undefined]. *)
Inductive Nullable : Type :=
| JUndefined
| JNull
| JStr (s : string).

Definition ofOptional (o : option string) : Nullable :=
  match o with Some s => JStr s | None => JUndefined end.

(** [{ id: string; type?: string; location?: string | null;
       createdAt?: number }] *)
Record Report : Type := mkReport {
  id : string;
  type : option string;
  location : Nullable;
  createdAt : option Z
}.

(** city -> disease -> count *)
Definition Aggregated : Type := obj (obj Z).

(** [v || d]: the default replaces [undefined], [null] and [""]. *)
Definition orDefault (v : Nullable) (d : string) : string :=
  match v with
  | JStr s => if truthy s then s else d
  | JUndefined | JNull => d
  end.

(** [n || 0] on a count read from an object. *)
Definition orZero (v : option Z) : Z :=
  match v with
  | Some n => if n =? 0 then 0 else n
  | None => 0
  end.

(** [s.toString().trim().toLowerCase()] *)
Definition normalize (s : string) : string := toLowerCase (trim s).

Definition cityOf (r : Report) : string :=
  normalize (orDefault (location r) "Unknown").

Definition diseaseOf (r : Report) : string :=
  normalize (orDefault (ofOptional (type r)) "Unknown").

(** *** Reads that fall through to [Object.prototype]

    The table and its rows are made by [{}], so a read [o[k]] that finds
    no own property goes on to [Object.prototype].  The keys read here
    are results of [toLowerCase], and the only properties of
    [Object.prototype] whose names hold no upper-case letter are
    [constructor], which holds the function [Object], and the accessor
    [__proto__], which gives [Object.prototype] itself.  The model is of
    a call made in a realm where [Object.prototype] holds what the
    language puts there and nothing else. *)
Inductive Inherited : Type :=
| TheObjectFunction
| ThePrototype.

Definition constructorName : string := "constructor".
Definition protoName : string := "__proto__".

Definition inheritedName (k : string) : bool :=
  String.eqb k constructorName || String.eqb k protoName.

(** What [o[k]] finds beyond the own properties of [o], for a key
    without upper-case letters. *)
Definition inherited {V : Type} (o : obj V) (k : string) : option Inherited :=
  match get o k with
  | Some _ => None
  | None =>
      if String.eqb k constructorName then Some TheObjectFunction
      else if String.eqb k protoName then Some ThePrototype
      else None
  end.

(** [if (!agg[city]) agg[city] = {};] when [agg[city]] is not
    inherited. *)
Definition withRow (agg : Aggregated) (city : string) : Aggregated :=
  match get agg city with
  | None => set city [] agg
  | Some _ => agg
  end.

(** Lines 41 and 42 when neither read is inherited: the row is made if
    it is not there, and the count, read as zero when absent, is raised
    by one. *)
Definition tally (agg : Aggregated) (r : Report) : Aggregated :=
  let city := cityOf r in
  let disease := diseaseOf r in
  let agg1 := withRow agg city in
  (* agg[city][disease] = (agg[city][disease] || 0) + 1; *)
  match get agg1 city with
  | Some dis => set city (set disease (orZero (get dis disease) + 1) dis) agg1
  | None => agg1
  end.

(** How an iteration leaves the table of numbers: the write of line 42
    lands on the function [Object] or on [Object.prototype], or it
    stores a text in a cell. *)
Inductive Departure : Type :=
| WritesTo (target : Inherited)
| StoresText.

Inductive Outcome : Type :=
| Continues (agg : Aggregated)
| Departs (how : Departure).

(** One iteration of the loop of [groupLocal].

    - For a city that reads as an inherited property, [!agg[city]] is
      false, no row is made, and line 42 writes to the inherited object,
      not to the table.
    - For a disease that reads as [constructor], the function [Object]
      is truthy and [Object + 1] is a text, which line 42 stores in the
      cell.
    - For a disease that reads as [__proto__], [Object.prototype] is
      truthy and [Object.prototype + 1] is the text ["[object Object]1"],
      which the setter of [__proto__] ignores: the row is made and no
      cell is written. *)
Definition visit (agg : Aggregated) (r : Report) : Outcome :=
  let city := cityOf r in
  let disease := diseaseOf r in
  match inherited agg city with
  | Some target => Departs (WritesTo target)
  | None =>
      let dis := match get agg city with Some dis => dis | None => [] end in
      match inherited dis disease with
      | Some TheObjectFunction => Departs StoresText
      | Some ThePrototype => Continues (withRow agg city)
      | None => Continues (tally agg r)
      end
  end.

(** What a call of [groupLocal] comes to: the table it returns, or the
    table built so far and the first report at which an iteration
    departs.  From there on what the loop and the projection do depends
    on what the realm holds by then and, where texts are compared as
    numbers, on the engine; the model does not follow them. *)
Inductive Result : Type :=
| Returns (agg : Aggregated)
| Leaves (agg : Aggregated) (r : Report) (how : Departure).

Fixpoint aggregate (agg : Aggregated) (reports : list Report) : Result :=
  match reports with
  | [] => Returns agg
  | r :: rest =>
      match visit agg r with
      | Continues agg' => aggregate agg' rest
      | Departs how => Leaves agg r how
      end
  end.

Definition groupLocal (reports : list Report) : Result :=
  aggregate [] reports.

Record Entry : Type := mkEntry {
  city : string;
  diseases : list (string * Z);
  total : Z
}.

(** The body shared by [localEntries] and [globalEntries]. *)
Definition sortedEntries (agg : Aggregated) : list Entry :=
  let list :=
    map (fun cd : string * obj Z =>
           let (city, dis) := cd in
           {| city := city;
              diseases := JSArray.sort (fun a b => snd b - snd a) (entries dis);
              total := JSArray.sum (values dis) |})
        (entries agg) in
  JSArray.sort (fun a b => total b - total a) list.

(** [localEntries] is computed from [aggregatedLocal], the table
    [groupLocal] returned. *)
Definition localEntries (aggregatedLocal : Aggregated) : list Entry :=
  sortedEntries aggregatedLocal.

Definition globalEntries (globalReports : Aggregated) : list Entry :=
  sortedEntries globalReports.

(** The number of reports whose normalised fields are [c] and [d]. *)
Definition matches (c d : string) (r : Report) : bool :=
  String.eqb (cityOf r) c && String.eqb (diseaseOf r) d.

Definition matching (c d : string) (reports : list Report) : Z :=
  Z.of_nat (List.length (filter (matches c d) reports)).

Definition inCity (c : string) (reports : list Report) : Z :=
  Z.of_nat (List.length (filter (fun r => String.eqb (cityOf r) c) reports)).

(** Neither key of the report is the name of an inherited property. *)
Definition plain (r : Report) : bool :=
  negb (inheritedName (cityOf r)) && negb (inheritedName (diseaseOf r)).

(** The city is not the name of an inherited property and the disease
    is not [constructor]. *)
Definition numeric (r : Report) : bool :=
  negb (inheritedName (cityOf r))
  && negb (String.eqb (diseaseOf r) constructorName).

(** The count the table holds for a pair; an absent entry reads as
    [undefined]. *)
Definition count (agg : Aggregated) (c d : string) : option Z :=
  match get agg c with
  | Some dis => get dis d
  | None => None
  end.

(** The entry [localEntries] builds for one row of the table. *)
Definition entryOf (cd : string * obj Z) : Entry :=
  mkEntry (fst cd)
    (JSArray.sort (fun a b => snd b - snd a) (entries (snd cd)))
    (JSArray.sum (values (snd cd))).

(** Distinct cities, and distinct diseases in every row. *)
Definition distinctKeys (agg : Aggregated) : Prop :=
  NoDup (keys agg) /\ forall c dis, get agg c = Some dis -> NoDup (keys dis).

Definition rowTotal (agg : Aggregated) (c : string) : Z :=
  match get agg c with
  | Some dis => JSArray.sum (values dis)
  | None => 0
  end.



(** The three reports of the scenario in section 8 of the specification. *)
Definition scenario : list Report :=
  [ mkReport "r1" (Some "Flu") (JStr "Delhi") None;
    mkReport "r2" (Some "flu") (JStr " delhi ") None;
    mkReport "r3" (Some "Dengue") (JStr "Mumbai") None ].

End Outbreak.


(* ------------------------------------------------------------------ *)
(** ** The secondary source ([fetchGlobalOutbreaks]) *)

Module GlobalFetch.
Import JSString.

(** A value returned by [JSON.parse]. *)
#[local] Unset Elimination Schemes.
Inductive json : Type :=
| JsonNull
| JsonBool (b : bool)
| JsonNumber (n : Z)
| JsonString (s : string)
| JsonArray (items : list json)
| JsonObject (members : list (string * json)).
#[local] Set Elimination Schemes.

(** [typeof v === "object" && v !== null] *)
Definition isObject (v : json) : bool :=
  match v with
  | JsonArray _ | JsonObject _ => true
  | _ => false
  end.

(** What a [throw] carries: an [Error] with its message, or anything
    else. *)
Inductive Thrown : Type :=
| ErrorWith (message : string)
| NotAnError.

(** [err instanceof Error ? err.message : "Unknown error"] *)
Definition errorMessage (err : Thrown) : string :=
  match err with
  | ErrorWith m => m
  | NotAnError => "Unknown error"
  end.

(** *** The regular expression [/\{[\s\S]*\}/]

    The match starts at the first opening brace and, the star being
    greedy, ends at the last closing brace after it. *)
Definition openBrace : ascii := "{"%char.
Definition closeBrace : ascii := "}"%char.

Fixpoint fromFirstOpen (s : string) : option string :=
  match s with
  | EmptyString => None
  | String c s' => if Ascii.eqb c openBrace then Some s else fromFirstOpen s'
  end.

Fixpoint upToLastClose (s : string) : option string :=
  match s with
  | EmptyString => None
  | String c s' =>
      match upToLastClose s' with
      | Some t => Some (String c t)
      | None => if Ascii.eqb c closeBrace then Some (String c EmptyString) else None
      end
  end.

Definition matchBraces (text : string) : option string :=
  match fromFirstOpen text with
  | Some t => upToLastClose t
  | None => None
  end.

(** The calls of [JSON.parse] made while handling one response. *)
Inductive Attempt : Type :=
| Direct (text : string)
| Extracted (block : string).

Definition maxRetries : Z := 3.

(** The payload of the response, as far as [response.json()] and the
    optional chain [data.candidates?.[0]?.content?.parts?.[0]?.text]
    go. *)
Inductive Body : Type :=
| BodyRejects (err : Thrown)
| BodyData (textResponse : option string).

Inductive Network : Type :=
| FetchRejects (err : Thrown)
| Responds (ok : bool) (status : Z) (body : Body).

Record Env : Type := mkEnv {
  API_KEY : option string;
  API_URL : option string
}.

Definition configured (v : option string) : bool :=
  match v with Some s => truthy s | None => false end.

(** The state of [OutbreakBox] that the fetch touches. *)
Record State : Type := mkState {
  globalReports : json;
  isLoading : bool;
  error : option string;
  retryCount : Z
}.

Definition showNumber (n : Z) : string :=
  DecimalString.NilZero.string_of_int (Z.to_int n).

Section Parse.
(** [JSON.parse]; [None] stands for the [SyntaxError] it throws. *)
Variable JSON_parse : string -> option json.

(** First attempt (lines 97-100): the whole text must parse to a
    non-null object. *)
Definition directParse (text : string) : option json :=
  match JSON_parse text with
  | Some v => if isObject v then Some v else None
  | None => None
  end.

(** Second attempt (lines 104-115), with the call of [JSON.parse] it
    makes. *)
Definition extractedParse (text : string) : list Attempt * (json + Thrown) :=
  match matchBraces text with
  | Some block =>
      ([Extracted block],
       match JSON_parse block with
       | Some v => inl v
       | None => inr (ErrorWith "Unable to parse Gemini API response as JSON.")
       end)
  | None => ([], inr (ErrorWith "Gemini API did not return JSON."))
  end.

(** Lines 93-119: the calls of [JSON.parse] made, and the table or what
    is thrown. *)
Definition parseTraced (textResponse : option string)
  : list Attempt * (json + Thrown) :=
  match textResponse with
  | Some text =>
      if truthy text then
        match directParse text with
        | Some v => ([Direct text], inl v)
        | None =>
            let (calls, result) := extractedParse text in
            (Direct text :: calls, result)
        end
      else ([], inr (ErrorWith "Unexpected response format from Gemini API."))
  | None => ([], inr (ErrorWith "Unexpected response format from Gemini API."))
  end.

Definition parseTextResponse (textResponse : option string) : json + Thrown :=
  snd (parseTraced textResponse).


(** The second attempt, by its value alone. *)
Definition secondAttempt (text : string) : option json :=
  match matchBraces text with
  | Some block => JSON_parse block
  | None => None
  end.

(** The [try] block (lines 66-119). *)
Definition tryFetch (net : Network) : json + Thrown :=
  match net with
  | FetchRejects err => inr err
  | Responds ok status body =>
      if negb ok
      then inr (ErrorWith ("HTTP error! status: " ++ showNumber status))
      else match body with
           | BodyRejects err => inr err
           | BodyData textResponse => parseTextResponse textResponse
           end
  end.

(** One call of [fetchGlobalOutbreaks].  [captured] is the value of
    [retryCount] the callback closed over: the callback is created by
    [useCallback] in one render and reads the constant [retryCount] of
    that render (line 51), whereas [setRetryCount((prev) => prev + 1)]
    acts on the current state.  The result is the new state and the
    delays of the [setTimeout(fetchGlobalOutbreaks, _)] calls made; the
    callback such a timer calls is the one that set it (line 127), with
    the same [captured] value. *)
Definition fetchGlobalOutbreaks
    (env : Env) (captured : Z) (net : Network) (st : State)
    : State * list Z :=
  if negb (configured (API_KEY env)) || negb (configured (API_URL env))
  then
    (mkState (globalReports st) (isLoading st)
       (Some "API key or URL is missing. Please check your environment configuration.")
       (retryCount st),
     [])
  else
    match tryFetch net with
    | inl parsed => (mkState parsed false None 0, [])
    | inr err =>
        let errorMessage := errorMessage err in
        if captured <? maxRetries then
          (mkState (globalReports st) false
             (Some ("Retrying... Failed to fetch global outbreaks: " ++ errorMessage))
             (retryCount st + 1),
           [2000 * (captured + 1)])
        else
          (mkState (globalReports st) false
             (Some ("Failed to fetch global outbreaks after "
                    ++ showNumber maxRetries ++ " retries: " ++ errorMessage))
             (retryCount st),
           [])
    end.

End Parse.

Definition sampleEnv : Env := mkEnv (Some "key") (Some "https://example.test").

(** A stand-in for [JSON.parse] in the examples: it reads the empty
    object and the number 7, and rejects every other text. *)
Definition sampleParse (s : string) : option json :=
  if String.eqb s "{}" then Some (JsonObject [])
  else if String.eqb s "7" then Some (JsonNumber 7)
  else None.

End GlobalFetch.

(* ------------------------------------------------------------------ *)
(** ** The prescription thread and its payment gate ([PrescriptionBox]) *)

Module Prescription.
Import JSString JSObject.

Inductive Role : Type := doctor | patient.

Inductive Sender : Type := byDoctor | byPatient | byGemini.

Inductive MessageType : Type := chat | prescription | buyLink.

Definition senderOf (r : Role) : Sender :=
  match r with doctor => byDoctor | patient => byPatient end.

Record Message : Type := mkMessage {
  id : string;
  sender : Sender;
  type : MessageType;
  text : string;
  timestamp : Z
}.

Record PaymentStatus : Type := mkPayment {
  claimed : bool;
  verified : bool
}.

(** The three states of section 4.2 of the specification. *)
Definition Unclaimed : PaymentStatus := mkPayment false false.
Definition Claimed : PaymentStatus := mkPayment true false.
Definition Verified : PaymentStatus := mkPayment true true.

(** *** The remote store

    [prescriptions/{targetId}] holds the children [messages] and
    [payment_status]; a missing [payment_status] reads as [null]. *)
Record Thread : Type := mkThread {
  messages : obj Message;
  payment_status : option PaymentStatus
}.

Definition Db : Type := string -> Thread.

Definition emptyDb : Db := fun _ => mkThread [] None.

(** [snap.val() || { claimed: false, verified: false }] *)
Definition paymentOf (db : Db) (targetId : string) : PaymentStatus :=
  match payment_status (db targetId) with
  | Some ps => ps
  | None => mkPayment false false
  end.

Definition setThread (targetId : string) (t : Thread) (db : Db) : Db :=
  fun k => if String.eqb k targetId then t else db k.

Fixpoint removeKey {V : Type} (k : string) (o : obj V) : obj V :=
  match o with
  | [] => []
  | (k', v) :: o' => if String.eqb k k' then o' else (k', v) :: removeKey k o'
  end.

(** *** The component *)

Record Form : Type := mkForm {
  problemDiagnosis : string;
  medicineNames : string;
  dosageInstructions : string;
  date : string
}.

Definition emptyForm : Form := mkForm "" "" "" "".

Record Component : Type := mkComponent {
  role : Role;
  user : option string;          (* auth.currentUser, by its uid *)
  patientId : option string;
  shown : list Message;          (* the state variable [messages] *)
  inputText : string;
  form : Form;
  hasDoctorSentFirst : bool;
  paymentClaimed : bool;
  paymentVerified : bool;
  showVerificationPopup : bool
}.

Definition present (v : option string) : bool :=
  match v with Some s => truthy s | None => false end.

(** [role === "doctor" ? patientId : user.uid] *)
Definition targetOf (c : Component) : option string :=
  match role c with doctor => patientId c | patient => user c end.

(** The path a handler builds from a target it did not check: a missing
    one is interpolated as the text [undefined]. *)
Definition pathOf (target : option string) : string :=
  match target with Some s => s | None => "undefined" end.

(** The thread both subscriptions listen to, when they are set up
    ([if (!user) return; ... if (!targetId) return;]). *)
Definition subscribedTo (c : Component) : option string :=
  match user c with
  | Some _ => if present (targetOf c) then targetOf c else None
  | None => None
  end.

Definition withShown (l : list Message) (c : Component) : Component :=
  mkComponent (role c) (user c) (patientId c) l (inputText c) (form c)
    (hasDoctorSentFirst c) (paymentClaimed c) (paymentVerified c)
    (showVerificationPopup c).

Definition withInputText (s : string) (c : Component) : Component :=
  mkComponent (role c) (user c) (patientId c) (shown c) s (form c)
    (hasDoctorSentFirst c) (paymentClaimed c) (paymentVerified c)
    (showVerificationPopup c).

Definition withForm (f : Form) (c : Component) : Component :=
  mkComponent (role c) (user c) (patientId c) (shown c) (inputText c) f
    (hasDoctorSentFirst c) (paymentClaimed c) (paymentVerified c)
    (showVerificationPopup c).

Definition withHasDoctorSentFirst (b : bool) (c : Component) : Component :=
  mkComponent (role c) (user c) (patientId c) (shown c) (inputText c) (form c)
    b (paymentClaimed c) (paymentVerified c) (showVerificationPopup c).

Definition withPayment (cl ve : bool) (c : Component) : Component :=
  mkComponent (role c) (user c) (patientId c) (shown c) (inputText c) (form c)
    (hasDoctorSentFirst c) cl ve (showVerificationPopup c).

Definition withPopup (b : bool) (c : Component) : Component :=
  mkComponent (role c) (user c) (patientId c) (shown c) (inputText c) (form c)
    (hasDoctorSentFirst c) (paymentClaimed c) (paymentVerified c) b.

Definition isDoctor (r : Role) : bool :=
  match r with doctor => true | patient => false end.

Definition isPatient (r : Role) : bool :=
  match r with doctor => false | patient => true end.

(** The effect of lines 72-78, run after a render in which
    [paymentClaimed], [paymentVerified] or [role] changed. *)
Definition popupEffect (c : Component) : Component :=
  withPopup (isDoctor (role c) && paymentClaimed c && negb (paymentVerified c)) c.

(** The callback of the [messages] subscription (lines 47-53). *)
Definition onMessages (data : obj Message) (c : Component) : Component :=
  let msgs := JSArray.sort (fun a b => timestamp a - timestamp b) (values data) in
  let c1 := withShown msgs c in
  match msgs with
  | [] => c1
  | _ :: _ => withHasDoctorSentFirst true c1
  end.

(** The callback of the [payment_status] subscription (lines 63-67),
    followed by the popup effect when one of its dependencies changed. *)
Definition onPayment (data : PaymentStatus) (c : Component) : Component :=
  let c1 := withPayment (claimed data) (verified data) c in
  if Bool.eqb (paymentClaimed c) (claimed data)
     && Bool.eqb (paymentVerified c) (verified data)
  then c1 else popupEffect c1.

(** The two subscription effects (lines 42-69), run after a render in
    which [role], [patientId] or [user] is new: each listener, when it is
    set up, is called with the current value of its path. *)
Definition subscribe (db : Db) (c : Component) : Component :=
  match subscribedTo c with
  | Some t => onPayment (paymentOf db t) (onMessages (messages (db t)) c)
  | None => c
  end.

(** A component after its first render: initial state, the popup effect,
    and the first snapshot of each subscription. *)
Definition mount (r : Role) (u pid : option string) (db : Db) : Component :=
  subscribe db
    (popupEffect (mkComponent r u pid [] "" emptyForm false false false false)).

(** The doctor's dashboard passes another [patientId] to the mounted
    component, which keeps its state and subscribes anew. *)
Definition withPatientId (pid : option string) (c : Component) : Component :=
  mkComponent (role c) (user c) pid (shown c) (inputText c) (form c)
    (hasDoctorSentFirst c) (paymentClaimed c) (paymentVerified c)
    (showVerificationPopup c).

Definition select (pid : string) (db : Db) (c : Component) : Component :=
  subscribe db (withPatientId (Some pid) c).

(** Line 25 reads [auth.currentUser] at every render: after a sign-in or
    a sign-out the dashboard renders the box again, which keeps its state
    and sees the new user. *)
Definition withUser (u : option string) (c : Component) : Component :=
  mkComponent (role c) u (patientId c) (shown c) (inputText c) (form c)
    (hasDoctorSentFirst c) (paymentClaimed c) (paymentVerified c)
    (showVerificationPopup c).

(** What can happen to a mounted box: one of its two listeners is called
    with a snapshot, whenever that is and whatever the snapshot holds; it
    is rendered with another [patientId] or another user; one of its
    handlers sets a state variable. *)
Inductive Update : Type :=
| MessagesSnapshot (data : obj Message)
| PaymentSnapshot (data : PaymentStatus)
| NewPatientId (pid : option string)
| NewUser (u : option string)
| SetInputText (s : string)
| SetForm (f : Form)
| SetPopup (b : bool)
| SetMessages (l : list Message).

Definition update (c : Component) (u : Update) : Component :=
  match u with
  | MessagesSnapshot data => onMessages data c
  | PaymentSnapshot data => onPayment data c
  | NewPatientId pid => withPatientId pid c
  | NewUser u => withUser u c
  | SetInputText s => withInputText s c
  | SetForm f => withForm f c
  | SetPopup b => withPopup b c
  | SetMessages l => withShown l c
  end.

Definition updates (c : Component) (us : list Update) : Component :=
  fold_left update us c.

(** *** Rendering *)



(** The patient sees the payment panel instead of the chat input
    (line 422). *)
Definition paymentPanel (c : Component) : bool :=
  hasDoctorSentFirst c && negb (paymentVerified c).

(** *** The world: the store and the mounted components

    A write reaches the store and the resulting snapshot is delivered to
    every component subscribed to that thread before anything else
    happens. *)
Record World : Type := mkWorld {
  db : Db;
  sessions : list Component
}.

Fixpoint alterAt (i : nat) (f : Component -> Component) (l : list Component)
  {struct l} : list Component :=
  match l, i with
  | [], _ => []
  | c :: l', O => f c :: l'
  | c :: l', S i' => c :: alterAt i' f l'
  end.

(** A state update made by a handler of session [i]. *)
Definition local (i : nat) (f : Component -> Component) (w : World) : World :=
  mkWorld (db w) (alterAt i f (sessions w)).

Definition listens (t : string) (c : Component) : bool :=
  match subscribedTo c with
  | Some t' => String.eqb t' t
  | None => false
  end.

Definition deliverMessages (t : string) (w : World) : World :=
  mkWorld (db w)
    (map (fun c => if listens t c then onMessages (messages (db w t)) c else c)
         (sessions w)).

Definition deliverPayment (t : string) (w : World) : World :=
  mkWorld (db w)
    (map (fun c => if listens t c then onPayment (paymentOf (db w) t) c else c)
         (sessions w)).

Definition writeMessages (t : string) (f : obj Message -> obj Message)
    (w : World) : World :=
  deliverMessages t
    (mkWorld
       (setThread t (mkThread (f (messages (db w t))) (payment_status (db w t)))
          (db w))
       (sessions w)).

(** [set(ref(db, `prescriptions/${t}/messages/${msg.id}`), msg)] *)
Definition setMessage (t : string) (msg : Message) (w : World) : World :=
  writeMessages t (set (id msg) msg) w.

(** [remove(ref(db, `prescriptions/${t}/messages/${msgId}`))] *)
Definition removeMessage (t msgId : string) (w : World) : World :=
  writeMessages t (removeKey msgId) w.

(** [remove(ref(db, `prescriptions/${t}/messages`))] *)
Definition removeMessages (t : string) (w : World) : World :=
  writeMessages t (fun _ => []) w.

(** [set(ref(db, `prescriptions/${t}/payment_status`), ps)] *)
Definition setPayment (t : string) (ps : PaymentStatus) (w : World) : World :=
  deliverPayment t
    (mkWorld (setThread t (mkThread (messages (db w t)) (Some ps)) (db w))
       (sessions w)).

(** *** The handlers

    [i] is the position of the acting session and [c] its state at the
    render whose handler runs.  Identifiers and timestamps
    ([generateId()], [Date.now()]) are inputs. *)

Record Env : Type := mkEnv {
  API_KEY : option string;
  API_URL : option string
}.

(** What the text-generation endpoint does for [fetchBuyLinks]: the call
    fails (rejection, HTTP error, unreadable body), or yields the text at
    the end of the optional chain. *)
Inductive Reply : Type :=
| ReplyFails
| ReplyData (text : option string).

Record Stamp : Type := mkStamp {
  newId : string;
  now : Z
}.

Definition signedIn (c : Component) : bool :=
  match user c with Some _ => true | None => false end.

Definition appendShown (msg : Message) (c : Component) : Component :=
  withShown (shown c ++ [msg])%list c.

Definition newline : string := String (ascii_of_nat 10) EmptyString.

Section Handlers.
Variable env : Env.
(** The search links built from the medicine names at lines 161-172. *)
Variable searchLinks : string -> string.

Definition saveMessage (c : Component) (msg : Message) (w : World) : World :=
  if present (targetOf c) then setMessage (pathOf (targetOf c)) msg w else w.

Definition handleDeletePrescription (c : Component) (msgId : string)
    (w : World) : World :=
  if signedIn c then removeMessage (pathOf (targetOf c)) msgId w else w.

Definition handleClearChat (i : nat) (c : Component) (w : World) : World :=
  if signedIn c
  then local i (withShown []) (removeMessages (pathOf (targetOf c)) w)
  else w.

Definition handleSendChat (i : nat) (c : Component) (st : Stamp)
    (w : World) : World :=
  if negb (truthy (trim (inputText c))) || negb (signedIn c) then w
  else
    let msg := mkMessage (newId st) (senderOf (role c)) chat (inputText c) (now st) in
    local i (withInputText "") (saveMessage c msg w).

Definition fetchBuyLinks (i : nat) (c : Component) (medicines : string)
    (reply : Reply) (st : Stamp) (w : World) : World :=
  if negb (present (API_KEY env)) || negb (present (API_URL env)) then
    local i
      (appendShown
         (mkMessage (newId st) byGemini buyLink
            "⚠ Error: API key or URL is missing. Please check your environment configuration."
            (now st)))
      w
  else
    match reply with
    | ReplyFails =>
        local i
          (appendShown
             (mkMessage (newId st) byGemini buyLink
                "⚠ Error fetching buy links from the API. Please try again."
                (now st)))
          w
    | ReplyData answer =>
        let text := match answer with Some t => trim t | None => "" end in
        let text := if truthy text then text else searchLinks medicines in
        let geminiMsg := mkMessage (newId st) byGemini buyLink text (now st) in
        setMessage (pathOf (targetOf c)) geminiMsg w
    end.

Definition handleSendPrescription (i : nat) (c : Component)
    (st : Stamp) (reply : Reply) (st' : Stamp) (w : World) : World :=
  let f := form c in
  if negb (truthy (problemDiagnosis f)) || negb (truthy (medicineNames f))
     || negb (truthy (dosageInstructions f)) || negb (truthy (date f))
  then w
  else if negb (signedIn c) || negb (present (patientId c)) then w
  else
    let msg :=
      mkMessage (newId st) byDoctor prescription
        ("Diagnosis: " ++ problemDiagnosis f ++ newline
         ++ "Medicines: " ++ medicineNames f ++ newline
         ++ "Dosage: " ++ dosageInstructions f ++ newline
         ++ "Next Visit: " ++ date f)
        (now st) in
    let targetId := pathOf (patientId c) in
    let w1 := setMessage targetId msg w in
    let w2 := setPayment targetId (mkPayment false false) w1 in
    let w3 := fetchBuyLinks i c (medicineNames f) reply st' w2 in
    local i (withForm emptyForm) w3.

Definition handleConfirmPayment (c : Component) (w : World) : World :=
  match user c with
  | Some uid => setPayment uid (mkPayment true false) w
  | None => w
  end.

Definition handleVerifyYes (i : nat) (c : Component) (w : World) : World :=
  if negb (signedIn c) || negb (present (patientId c)) then w
  else local i (withPopup false)
         (setPayment (pathOf (patientId c)) (mkPayment true true) w).

Definition handleVerifyNo (i : nat) (c : Component) (w : World) : World :=
  if negb (signedIn c) || negb (present (patientId c)) then w
  else local i (withPopup false)
         (setPayment (pathOf (patientId c)) (mkPayment false false) w).

(** *** User events

    An event reaches its handler only when the control it comes from is
    rendered. *)
Inductive Event : Type :=
| ChangeInputText (s : string)
| ChangeDiagnosis (s : string)
| ChangeMedicines (s : string)
| ChangeDosage (s : string)
| ChangeDate (s : string)
| ClickSend (st : Stamp)
| ClickSendPrescription (st : Stamp) (reply : Reply) (st' : Stamp)
| ClickDelete (msgId : string)
| ClickClearChat
| ClickConfirmPayment
| ClickVerifyYes
| ClickVerifyNo.

Definition deletable (msgId : string) (msg : Message) : bool :=
  String.eqb (id msg) msgId
  && match type msg with prescription => true | _ => false end.

Definition rendered (c : Component) (e : Event) : bool :=
  match e with
  | ChangeInputText _ | ClickSend _ | ClickClearChat =>
      match role c with
      | doctor => true
      | patient => negb (paymentPanel c)
      end
  | ChangeDiagnosis _ | ChangeMedicines _ | ChangeDosage _ | ChangeDate _
  | ClickSendPrescription _ _ _ =>
      isDoctor (role c)
  | ClickDelete msgId =>
      isDoctor (role c) && existsb (deletable msgId) (shown c)
  | ClickConfirmPayment =>
      isPatient (role c) && paymentPanel c && negb (paymentClaimed c)
  | ClickVerifyYes | ClickVerifyNo =>
      showVerificationPopup c
  end.

Definition handle (i : nat) (c : Component) (e : Event) (w : World) : World :=
  match e with
  | ChangeInputText s => local i (withInputText s) w
  | ChangeDiagnosis s =>
      local i (fun c' => withForm (mkForm s (medicineNames (form c'))
                 (dosageInstructions (form c')) (date (form c'))) c') w
  | ChangeMedicines s =>
      local i (fun c' => withForm (mkForm (problemDiagnosis (form c')) s
                 (dosageInstructions (form c')) (date (form c'))) c') w
  | ChangeDosage s =>
      local i (fun c' => withForm (mkForm (problemDiagnosis (form c'))
                 (medicineNames (form c')) s (date (form c'))) c') w
  | ChangeDate s =>
      local i (fun c' => withForm (mkForm (problemDiagnosis (form c'))
                 (medicineNames (form c')) (dosageInstructions (form c')) s) c') w
  | ClickSend st => handleSendChat i c st w
  | ClickSendPrescription st reply st' => handleSendPrescription i c st reply st' w
  | ClickDelete msgId => handleDeletePrescription c msgId w
  | ClickClearChat => handleClearChat i c w
  | ClickConfirmPayment => handleConfirmPayment c w
  | ClickVerifyYes => handleVerifyYes i c w
  | ClickVerifyNo => handleVerifyNo i c w
  end.

(** A step of the world: a component is mounted, the doctor of session
    [i] picks a patient from the waiting list, or session [i] receives an
    event. *)
Inductive Step : Type :=
| Mount (r : Role) (u pid : option string)
| Select (i : nat) (pid : string)
| Act (i : nat) (e : Event).

Definition step (w : World) (s : Step) : World :=
  match s with
  | Mount r u pid => mkWorld (db w) (sessions w ++ [mount r u pid (db w)])%list
  | Select i pid =>
      match nth_error (sessions w) i with
      | Some c =>
          if isDoctor (role c) && truthy pid
          then local i (select pid (db w)) w else w
      | None => w
      end
  | Act i e =>
      match nth_error (sessions w) i with
      | Some c => if rendered c e then handle i c e w else w
      | None => w
      end
  end.

Definition run (w : World) (steps : list Step) : World :=
  fold_left step steps w.

(** The worlds that arise from a store with no component mounted. *)
Definition reachable (w : World) : Prop :=
  exists (db0 : Db) (steps : list Step), w = run (mkWorld db0 []) steps.

End Handlers.

(** *** Predicates used in the statements *)

(** [verified == true] implies [claimed == true]. *)
Definition validStatus (ps : PaymentStatus) : Prop :=
  verified ps = true -> claimed ps = true.

(** What the [messages] callback stores for a snapshot. *)
Definition delivered (data : obj Message) : list Message :=
  JSArray.sort (fun a b => timestamp a - timestamp b) (values data).

(** The state of a component on its own: without a subscription the
    payment flags are unset; the popup is up only for a doctor looking at a
    claimed, unverified payment; a patient who is shown a message has
    [hasDoctorSentFirst] raised. *)
Record wellFormed (c : Component) : Prop := mkWellFormed {
  wf_detached :
    subscribedTo c = None ->
    paymentClaimed c = false /\ paymentVerified c = false;
  wf_popup :
    showVerificationPopup c = true ->
    role c = doctor /\ paymentClaimed c = true /\ paymentVerified c = false;
  wf_flag :
    role c = patient -> shown c <> [] -> hasDoctorSentFirst c = true
}.

(** The payment flags are those of the record of the thread listened
    to. *)
Definition mirrorsPayment (d : Db) (c : Component) : Prop :=
  forall t, subscribedTo c = Some t ->
            mkPayment (paymentClaimed c) (paymentVerified c) = paymentOf d t.

(** A patient's component holds every message of the thread, whatever the
    payment status. *)
Definition mirrorsMessages (d : Db) (c : Component) : Prop :=
  role c = patient ->
  forall t, subscribedTo c = Some t -> shown c = delivered (messages (d t)).

Record synced (d : Db) (c : Component) : Prop := mkSynced {
  synced_state : wellFormed c;
  synced_payment : mirrorsPayment d c;
  synced_messages : mirrorsMessages d c
}.


(** The view of a component is up to date: its payment flags are those
    of the record (the last snapshot has been delivered) and its popup
    follows its flags (the popup effect has run). *)
Definition upToDate (d : Db) (c : Component) : Prop :=
  mirrorsPayment d c
  /\ (showVerificationPopup c = true ->
      role c = doctor /\ paymentClaimed c = true /\ paymentVerified c = false).

(** The properties a component was given. *)
Definition props (c : Component) : Role * option string * option string :=
  (role c, user c, patientId c).


(** The gate is in the state [Claimed], as the component sees it. *)
Definition seesClaimed (c : Component) : bool :=
  paymentClaimed c && negb (paymentVerified c).




Definition formComplete (f : Form) : bool :=
  truthy (problemDiagnosis f) && truthy (medicineNames f)
  && truthy (dosageInstructions f) && truthy (date f).

(** The thread and the value an event writes to [payment_status], read
    off its handler. *)
Definition gateWrite (c : Component) (e : Event)
  : option (string * PaymentStatus) :=
  match e with
  | ClickConfirmPayment =>
      match user c with
      | Some uid => Some (uid, Claimed)
      | None => None
      end
  | ClickVerifyYes =>
      if signedIn c && present (patientId c)
      then Some (pathOf (patientId c), Verified) else None
  | ClickVerifyNo =>
      if signedIn c && present (patientId c)
      then Some (pathOf (patientId c), Unclaimed) else None
  | ClickSendPrescription _ _ _ =>
      if formComplete (form c) && (signedIn c && present (patientId c))
      then Some (pathOf (patientId c), Unclaimed) else None
  | _ => None
  end.

(** *** A sample session: a doctor prescribes to the patient [pat] *)

Definition sampleEnv : Env := mkEnv (Some "key") (Some "https://example.test").

Definition sampleLinks (medicines : string) : string :=
  "Search: " ++ medicines.

Definition prescribing : list Step :=
  [ Mount doctor (Some "doc") (Some "pat");
    Mount patient (Some "pat") None;
    Act 0 (ChangeDiagnosis "Flu");
    Act 0 (ChangeMedicines "Paracetamol");
    Act 0 (ChangeDosage "Twice a day");
    Act 0 (ChangeDate "2025-01-31");
    Act 0 (ClickSendPrescription (mkStamp "m1" 100)
             (ReplyData (Some "[1mg](https://www.1mg.com)"))
             (mkStamp "m2" 101)) ].

Definition afterPrescription : World :=
  run sampleEnv sampleLinks (mkWorld emptyDb []) prescribing.

(** What the patient sees after the prescription, and its first
    message. *)
Definition patientView : Component :=
  Eval vm_compute in
    nth 1 (sessions afterPrescription)
      (mkComponent patient None None [] "" emptyForm false false false false).


(** The doctor of the sample session with the form filled in again. *)
Definition doctorWithForm : Component :=
  mkComponent doctor (Some "doc") (Some "pat") [] ""
    (mkForm "Flu" "Paracetamol" "Twice a day" "2025-02-28")
    true true true false.

Definition afterClaim : World :=
  run sampleEnv sampleLinks afterPrescription [Act 1 ClickConfirmPayment].

Definition afterVerification : World :=
  run sampleEnv sampleLinks afterClaim [Act 0 ClickVerifyYes].


(** The patient of the sample session opens the box on a second device
    after the verification: the first half of [subscribe], the messages
    listener called and the payment listener not yet. *)
Definition staleConfirm : World :=
  mkWorld (db afterVerification)
    (sessions afterVerification
     ++ [onMessages (messages (db afterVerification "pat"))
           (popupEffect
              (mkComponent patient (Some "pat") None [] "" emptyForm
                 false false false false))])%list.

End Prescription.

(* ------------------------------------------------------------------ *)
(** ** The dashboards that write and list the reports

    [PatientDashboard] ([src/pages/Education.tsx]) submits and deletes
    reports; [DoctorDashboard] lists them, newest first, and hands the list
    to [OutbreakBox]. *)

Module Dashboard.
Import JSString JSObject.

(** What [FormData.get] returns: nothing, the text of an input, or a
    file. *)
Inductive FormValue : Type :=
| Missing
| Text (s : string)
| File.

(** [String(fd.get(name))] *)
Definition asString (v : FormValue) : string :=
  match v with
  | Missing => "null"
  | Text s => s
  | File => "[object File]"
  end.

(** The object written under [reports/{key}]. *)
Record Stored : Type := mkStored {
  id : string;
  type : string;
  location : string;
  userId : string;
  createdAt : Z
}.

Inductive Toast : Type :=
| SignInFirst
| InvalidInput
| ReportSubmitted
| FailedToSubmit (description : string).

(** The outcome of [set(r, data)]: done, or rejected with an [Error]
    carrying a message or with something else. *)
Inductive Write : Type :=
| WriteDone
| WriteRejected (message : option string).

(** [onSubmit] of [PatientDashboard] (lines 572-598): [uid] is
    [user?.uid], [key] the key of the reference made by [push], [now] the
    value of [Date.now()].  It returns the [reports] collection and the
    toast shown. *)
Definition onSubmit (uid : option string) (typeField locationField : FormValue)
    (key : string) (now : Z) (write : Write) (reports : obj Stored)
    : obj Stored * Toast :=
  match uid with
  | None => (reports, SignInFirst)
  | Some u =>
      if negb (truthy u) then (reports, SignInFirst)
      else
        let type := trim (asString typeField) in
        let location := trim (asString locationField) in
        if negb (truthy type) || negb (truthy location)
        then (reports, InvalidInput)
        else
          let data := mkStored key type location u now in
          match write with
          | WriteDone => (set key data reports, ReportSubmitted)
          | WriteRejected (Some message) => (reports, FailedToSubmit message)
          | WriteRejected None => (reports, FailedToSubmit "Please try again")
          end
  end.

(** [remove(ref(db, `reports/${id}`))], as [deleteReport] and the doctor's
    Delete button do. *)
Definition deleteReport (reportId : string) (reports : obj Stored) : obj Stored :=
  Prescription.removeKey reportId reports.

(** [({ ...data, id })] *)
Definition withId (kd : string * Stored) : Stored :=
  mkStored (fst kd) (type (snd kd)) (location (snd kd)) (userId (snd kd))
    (createdAt (snd kd)).

(** The [reports] subscription of [DoctorDashboard] (lines 718-728):
    every child with its key as [id], newest first. *)
Definition listReports (snapshot : obj Stored) : list Stored :=
  JSArray.sort (fun a b => createdAt b - createdAt a)
    (map withId (entries snapshot)).

(** The element of the [reports] property of [OutbreakBox]. *)
Definition toProps (r : Stored) : Outbreak.Report :=
  Outbreak.mkReport (id r) (Some (type r)) (Outbreak.JStr (location r))
    (Some (createdAt r)).

(** The call [groupLocal(reports)] that [OutbreakBox] makes in the
    doctor's dashboard. *)
Definition outbreakTable (snapshot : obj Stored) : Outbreak.Result :=
  Outbreak.groupLocal (map toProps (listReports snapshot)).

(** What [OutbreakBox] shows there, when that call returns a table of
    numbers. *)
Definition outbreakSummary (snapshot : obj Stored)
  : option (list Outbreak.Entry) :=
  match outbreakTable snapshot with
  | Outbreak.Returns agg => Some (Outbreak.localEntries agg)
  | Outbreak.Leaves _ _ _ => None
  end.

(** Neither field of the stored report reads as the name of an
    inherited property. *)
Definition plainStored (r : Stored) : bool := Outbreak.plain (toProps r).

(** A report as [onSubmit] writes it: both fields trimmed and not
    empty. *)
Definition fromForm (r : Stored) : Prop :=
  trim (type r) = type r /\ type r <> EmptyString
  /\ trim (location r) = location r /\ location r <> EmptyString.

End Dashboard.

(* ------------------------------------------------------------------ *)
(** ** Buy links as the prescription thread renders them
    ([renderMarkdownLinks]) *)

Module Markdown.
Import JSString.

Definition newlineChar : ascii := ascii_of_nat 10.
Definition openBracket : ascii := "["%char.
Definition closeBracket : ascii := "]"%char.
Definition openParen : ascii := "("%char.
Definition closeParen : ascii := ")"%char.

(** The characters the regular-expression dot does not match: LF and CR
    (the line terminators below U+0100). *)
Definition isLineTerminator (c : ascii) : bool :=
  let n := N_of_ascii c in ((n =? 10) || (n =? 13))%N.

Fixpoint noLineTerminator (s : string) : bool :=
  match s with
  | EmptyString => true
  | String c s' => negb (isLineTerminator c) && noLineTerminator s'
  end.

(** [text.split("\n")] *)
Fixpoint splitLines (s : string) : list string :=
  match s with
  | EmptyString => [EmptyString]
  | String c s' =>
      if Ascii.eqb c newlineChar then EmptyString :: splitLines s'
      else match splitLines s' with
           | line :: lines => String c line :: lines
           | [] => [String c EmptyString]
           end
  end.

(** [lines.join("\n")] *)
Fixpoint joinLines (lines : list string) : string :=
  match lines with
  | [] => EmptyString
  | [line] => line
  | line :: rest => line ++ String newlineChar (joinLines rest)
  end.

(** *** The regular expression [/\[(.*?)\]\((.*?)\)/]

    [closeOf s] matches [(.*?)\)] at the start of [s]: the shortest run of
    characters other than line terminators that a closing parenthesis
    follows. *)
Fixpoint closeOf (s : string) : option string :=
  match s with
  | EmptyString => None
  | String c s' =>
      if Ascii.eqb c closeParen then Some EmptyString
      else if isLineTerminator c then None
      else match closeOf s' with
           | Some href => Some (String c href)
           | None => None
           end
  end.

(** [labelOf s] matches [(.*?)\]\((.*?)\)] at the start of [s]: the first
    group grows one character at a time until ["]("] and a closing
    parenthesis can follow it. *)
Fixpoint labelOf (s : string) : option (string * string) :=
  match s with
  | EmptyString => None
  | String c s' =>
      let here :=
        if Ascii.eqb c closeBracket then
          match s' with
          | String c' s'' => if Ascii.eqb c' openParen then closeOf s'' else None
          | EmptyString => None
          end
        else None in
      match here with
      | Some href => Some (EmptyString, href)
      | None =>
          if isLineTerminator c then None
          else match labelOf s' with
               | Some (label, href) => Some (String c label, href)
               | None => None
               end
      end
  end.

(** [line.match(...)]: the match that starts furthest to the left; the
    result holds the two groups. *)
Fixpoint matchLink (line : string) : option (string * string) :=
  match line with
  | EmptyString => None
  | String c s' =>
      if Ascii.eqb c openBracket then
        match labelOf s' with
        | Some groups => Some groups
        | None => matchLink s'
        end
      else matchLink s'
  end.

(** A paragraph of the output: the line as it is, or a link showing the
    first group and pointing to the second. *)
Inductive Paragraph : Type :=
| Plain (line : string)
| Link (label href : string).

Definition renderLine (line : string) : Paragraph :=
  match matchLink line with
  | Some (label, href) => Link label href
  | None => Plain line
  end.

Definition renderMarkdownLinks (text : string) : list Paragraph :=
  map renderLine (splitLines text).

(** A link written out: [[label](href)]. *)
Definition linkText (label href : string) : string :=
  String openBracket label
  ++ String closeBracket (String openParen href)
  ++ String closeParen EmptyString.

End Markdown.

(* ------------------------------------------------------------------ *)
(** ** Notions used in further statements *)

Module Notions.
Import JSString JSObject.

(** The elements whose key is [k]. *)
Definition hasKey {A : Type} (key : A -> Z) (k : Z) (x : A) : bool :=
  key x =? k.

(** A key that [trim] and [toLowerCase] leave as it is. *)
Definition normalized (k : string) : Prop :=
  trim k = k /\ toLowerCase k = k.

(** The sum of [weight] over the values of an object. *)
Definition sumBy {V : Type} (weight : V -> Z) (o : obj V) : Z :=
  JSArray.sum (map (fun kv => weight (snd kv)) o).

(** The number of reports a table accounts for: the sum of all its
    counts. *)
Definition counted (agg : Outbreak.Aggregated) : Z :=
  sumBy (fun dis : obj Z => JSArray.sum (values dis)) agg.

(** A string is empty or begins with a character that is not white
    space. *)
Definition startsClean (s : string) : bool :=
  match s with
  | EmptyString => true
  | String c _ => negb (isWhiteSpace c)
  end.

(** The number the doctor's outbreak box holds for a city and a disease,
    given the stored reports, an absent cell reading as zero; nothing
    when the loop leaves the table of numbers. *)
Definition reportedIn (snapshot : obj Dashboard.Stored) (c d : string)
  : option Z :=
  match Dashboard.outbreakTable snapshot with
  | Outbreak.Returns agg => Some (valueOr0 (Outbreak.count agg c d))
  | Outbreak.Leaves _ _ _ => None
  end.

(** Every component of [l] is still in [l'], at its position, changed at
    most as [R] allows. *)
Definition carried (R : Prescription.Component -> Prescription.Component -> Prop)
    (l l' : list Prescription.Component) : Prop :=
  forall i c,
    nth_error l i = Some c -> exists c', nth_error l' i = Some c' /\ R c c'.

(** The role stays and [hasDoctorSentFirst] is not lowered. *)
Definition keepsFlag (c c' : Prescription.Component) : Prop :=
  Prescription.role c' = Prescription.role c
  /\ (Prescription.hasDoctorSentFirst c = true ->
      Prescription.hasDoctorSentFirst c' = true).

(** [c'] is a later state of the mounted box [c]. *)
Definition laterState (c c' : Prescription.Component) : Prop :=
  exists us, c' = Prescription.updates c us.

(** A step together with the components as they are when it is taken. *)
Definition Moment : Type :=
  (list Prescription.Component * Prescription.Step)%type.

Section Moments.
Variable env : Prescription.Env.
Variable searchLinks : string -> string.

Definition storeStep (d : Prescription.Db) (m : Moment) : Prescription.Db :=
  Prescription.db
    (Prescription.step env searchLinks (Prescription.mkWorld d (fst m)) (snd m)).

(** The store after a sequence of steps about whose snapshots nothing is
    assumed: each step is taken with the components in whatever state
    they are in at that moment, and only its writes are followed. *)
Definition storeAfter (d : Prescription.Db) (moments : list Moment)
  : Prescription.Db :=
  fold_left storeStep moments d.


End Moments.

(** A patient and a doctor open an empty thread, and the patient types
    a first message. *)
Definition patientTyping : Prescription.World :=
  Prescription.run Prescription.sampleEnv Prescription.sampleLinks
    (Prescription.mkWorld Prescription.emptyDb [])
    [ Prescription.Mount Prescription.patient (Some "pat") None;
      Prescription.Mount Prescription.doctor (Some "doc") (Some "pat");
      Prescription.Act 0 (Prescription.ChangeInputText "hello") ].

Definition typist : Prescription.Component :=
  Eval vm_compute in
    nth 0 (Prescription.sessions patientTyping)
      (Prescription.mkComponent Prescription.patient None None [] ""
         Prescription.emptyForm false false false false).

(** The doctor of the sample session, as mounted after the
    prescription. *)
Definition doctorView : Prescription.Component :=
  Eval vm_compute in
    nth 0 (Prescription.sessions Prescription.afterPrescription)
      (Prescription.mkComponent Prescription.doctor None None [] ""
         Prescription.emptyForm false false false false).

(** Whole-number counts that the code adds without rounding: in every
    row the absolute values add up to at most 2^53, so that every sum
    the [reduce] forms, in whatever order, is an integer a double holds
    exactly, and the differences the comparators form have the sign of
    the exact difference. *)
Definition exactSums (table : Outbreak.Aggregated) : bool :=
  forallb (fun row => JSArray.sum (map Z.abs (values row)) <=? 2 ^ 53)
          (values table).

(** The table of the example in the prompt of the fetch (lines 75-76),
    with a tie added. *)
Definition sampleGlobal : Outbreak.Aggregated :=
  [ ("mumbai", [("dengue", 7)]);
    ("delhi", [("covid", 5); ("flu", 12)]);
    ("pune", [("flu", 7)]) ].

End Notions.

(* ================================================================== *)
(** * Properties *)

Local Open Scope list_scope.

(* ------------------------------------------------------------------ *)
(** ** Objects: reading after writing *)

Module JSObjectFacts.
Import JSObject.

Section Facts.
Context {V : Type}.
Implicit Types (o : obj V) (k : string) (v : V).

Lemma get_update o k v k' :
  get (update k v o) k' =
  if String.eqb k' k
  then match get o k with Some _ => Some v | None => None end
  else get o k'.
Proof.
  induction o as [|[k0 v0] o IH]; simpl.
  - now destruct (String.eqb k' k).
  - destruct (String.eqb k k0) eqn:E0; simpl.
    + apply String.eqb_eq in E0; subst k0.
      destruct (String.eqb k' k) eqn:E; [reflexivity|].
      reflexivity.
    + rewrite IH.
      destruct (String.eqb k' k) eqn:E.
      * apply String.eqb_eq in E; subst k'. now rewrite E0.
      * reflexivity.
Qed.

Lemma get_insertIndex n o k v k' :
  get o k = None ->
  get (insertIndex n k v o) k' =
  if String.eqb k' k then Some v else get o k'.
Proof.
  induction o as [|[k0 v0] o IH]; simpl; intros Hk.
  - reflexivity.
  - destruct (String.eqb k k0) eqn:E0; [discriminate|].
    destruct (arrayIndex k0) as [m|]; [destruct (n <? m)%N|]; simpl;
      try reflexivity.
    rewrite IH by assumption.
    destruct (String.eqb k' k0) eqn:E1; [|reflexivity].
    apply String.eqb_eq in E1; subst k0.
    rewrite String.eqb_sym in E0. now rewrite E0.
Qed.

Lemma get_app_new o k v k' :
  get (o ++ [(k, v)]) k' =
  match get o k' with
  | Some x => Some x
  | None => if String.eqb k' k then Some v else None
  end.
Proof.
  induction o as [|[k0 v0] o IH]; simpl.
  - reflexivity.
  - now destruct (String.eqb k' k0).
Qed.

(** [o[k] = v] then [o[k']]. *)
Lemma get_set o k v k' :
  get (set k v o) k' = if String.eqb k' k then Some v else get o k'.
Proof.
  unfold set. destruct (get o k) as [x|] eqn:Hk.
  - rewrite get_update, Hk. reflexivity.
  - destruct (arrayIndex k) as [n|].
    + now apply get_insertIndex.
    + rewrite get_app_new.
      destruct (String.eqb k' k) eqn:E.
      * apply String.eqb_eq in E; subst k'. now rewrite Hk.
      * now destruct (get o k').
Qed.

Lemma get_set_same o k v : get (set k v o) k = Some v.
Proof. now rewrite get_set, String.eqb_refl. Qed.

Lemma get_set_other o k v k' : k' <> k -> get (set k v o) k' = get o k'.
Proof.
  intros H. rewrite get_set.
  apply String.eqb_neq in H. now rewrite H.
Qed.

Lemma get_In o k v : get o k = Some v -> In (k, v) o.
Proof.
  induction o as [|[k0 v0] o IH]; simpl; [discriminate|].
  destruct (String.eqb k k0) eqn:E.
  - apply String.eqb_eq in E; subst k0. intros [= ->]. now left.
  - intros H. right. now apply IH.
Qed.

Lemma get_None_notin o k : get o k = None -> ~ In k (keys o).
Proof.
  induction o as [|[k0 v0] o IH]; simpl; [tauto|].
  destruct (String.eqb k k0) eqn:E; [discriminate|].
  apply String.eqb_neq in E. intros H [H1|H1]; [congruence|].
  now apply IH.
Qed.


(** With distinct keys, every listed property is the one [get] finds. *)
Lemma In_get o k v : NoDup (keys o) -> In (k, v) o -> get o k = Some v.
Proof.
  induction o as [|[k0 v0] o IH]; simpl; [tauto|].
  intros Hnd [H|H].
  - injection H as -> ->. now rewrite String.eqb_refl.
  - inversion Hnd as [|? ? Hnotin Hnd']; subst.
    destruct (String.eqb k k0) eqn:E.
    + apply String.eqb_eq in E; subst k0.
      exfalso. apply Hnotin. change k with (fst (k, v)). now apply in_map.
    + now apply IH.
Qed.

(** *** The keys stay distinct *)

Lemma keys_update o k v :
  keys (update k v o) = keys o.
Proof.
  unfold keys.
  induction o as [|[k0 v0] o IH]; simpl; [reflexivity|].
  destruct (String.eqb k k0) eqn:E; simpl.
  - apply String.eqb_eq in E. now subst.
  - now f_equal.
Qed.

Lemma keys_insertIndex n o k v :
  Permutation (keys (insertIndex n k v o)) (k :: keys o).
Proof.
  unfold keys.
  induction o as [|[k0 v0] o IH]; simpl; [reflexivity|].
  destruct (arrayIndex k0) as [m|]; [destruct (n <? m)%N|]; simpl;
    try reflexivity.
  rewrite IH. apply perm_swap.
Qed.

Lemma keys_set o k v :
  Permutation (keys (set k v o))
    (match get o k with Some _ => keys o | None => k :: keys o end).
Proof.
  unfold set. destruct (get o k) eqn:Hk.
  - now rewrite keys_update.
  - destruct (arrayIndex k).
    + apply keys_insertIndex.
    + unfold keys. rewrite map_app. simpl.
      symmetry. apply Permutation_cons_append.
Qed.

Lemma NoDup_keys_set o k v : NoDup (keys o) -> NoDup (keys (set k v o)).
Proof.
  intros Hnd. eapply Permutation_NoDup.
  - symmetry. apply keys_set.
  - destruct (get o k) eqn:Hk; [assumption|].
    constructor; [now apply get_None_notin | assumption].
Qed.

End Facts.

(** *** Sums of the values *)

Lemma sum_shift xs a : fold_left Z.add xs a = a + JSArray.sum xs.
Proof.
  unfold JSArray.sum. revert a.
  induction xs as [|x xs IH]; simpl; intros a; [lia|].
  rewrite (IH (a + x)), (IH x). lia.
Qed.

Lemma sum_nil : JSArray.sum [] = 0.
Proof. reflexivity. Qed.

Lemma sum_cons x xs : JSArray.sum (x :: xs) = x + JSArray.sum xs.
Proof. unfold JSArray.sum at 1. simpl. apply sum_shift. Qed.

Lemma sum_app xs ys : JSArray.sum (xs ++ ys) = JSArray.sum xs + JSArray.sum ys.
Proof.
  induction xs as [|x xs IH]; simpl; [reflexivity|].
  rewrite !sum_cons, IH. lia.
Qed.

Lemma sum_Permutation xs ys :
  Permutation xs ys -> JSArray.sum xs = JSArray.sum ys.
Proof.
  induction 1; rewrite ?sum_cons; lia.
Qed.

Lemma sum_values_update (o : obj Z) k v :
  JSArray.sum (values (update k v o)) =
  JSArray.sum (values o)
  + match get o k with Some x => v - x | None => 0 end.
Proof.
  unfold values.
  induction o as [|[k0 v0] o IH]; simpl; [rewrite sum_nil; lia|].
  destruct (String.eqb k k0); simpl.
  - rewrite !sum_cons. lia.
  - rewrite !sum_cons, IH. lia.
Qed.

Lemma sum_values_insertIndex n (o : obj Z) k v :
  JSArray.sum (values (insertIndex n k v o)) = JSArray.sum (values o) + v.
Proof.
  unfold values.
  induction o as [|[k0 v0] o IH]; simpl.
  - rewrite sum_cons, sum_nil. lia.
  - destruct (arrayIndex k0) as [m|]; [destruct (n <? m)%N|];
      simpl; rewrite !sum_cons, ?IH; lia.
Qed.

Lemma sum_values_set (o : obj Z) k v :
  JSArray.sum (values (set k v o)) =
  JSArray.sum (values o) - valueOr0 (get o k) + v.
Proof.
  unfold set. destruct (get o k) as [x|] eqn:Hk; simpl.
  - rewrite sum_values_update, Hk. lia.
  - destruct (arrayIndex k).
    + rewrite sum_values_insertIndex. lia.
    + unfold values. rewrite map_app, sum_app. simpl.
      rewrite sum_cons, sum_nil. lia.
Qed.

End JSObjectFacts.

(* ------------------------------------------------------------------ *)
(** ** Arrays: the sort rearranges and orders *)

Module JSArrayFacts.
Import JSArray.

Section AnyComparator.
Context {A : Type}.
Variable cmp : A -> A -> Z.

Lemma insertSorted_Permutation x l :
  Permutation (insertSorted cmp x l) (x :: l).
Proof.
  induction l as [|y l IH]; simpl; [reflexivity|].
  destruct (cmp x y <=? 0); [reflexivity|].
  rewrite IH. apply perm_swap.
Qed.

Lemma sort_Permutation l : Permutation (sort cmp l) l.
Proof.
  induction l as [|x l IH]; simpl; [reflexivity|].
  rewrite insertSorted_Permutation. now constructor.
Qed.

Lemma sort_In x l : In x (sort cmp l) <-> In x l.
Proof.
  split; apply Permutation_in;
    [apply sort_Permutation | symmetry; apply sort_Permutation].
Qed.

Lemma sort_nil_inv l : sort cmp l = [] -> l = [].
Proof.
  intros H. apply Permutation_nil.
  rewrite <- H. apply sort_Permutation.
Qed.
End AnyComparator.

(** The comparator [(a, b) => f(b) - f(a)] orders by [f], descending. *)
Section Descending.
Context {A : Type}.
Variable f : A -> Z.

Lemma insertSorted_descending x l :
  StronglySorted (descending f) l ->
  StronglySorted (descending f) (insertSorted (byDescending f) x l).
Proof.
  induction 1 as [|y l Hs IH Hy]; simpl.
  - constructor; constructor.
  - unfold byDescending at 1.
    destruct (f y - f x <=? 0) eqn:E.
    + apply Z.leb_le in E.
      constructor; [now constructor|].
      constructor; [unfold descending; lia|].
      eapply Forall_impl; [|exact Hy].
      unfold descending. intros b Hb. lia.
    + apply Z.leb_gt in E.
      constructor; [exact IH|].
      eapply Permutation_Forall.
      * symmetry. apply insertSorted_Permutation.
      * constructor; [unfold descending; lia | exact Hy].
Qed.

Lemma sort_descending l :
  StronglySorted (descending f) (sort (byDescending f) l).
Proof.
  induction l as [|x l IH]; simpl; [constructor|].
  now apply insertSorted_descending.
Qed.
End Descending.

End JSArrayFacts.

(* ------------------------------------------------------------------ *)
(** ** Strings: trimming and lower-casing *)

Module JSStringFacts.
Import JSString.

Lemma isWhiteSpace_lowerChar c : isWhiteSpace (lowerChar c) = isWhiteSpace c.
Proof.
  destruct c as [[] [] [] [] [] [] [] []]; reflexivity.
Qed.

Lemma trimStart_whiteSpace w : allWhiteSpace w = true -> trimStart w = EmptyString.
Proof.
  induction w as [|c w IH]; simpl; [reflexivity|].
  intros H. apply andb_prop in H as [Hc Hw]. now rewrite Hc, IH.
Qed.


Lemma trim_whiteSpace w : allWhiteSpace w = true -> trim w = EmptyString.
Proof. intros H. unfold trim. now rewrite trimStart_whiteSpace. Qed.





Lemma toLowerCase_trimStart s :
  toLowerCase (trimStart s) = trimStart (toLowerCase s).
Proof.
  induction s as [|c s IH]; simpl; [reflexivity|].
  rewrite isWhiteSpace_lowerChar.
  now destruct (isWhiteSpace c).
Qed.

Lemma toLowerCase_trimEnd s :
  toLowerCase (trimEnd s) = trimEnd (toLowerCase s).
Proof.
  induction s as [|c s IH]; simpl; [reflexivity|].
  rewrite <- IH, isWhiteSpace_lowerChar.
  destruct (trimEnd s); simpl; [now destruct (isWhiteSpace c) | reflexivity].
Qed.

Lemma toLowerCase_trim s : toLowerCase (trim s) = trim (toLowerCase s).
Proof.
  unfold trim. now rewrite toLowerCase_trimEnd, toLowerCase_trimStart.
Qed.

Lemma truthy_nonempty s : s <> EmptyString -> truthy s = true.
Proof. destruct s; [congruence | reflexivity]. Qed.

End JSStringFacts.

(* ------------------------------------------------------------------ *)
(** ** The aggregator *)

Module OutbreakFacts.
Import JSString JSObject Outbreak.
Import JSObjectFacts JSArrayFacts JSStringFacts.

Lemma orZero_valueOr0 v : orZero v = valueOr0 v.
Proof.
  destruct v as [n|]; simpl; [|reflexivity].
  destruct (n =? 0) eqn:E; [|reflexivity].
  apply Z.eqb_eq in E. now subst.
Qed.

(** *** One iteration on own properties *)

Lemma count_tally agg r c d :
  count (tally agg r) c d =
  if matches c d r
  then Some (valueOr0 (count agg c d) + 1)
  else count agg c d.
Proof.
  unfold tally, withRow, count, matches.
  rewrite (String.eqb_sym (cityOf r) c), (String.eqb_sym (diseaseOf r) d).
  destruct (get agg (cityOf r)) as [dis|] eqn:Hrow.
  - rewrite Hrow, get_set.
    destruct (String.eqb c (cityOf r)) eqn:Ec; simpl; [|reflexivity].
    apply String.eqb_eq in Ec; subst c.
    rewrite Hrow, get_set, orZero_valueOr0.
    destruct (String.eqb d (diseaseOf r)) eqn:Ed; [|reflexivity].
    apply String.eqb_eq in Ed. now subst d.
  - rewrite get_set_same, !get_set.
    destruct (String.eqb c (cityOf r)) eqn:Ec; simpl; [|reflexivity].
    apply String.eqb_eq in Ec; subst c.
    rewrite Hrow, get_set.
    now destruct (String.eqb d (diseaseOf r)).
Qed.

Lemma rowTotal_tally agg r c :
  rowTotal (tally agg r) c =
  rowTotal agg c + (if String.eqb (cityOf r) c then 1 else 0).
Proof.
  unfold tally, withRow, rowTotal.
  rewrite (String.eqb_sym (cityOf r) c).
  destruct (get agg (cityOf r)) as [dis|] eqn:Hrow.
  - rewrite Hrow, get_set.
    destruct (String.eqb c (cityOf r)) eqn:Ec; [|lia].
    apply String.eqb_eq in Ec; subst c.
    rewrite Hrow, sum_values_set, orZero_valueOr0. lia.
  - rewrite get_set_same, !get_set.
    destruct (String.eqb c (cityOf r)) eqn:Ec; [|lia].
    apply String.eqb_eq in Ec; subst c.
    rewrite Hrow, sum_values_set. reflexivity.
Qed.

Lemma distinctKeys_withRow agg c : distinctKeys agg -> distinctKeys (withRow agg c).
Proof.
  intros [Hk Hrows]. unfold withRow.
  destruct (get agg c) as [dis|] eqn:Hrow; [now split|].
  split; [now apply NoDup_keys_set|].
  intros c' dis'. rewrite get_set.
  destruct (String.eqb c' c).
  - intros [= <-]. constructor.
  - apply Hrows.
Qed.

Lemma distinctKeys_tally agg r : distinctKeys agg -> distinctKeys (tally agg r).
Proof.
  intros H. apply (distinctKeys_withRow _ (cityOf r)) in H.
  destruct H as [Hk Hrows]. unfold tally.
  destruct (get (withRow agg (cityOf r)) (cityOf r)) as [dis|] eqn:Hrow;
    [|now split].
  split; [now apply NoDup_keys_set|].
  intros c dis'. rewrite get_set.
  destruct (String.eqb c (cityOf r)) eqn:Ec.
  - intros [= <-]. apply NoDup_keys_set. eapply Hrows; eassumption.
  - apply Hrows.
Qed.

(** *** The loop on own properties *)

Lemma matching_cons c d r rs :
  matching c d (r :: rs) = (if matches c d r then 1 else 0) + matching c d rs.
Proof.
  unfold matching. simpl. destruct (matches c d r); cbn [Datatypes.length]; lia.
Qed.

Lemma matching_nonneg c d rs : 0 <= matching c d rs.
Proof. unfold matching. lia. Qed.

Lemma inCity_cons c r rs :
  inCity c (r :: rs) = (if String.eqb (cityOf r) c then 1 else 0) + inCity c rs.
Proof.
  unfold inCity. simpl. destruct (String.eqb (cityOf r) c); cbn [Datatypes.length]; lia.
Qed.

Lemma count_fold rs : forall agg c d,
  count (fold_left tally rs agg) c d =
  if matching c d rs =? 0 then count agg c d
  else Some (valueOr0 (count agg c d) + matching c d rs).
Proof.
  induction rs as [|r rs IH]; intros agg c d; simpl.
  - reflexivity.
  - rewrite IH, matching_cons, count_tally.
    pose proof (matching_nonneg c d rs) as Hn.
    destruct (matches c d r); simpl valueOr0.
    + destruct (matching c d rs =? 0) eqn:E.
      * apply Z.eqb_eq in E. rewrite E. reflexivity.
      * apply Z.eqb_neq in E.
        destruct (1 + matching c d rs =? 0) eqn:E'; [apply Z.eqb_eq in E'; lia|].
        f_equal. lia.
    + reflexivity.
Qed.

Lemma rowTotal_fold rs : forall agg c,
  rowTotal (fold_left tally rs agg) c = rowTotal agg c + inCity c rs.
Proof.
  induction rs as [|r rs IH]; intros agg c; simpl.
  - unfold inCity. simpl. lia.
  - rewrite IH, rowTotal_tally, inCity_cons. lia.
Qed.

Lemma distinctKeys_fold rs : forall agg,
  distinctKeys agg -> distinctKeys (fold_left tally rs agg).
Proof.
  induction rs as [|r rs IH]; intros agg H; simpl; [exact H|].
  now apply IH, distinctKeys_tally.
Qed.

Lemma distinctKeys_nil : distinctKeys [].
Proof. split; [constructor|]. intros c dis; discriminate. Qed.

Lemma distinctKeys_tallied rs : distinctKeys (fold_left tally rs []).
Proof. apply distinctKeys_fold, distinctKeys_nil. Qed.

(** *** Inherited reads *)

Lemma inherited_own {V : Type} (o : obj V) k v :
  get o k = Some v -> inherited o k = None.
Proof. intros H. unfold inherited. now rewrite H. Qed.

Lemma inherited_name {V : Type} (o : obj V) k :
  inheritedName k = false -> inherited o k = None.
Proof.
  unfold inheritedName, inherited. intros H.
  apply orb_false_iff in H as [-> ->]. now destruct (get o k).
Qed.

Lemma inherited_Some {V : Type} (o : obj V) k t :
  inherited o k = Some t -> get o k = None /\ inheritedName k = true.
Proof.
  unfold inherited, inheritedName.
  destruct (get o k); [discriminate|].
  destruct (String.eqb k constructorName); [now split|].
  destruct (String.eqb k protoName); [now split | discriminate].
Qed.

(** A report with plain keys is tallied. *)
Lemma visit_plain agg r : plain r = true -> visit agg r = Continues (tally agg r).
Proof.
  unfold plain. intros H. apply andb_true_iff in H as [Hc Hd].
  apply negb_true_iff in Hc, Hd.
  unfold visit. now rewrite !inherited_name.
Qed.

Lemma aggregate_plain rs : forall agg,
  forallb plain rs = true -> aggregate agg rs = Returns (fold_left tally rs agg).
Proof.
  induction rs as [|r rs IH]; intros agg H; [reflexivity|].
  cbn [forallb] in H. apply andb_true_iff in H as [Hr Hrs].
  cbn [aggregate fold_left]. rewrite (visit_plain _ _ Hr). now apply IH.
Qed.

Lemma groupLocal_plain rs :
  forallb plain rs = true -> groupLocal rs = Returns (fold_left tally rs []).
Proof. apply aggregate_plain. Qed.

Lemma visit_numeric agg r :
  numeric r = true -> exists agg', visit agg r = Continues agg'.
Proof.
  unfold numeric. intros H. apply andb_true_iff in H as [Hc Hd].
  apply negb_true_iff in Hc, Hd.
  unfold visit. rewrite (inherited_name agg _ Hc).
  set (dis := match get agg (cityOf r) with Some dis => dis | None => [] end).
  unfold inherited. destruct (get dis (diseaseOf r)); [now eexists|].
  rewrite Hd. destruct (String.eqb (diseaseOf r) protoName); now eexists.
Qed.

Lemma distinctKeys_visit agg r agg' :
  visit agg r = Continues agg' -> distinctKeys agg -> distinctKeys agg'.
Proof.
  unfold visit. intros H Hd.
  destruct (inherited agg (cityOf r)); [discriminate|].
  destruct (inherited _ (diseaseOf r)) as [[|]|]; try discriminate;
    injection H as <-.
  - now apply distinctKeys_withRow.
  - now apply distinctKeys_tally.
Qed.

Lemma distinctKeys_aggregate rs : forall agg agg',
  aggregate agg rs = Returns agg' -> distinctKeys agg -> distinctKeys agg'.
Proof.
  induction rs as [|r rs IH]; intros agg agg' H Hd; cbn [aggregate] in H.
  - now injection H as <-.
  - destruct (visit agg r) as [agg1|how] eqn:Hv; [|discriminate].
    apply (IH _ _ H). eapply distinctKeys_visit; eassumption.
Qed.

Lemma distinctKeys_groupLocal rs agg :
  groupLocal rs = Returns agg -> distinctKeys agg.
Proof. intros H. eapply distinctKeys_aggregate; [exact H | apply distinctKeys_nil]. Qed.

Lemma aggregate_numeric rs : forall agg,
  forallb numeric rs = true -> exists agg', aggregate agg rs = Returns agg'.
Proof.
  induction rs as [|r rs IH]; intros agg H; [now eexists|].
  cbn [forallb] in H. apply andb_true_iff in H as [Hr Hrs].
  destruct (visit_numeric agg r Hr) as [agg1 Hv].
  cbn [aggregate]. rewrite Hv. now apply IH.
Qed.

(** *** The sorted projection *)

Lemma sortedEntries_eq agg :
  sortedEntries agg =
  JSArray.sort (fun a b => total b - total a) (map entryOf agg).
Proof.
  unfold sortedEntries, entries. f_equal.
  apply map_ext. now intros [c dis].
Qed.

Lemma sortedEntries_Permutation agg :
  Permutation (sortedEntries agg) (map entryOf agg).
Proof. rewrite sortedEntries_eq. apply sort_Permutation. Qed.

Lemma In_sortedEntries agg e :
  In e (sortedEntries agg) ->
  exists dis, In (city e, dis) agg /\ e = entryOf (city e, dis).
Proof.
  intros H.
  apply (Permutation_in _ (sortedEntries_Permutation agg)) in H.
  apply in_map_iff in H as [[c dis] [<- Hin]].
  exists dis. now split.
Qed.

Lemma entry_row agg e :
  distinctKeys agg ->
  In e (localEntries agg) ->
  exists dis, get agg (city e) = Some dis /\ e = entryOf (city e, dis).
Proof.
  intros Hd H. apply In_sortedEntries in H as [dis [Hin He]].
  exists dis. split; [|exact He].
  apply In_get; [|exact Hin]. apply Hd.
Qed.

(** The projection of any table: ordered rows, ordered entries, totals
    that are the sums of the rows. *)
Lemma localEntries_ordered agg :
  distinctKeys agg ->
  StronglySorted (fun a b => total b <= total a) (localEntries agg)
  /\ Forall
       (fun e =>
          StronglySorted (fun a b => snd b <= snd a) (diseases e)
          /\ total e = JSArray.sum (map snd (diseases e))
          /\ exists dis,
               get agg (city e) = Some dis
               /\ Permutation (diseases e) (entries dis))
       (localEntries agg)
  /\ Permutation (map city (localEntries agg)) (keys agg).
Proof.
  intros Hd. split; [|split].
  - unfold localEntries. rewrite sortedEntries_eq.
    apply (sort_descending total).
  - apply Forall_forall. intros e He.
    destruct (entry_row _ _ Hd He) as [dis [Hrow Heq]].
    split; [|split].
    + rewrite Heq. simpl. apply (sort_descending (@snd string Z)).
    + rewrite Heq. simpl. apply sum_Permutation.
      unfold values. apply Permutation_map. symmetry. apply sort_Permutation.
    + exists dis. split; [exact Hrow|].
      rewrite Heq. simpl. apply sort_Permutation.
  - unfold localEntries.
    rewrite (Permutation_map city (sortedEntries_Permutation _)).
    rewrite map_map. unfold keys. simpl. reflexivity.
Qed.

(** What the table of plain reports holds. *)
Lemma tallied_counts rs :
  (forall c d,
      count (fold_left tally rs []) c d =
      if matching c d rs =? 0 then None else Some (matching c d rs))
  /\ (forall e,
        In e (localEntries (fold_left tally rs [])) ->
        exists dis,
          get (fold_left tally rs []) (city e) = Some dis
          /\ NoDup (keys dis)
          /\ total e = JSArray.sum (values dis)
          /\ total e = JSArray.sum (map snd (diseases e))
          /\ total e = inCity (city e) rs).
Proof.
  split.
  - intros c d. rewrite count_fold. simpl.
    destruct (matching c d rs =? 0); [reflexivity|].
    f_equal.
  - intros e He.
    destruct (entry_row _ _ (distinctKeys_tallied rs) He) as [dis [Hrow Heq]].
    exists dis. split; [exact Hrow|].
    split; [eapply (proj2 (distinctKeys_tallied rs)); exact Hrow|].
    assert (Ht : total e = JSArray.sum (values dis)) by (rewrite Heq; reflexivity).
    split; [exact Ht|]. split.
    + rewrite Ht, Heq. simpl. apply sum_Permutation.
      unfold values. apply Permutation_map. symmetry. apply sort_Permutation.
    + rewrite Ht.
      pose proof (rowTotal_fold rs [] (city e)) as Hsum.
      unfold rowTotal in Hsum. rewrite Hrow in Hsum. simpl in Hsum.
      exact Hsum.
Qed.

(** *** The table counts the reports, inherited keys apart *)

(** C1: where the code departs from it.  For reports none of whose
    normalised keys is [constructor] or [__proto__], the table holds for
    each pair of a normalised city and a normalised disease exactly the
    number of reports with that pair (an absent entry when there is
    none), and every entry of the sorted projection carries as its total
    the sum of the counts of its city's row, which is the number of
    reports of the city.  A report whose type reads [__proto__] is
    counted nowhere: its city gets a row, the row stays empty and the
    total is 0.  A report whose location reads [constructor] or
    [__proto__] gets no row at all: the write lands on the function
    [Object] or on [Object.prototype]. *)
Theorem reports_with_inherited_keys_are_not_counted :
  (forall reports,
      forallb plain reports = true ->
      exists agg,
        groupLocal reports = Returns agg
        /\ (forall c d,
              count agg c d =
              if matching c d reports =? 0 then None
              else Some (matching c d reports))
        /\ (forall e,
              In e (localEntries agg) ->
              exists dis,
                get agg (city e) = Some dis
                /\ NoDup (keys dis)
                /\ total e = JSArray.sum (values dis)
                /\ total e = JSArray.sum (map snd (diseases e))
                /\ total e = inCity (city e) reports))
  /\ (let r := mkReport "r1" (Some "__proto__") (JStr "Delhi") None in
      groupLocal [r] = Returns [("delhi", [])]
      /\ matching "delhi" "__proto__" [r] = 1
      /\ count [("delhi", [])] "delhi" "__proto__" = None
      /\ localEntries [("delhi", [])] = [mkEntry "delhi" [] 0])
  /\ (forall agg r target,
        inherited agg (cityOf r) = Some target ->
        visit agg r = Departs (WritesTo target))
  /\ (let r1 := mkReport "r1" (Some "Flu") (JStr "Constructor") None in
      let r2 := mkReport "r2" (Some "Flu") (JStr "Delhi") None in
      groupLocal [r1; r2] = Leaves [] r1 (WritesTo TheObjectFunction)
      /\ groupLocal [r2; r1]
         = Leaves [("delhi", [("flu", 1)])] r1 (WritesTo TheObjectFunction)).
Proof.
  split; [|split; [|split]].
  - intros reports Hp. exists (fold_left tally reports []).
    split; [now apply groupLocal_plain|]. apply tallied_counts.
  - repeat split.
  - intros agg r target H. unfold visit. now rewrite H.
  - split; reflexivity.
Qed.

Lemma reports_with_inherited_keys_are_not_counted_witness :
  exists agg,
    groupLocal scenario = Returns agg
    /\ (forall c d,
          count agg c d =
          if matching c d scenario =? 0 then None
          else Some (matching c d scenario))
    /\ (forall e,
          In e (localEntries agg) ->
          exists dis,
            get agg (city e) = Some dis
            /\ NoDup (keys dis)
            /\ total e = JSArray.sum (values dis)
            /\ total e = JSArray.sum (map snd (diseases e))
            /\ total e = inCity (city e) scenario).
Proof.
  apply (proj1 reports_with_inherited_keys_are_not_counted scenario).
  vm_compute. reflexivity.
Defined.

(** *** The projection is sorted, texts apart *)

(** C5: where the code departs from it.  Whenever [groupLocal] returns
    a table of numbers, each entry of the sorted projection lists its
    city's row ordered by count, descending, with the total equal to the
    sum of the listed counts; the entries are ordered by total,
    descending, and their cities are those of the table.  It does return
    one for reports none of whose locations reads [constructor] or
    [__proto__] and none of whose types reads [constructor]; with no
    report the table and the projection are empty.  For a report whose
    type reads [constructor] the count stored is a text, not a
    number. *)
Theorem localEntries_sorted_by_count_and_total :
  (forall reports agg,
      groupLocal reports = Returns agg ->
      StronglySorted (fun a b => total b <= total a) (localEntries agg)
      /\ Forall
           (fun e =>
              StronglySorted (fun a b => snd b <= snd a) (diseases e)
              /\ total e = JSArray.sum (map snd (diseases e))
              /\ exists dis,
                   get agg (city e) = Some dis
                   /\ Permutation (diseases e) (entries dis))
           (localEntries agg)
      /\ Permutation (map city (localEntries agg)) (keys agg))
  /\ (forall reports,
        forallb numeric reports = true ->
        exists agg, groupLocal reports = Returns agg)
  /\ groupLocal [] = Returns []
  /\ localEntries [] = []
  /\ (forall agg r,
        inherited agg (cityOf r) = None ->
        inherited
          (match get agg (cityOf r) with Some dis => dis | None => [] end)
          (diseaseOf r)
        = Some TheObjectFunction ->
        visit agg r = Departs StoresText)
  /\ (let r := mkReport "r1" (Some "constructor") (JStr "Delhi") None in
      groupLocal [r] = Leaves [] r StoresText).
Proof.
  split; [|split; [|split; [|split; [|split]]]].
  - intros reports agg H. apply localEntries_ordered.
    eapply distinctKeys_groupLocal; eassumption.
  - intros reports. apply aggregate_numeric.
  - reflexivity.
  - reflexivity.
  - intros agg r Hc Hd. unfold visit. now rewrite Hc, Hd.
  - reflexivity.
Qed.

Lemma localEntries_sorted_by_count_and_total_witness :
  StronglySorted (fun a b => total b <= total a)
    (localEntries [("delhi", [("flu", 2)]); ("mumbai", [("dengue", 1)])])
  /\ Forall
       (fun e =>
          StronglySorted (fun a b => snd b <= snd a) (diseases e)
          /\ total e = JSArray.sum (map snd (diseases e))
          /\ exists dis,
               get [("delhi", [("flu", 2)]); ("mumbai", [("dengue", 1)])]
                   (city e)
               = Some dis
               /\ Permutation (diseases e) (entries dis))
       (localEntries [("delhi", [("flu", 2)]); ("mumbai", [("dengue", 1)])])
  /\ Permutation
       (map city
          (localEntries [("delhi", [("flu", 2)]); ("mumbai", [("dengue", 1)])]))
       (keys [("delhi", [("flu", 2)]); ("mumbai", [("dengue", 1)])]).
Proof.
  apply (proj1 localEntries_sorted_by_count_and_total scenario).
  vm_compute. reflexivity.
Defined.

(** *** Normalisation of the keys *)




Lemma orDefault_nonempty s d : s <> EmptyString -> orDefault (JStr s) d = s.
Proof. intros H. simpl. now rewrite truthy_nonempty. Qed.

Lemma normalize_whiteSpace w : allWhiteSpace w = true -> normalize w = EmptyString.
Proof. intros H. unfold normalize. now rewrite trim_whiteSpace. Qed.

Lemma keys_set_new {V : Type} (o : obj V) k v :
  get o k = None -> arrayIndex k = None -> keys (set k v o) = keys o ++ [k].
Proof.
  intros Hg Ha. unfold set. rewrite Hg, Ha.
  unfold keys. now rewrite map_app.
Qed.

Lemma count_withRow agg city c d : count (withRow agg city) c d = count agg c d.
Proof.
  unfold withRow, count.
  destruct (get agg city) as [dis|] eqn:Hrow; [reflexivity|].
  rewrite get_set.
  destruct (String.eqb c city) eqn:E; [|reflexivity].
  apply String.eqb_eq in E; subst c. now rewrite Hrow.
Qed.

Lemma keys_tally agg r : keys (tally agg r) = keys (withRow agg (cityOf r)).
Proof.
  unfold tally.
  destruct (get (withRow agg (cityOf r)) (cityOf r)) as [dis|] eqn:Hrow;
    [|reflexivity].
  unfold set. rewrite Hrow. apply keys_update.
Qed.

(** An iteration that goes on has tallied the report, or has met the
    disease [__proto__] and made the row only. *)
Lemma visit_Continues agg r agg' :
  visit agg r = Continues agg' ->
  agg' = tally agg r
  \/ (agg' = withRow agg (cityOf r) /\ diseaseOf r = protoName).
Proof.
  unfold visit.
  destruct (inherited agg (cityOf r)); [discriminate|].
  destruct (inherited _ (diseaseOf r)) as [[|]|] eqn:Hd; try discriminate;
    intros [= <-]; [right | now left].
  split; [reflexivity|].
  unfold inherited in Hd.
  destruct (get _ (diseaseOf r)) in Hd; [discriminate|].
  destruct (String.eqb (diseaseOf r) constructorName); [discriminate|].
  destruct (String.eqb (diseaseOf r) protoName) eqn:E; [|discriminate].
  now apply String.eqb_eq.
Qed.

Lemma keys_visit agg r agg' :
  visit agg r = Continues agg' -> keys agg' = keys (withRow agg (cityOf r)).
Proof.
  intros H. destruct (visit_Continues _ _ _ H) as [-> | [-> _]];
    [apply keys_tally | reflexivity].
Qed.

Lemma count_visit agg r agg' c d :
  visit agg r = Continues agg' ->
  inheritedName d = false ->
  count agg' c d =
  if matches c d r
  then Some (valueOr0 (count agg c d) + 1)
  else count agg c d.
Proof.
  intros H Hd. destruct (visit_Continues _ _ _ H) as [-> | [-> Hp]].
  - apply count_tally.
  - rewrite count_withRow. unfold matches. rewrite Hp.
    destruct (String.eqb protoName d) eqn:E; [|now rewrite andb_false_r].
    apply String.eqb_eq in E; subst d. discriminate Hd.
Qed.





(** C10.  The default [Unknown] replaces a location (or type) that is
    undefined, null or the empty string, and nothing else: a non-empty
    field is normalised as it is, so that a non-empty string of white space
    gives the empty key.  A report with a blank location and one with a
    missing location are therefore counted under two different keys: the
    loop makes the row of the empty key for the first and the row
    [unknown] for the second, and raises in each the cell of the
    report's disease to 1 (a disease that reads [__proto__] has no cell,
    and one that reads [constructor] gets a text; see C1 and C5). *)
Theorem unknown_replaces_only_falsy_fields :
  (forall r,
      location r = JUndefined \/ location r = JNull
      \/ location r = JStr EmptyString ->
      cityOf r = "unknown"%string)
  /\ (forall r, type r = None \/ type r = Some EmptyString ->
                diseaseOf r = "unknown"%string)
  /\ (forall r s, location r = JStr s -> s <> EmptyString ->
                  cityOf r = normalize s)
  /\ (forall r s, type r = Some s -> s <> EmptyString ->
                  diseaseOf r = normalize s)
  /\ (forall r w, location r = JStr w -> w <> EmptyString ->
                  allWhiteSpace w = true -> cityOf r = EmptyString)
  /\ (forall r w, type r = Some w -> w <> EmptyString ->
                  allWhiteSpace w = true -> diseaseOf r = EmptyString)
  /\ (forall r1 r2 w,
        location r1 = JStr w -> w <> EmptyString -> allWhiteSpace w = true ->
        location r2 = JUndefined \/ location r2 = JNull
        \/ location r2 = JStr EmptyString ->
        cityOf r1 <> cityOf r2)
  /\ (forall r1 r2 w,
        location r1 = JStr w -> w <> EmptyString -> allWhiteSpace w = true ->
        location r2 = JUndefined \/ location r2 = JNull
        \/ location r2 = JStr EmptyString ->
        diseaseOf r1 <> constructorName -> diseaseOf r2 <> constructorName ->
        exists agg,
          groupLocal [r1; r2] = Returns agg
          /\ keys agg = [EmptyString; "unknown"%string]
          /\ (inheritedName (diseaseOf r1) = false ->
              count agg EmptyString (diseaseOf r1) = Some 1
              /\ count agg "unknown" (diseaseOf r1)
                 = if String.eqb (diseaseOf r1) (diseaseOf r2)
                   then Some 1 else None)
          /\ (inheritedName (diseaseOf r2) = false ->
              count agg "unknown" (diseaseOf r2) = Some 1
              /\ count agg EmptyString (diseaseOf r2)
                 = if String.eqb (diseaseOf r2) (diseaseOf r1)
                   then Some 1 else None)).
Proof.
  assert (Hmissing : forall r,
             location r = JUndefined \/ location r = JNull
             \/ location r = JStr EmptyString ->
             cityOf r = "unknown"%string).
  { intros r [H|[H|H]]; unfold cityOf; rewrite H; reflexivity. }
  assert (Hblank : forall r w, location r = JStr w -> w <> EmptyString ->
                               allWhiteSpace w = true -> cityOf r = EmptyString).
  { intros r w H N W. unfold cityOf.
    rewrite H, orDefault_nonempty by assumption.
    now apply normalize_whiteSpace. }
  split; [exact Hmissing|].
  split; [intros r [H|H]; unfold diseaseOf; rewrite H; reflexivity|].
  split; [intros r s H N; unfold cityOf; now rewrite H, orDefault_nonempty|].
  split.
  { intros r s H N. unfold diseaseOf. rewrite H. simpl ofOptional.
    now rewrite orDefault_nonempty. }
  split; [exact Hblank|].
  split.
  { intros r w H N W. unfold diseaseOf. rewrite H. simpl ofOptional.
    rewrite orDefault_nonempty by assumption.
    now apply normalize_whiteSpace. }
  split.
  { intros r1 r2 w H N W H2.
    rewrite (Hblank r1 w H N W), (Hmissing r2 H2). discriminate. }
  intros r1 r2 w H N W H2 Hd1 Hd2.
  pose proof (Hblank r1 w H N W) as Hc1.
  pose proof (Hmissing r2 H2) as Hc2.
  assert (Hn1 : numeric r1 = true).
  { unfold numeric. rewrite Hc1. apply String.eqb_neq in Hd1. now rewrite Hd1. }
  assert (Hn2 : numeric r2 = true).
  { unfold numeric. rewrite Hc2. apply String.eqb_neq in Hd2. now rewrite Hd2. }
  destruct (visit_numeric [] r1 Hn1) as [agg1 Hv1].
  destruct (visit_numeric agg1 r2 Hn2) as [agg2 Hv2].
  exists agg2. unfold groupLocal. cbn [aggregate]. rewrite Hv1, Hv2.
  split; [reflexivity|].
  assert (Hk1 : keys agg1 = [EmptyString]).
  { rewrite (keys_visit _ _ _ Hv1), Hc1. reflexivity. }
  assert (Hk2 : keys agg2 = [EmptyString; "unknown"%string]).
  { rewrite (keys_visit _ _ _ Hv2), Hc2. unfold withRow.
    destruct (get agg1 "unknown") as [dis|] eqn:Hg.
    - apply get_In in Hg. apply (in_map fst) in Hg. fold (keys agg1) in Hg.
      rewrite Hk1 in Hg. destruct Hg as [Hg|[]]. discriminate Hg.
    - rewrite (keys_set_new _ _ _ Hg) by reflexivity. now rewrite Hk1. }
  split; [exact Hk2|].
  split.
  - intros Hp. 
    rewrite !(count_visit _ _ _ _ _ Hv2 Hp), !(count_visit _ _ _ _ _ Hv1 Hp).
    unfold matches. rewrite Hc1, Hc2. cbn [String.eqb Ascii.eqb andb].
    rewrite String.eqb_refl. cbn [count get valueOr0].
    split; [reflexivity|].
    rewrite (String.eqb_sym (diseaseOf r2)).
    now destruct (String.eqb (diseaseOf r1) (diseaseOf r2)).
  - intros Hp.
    rewrite !(count_visit _ _ _ _ _ Hv2 Hp), !(count_visit _ _ _ _ _ Hv1 Hp).
    unfold matches. rewrite Hc1, Hc2. cbn [String.eqb Ascii.eqb andb].
    rewrite String.eqb_refl. cbn [count get valueOr0].
    split; [reflexivity|].
    rewrite (String.eqb_sym (diseaseOf r1)).
    now destruct (String.eqb (diseaseOf r2) (diseaseOf r1)).
Qed.

Lemma unknown_replaces_only_falsy_fields_witness :
  exists agg,
    groupLocal [mkReport "r1" (Some "Flu") (JStr " ") None;
                mkReport "r2" (Some "Flu") JNull None]
    = Returns agg
    /\ keys agg = [EmptyString; "unknown"%string]
    /\ (inheritedName "flu" = false ->
        count agg EmptyString "flu" = Some 1
        /\ count agg "unknown" "flu" = Some 1)
    /\ (inheritedName "flu" = false ->
        count agg "unknown" "flu" = Some 1
        /\ count agg EmptyString "flu" = Some 1).
Proof.
  apply (proj2 (proj2 (proj2 (proj2 (proj2 (proj2 (proj2
           unknown_replaces_only_falsy_fields))))))
           (mkReport "r1" (Some "Flu") (JStr " ") None)
           (mkReport "r2" (Some "Flu") JNull None)
           " "%string).
  - reflexivity.
  - discriminate.
  - reflexivity.
  - right. left. reflexivity.
  - discriminate.
  - discriminate.
Defined.

End OutbreakFacts.

(* ------------------------------------------------------------------ *)
(** ** The secondary source: parsing and retrying *)

Module GlobalFetchFacts.
Import JSString GlobalFetch.

(** *** What the regular expression extracts *)

Lemma fromFirstOpen_spec s t :
  fromFirstOpen s = Some t ->
  exists pre t',
    s = (pre ++ t)%string /\ occurs openBrace pre = false
    /\ t = String openBrace t'.
Proof.
  induction s as [|c s IH]; simpl; [discriminate|].
  destruct (Ascii.eqb c openBrace) eqn:E.
  - intros [= <-]. apply Ascii.eqb_eq in E; subst c.
    exists EmptyString, s. repeat split.
  - intros H. destruct (IH H) as (pre & t' & -> & Hpre & ->).
    exists (String c pre), t'. simpl. rewrite E, Hpre. repeat split.
Qed.

Lemma upToLastClose_None s :
  upToLastClose s = None -> occurs closeBrace s = false.
Proof.
  induction s as [|c s IH]; simpl; [reflexivity|].
  destruct (upToLastClose s); [discriminate|].
  destruct (Ascii.eqb c closeBrace); [discriminate|].
  intros _. now apply IH.
Qed.

Lemma upToLastClose_spec s b :
  upToLastClose s = Some b ->
  exists b' post,
    s = (b ++ post)%string /\ occurs closeBrace post = false
    /\ b = (b' ++ String closeBrace EmptyString)%string.
Proof.
  revert b. induction s as [|c s IH]; simpl; intros b; [discriminate|].
  destruct (upToLastClose s) as [t|] eqn:Ht.
  - intros [= <-]. destruct (IH t eq_refl) as (b' & post & -> & Hpost & ->).
    exists (String c b'), post. repeat split. exact Hpost.
  - destruct (Ascii.eqb c closeBrace) eqn:E; [|discriminate].
    intros [= <-]. apply Ascii.eqb_eq in E; subst c.
    exists EmptyString, s. repeat split. now apply upToLastClose_None.
Qed.

(** The match runs from the first opening brace of the text to its last
    closing brace. *)
Lemma matchBraces_spec text block :
  matchBraces text = Some block ->
  exists pre inner post,
    text = (pre ++ block ++ post)%string
    /\ block = (String openBrace inner ++ String closeBrace EmptyString)%string
    /\ occurs openBrace pre = false
    /\ occurs closeBrace post = false.
Proof.
  unfold matchBraces.
  destruct (fromFirstOpen text) as [t|] eqn:Ht; [|discriminate].
  intros Hb.
  destruct (fromFirstOpen_spec _ _ Ht) as (pre & t' & -> & Hpre & ->).
  destruct (upToLastClose_spec _ _ Hb) as (b' & post & Heq & Hpost & ->).
  destruct b' as [|c b']; simpl in Heq.
  - discriminate Heq.
  - injection Heq as <- Heq.
    exists pre, b', post. subst t'. repeat split; assumption.
Qed.






Section Parsing.
Variable JSON_parse : string -> option json.





Lemma extractedParse_secondAttempt text :
  match secondAttempt JSON_parse text with
  | Some v => snd (extractedParse JSON_parse text) = inl v
  | None => exists err, snd (extractedParse JSON_parse text) = inr err
  end.
Proof.
  unfold secondAttempt, extractedParse.
  destruct (matchBraces text) as [block|]; [|now eexists].
  cbn [snd]. destruct (JSON_parse block); [reflexivity | now eexists].
Qed.

Lemma parseTextResponse_text text :
  text <> EmptyString ->
  parseTextResponse JSON_parse (Some text) =
  match directParse JSON_parse text with
  | Some v => inl v
  | None => snd (extractedParse JSON_parse text)
  end.
Proof.
  intros H. unfold parseTextResponse, parseTraced.
  rewrite JSStringFacts.truthy_nonempty by assumption.
  destruct (directParse JSON_parse text); [reflexivity|].
  now destruct (extractedParse JSON_parse text).
Qed.



(** One call.  A fetch fails when the request is rejected, when the
    status is not OK, when the body cannot be read, or when the text is
    missing or both parse attempts fail.  On a failure seen by a callback
    that closed over a retry count below the ceiling of 3, one retry is
    scheduled after 2000 ms times that count plus one, the count in the
    state is incremented and a retrying message is shown; a callback that
    closed over 3 or more schedules nothing and shows the final message. *)
Lemma failed_call_branches_on_captured_count :
  maxRetries = 3
  /\ (forall err, tryFetch JSON_parse (FetchRejects err) = inr err)
  /\ (forall status text,
        directParse JSON_parse text = None ->
        secondAttempt JSON_parse text = None ->
        exists err,
          tryFetch JSON_parse (Responds true status (BodyData (Some text)))
          = inr err)
  /\ (forall env captured net st err,
        configured (API_KEY env) = true ->
        configured (API_URL env) = true ->
        tryFetch JSON_parse net = inr err ->
        (captured < 3 ->
         fetchGlobalOutbreaks JSON_parse env captured net st =
         (mkState (globalReports st) false
            (Some ("Retrying... Failed to fetch global outbreaks: "
                   ++ errorMessage err)%string)
            (retryCount st + 1),
          [2000 * (captured + 1)]))
        /\ (3 <= captured ->
            fetchGlobalOutbreaks JSON_parse env captured net st =
            (mkState (globalReports st) false
               (Some ("Failed to fetch global outbreaks after 3 retries: "
                      ++ errorMessage err)%string)
               (retryCount st),
             []))).
Proof.
  split; [reflexivity|]. split; [reflexivity|]. split.
  - intros status text Hd Hs. unfold tryFetch. cbn [negb].
    destruct text as [|c text]; [now eexists|].
    rewrite parseTextResponse_text by discriminate. rewrite Hd.
    pose proof (extractedParse_secondAttempt (String c text)) as Hx.
    now rewrite Hs in Hx.
  - intros env captured net st err Hkey Hurl Hfail.
    unfold fetchGlobalOutbreaks. rewrite Hkey, Hurl, Hfail. simpl.
    unfold maxRetries. split; intros H.
    + apply Z.ltb_lt in H. now rewrite H.
    + apply Z.ltb_ge in H. now rewrite H.
Qed.

End Parsing.


Example failed_call_at_count_one :
  fetchGlobalOutbreaks sampleParse sampleEnv 1
    (FetchRejects (ErrorWith "Failed to fetch"))
    (mkState (JsonObject []) false None 1)
  = (mkState (JsonObject []) false
       (Some "Retrying... Failed to fetch global outbreaks: Failed to fetch"%string)
       2,
     [4000]).
Proof.
  apply (proj1 (proj2 (proj2 (proj2
           (failed_call_branches_on_captured_count sampleParse)))
           sampleEnv 1 (FetchRejects (ErrorWith "Failed to fetch"))
           (mkState (JsonObject []) false None 1)
           (ErrorWith "Failed to fetch")
           eq_refl eq_refl eq_refl)).
  lia.
Qed.

(** *** The retry timer *)

Section Retries.
Variable JSON_parse : string -> option json.

Lemma timers_independent_of_state env captured net st st' :
  snd (fetchGlobalOutbreaks JSON_parse env captured net st)
  = snd (fetchGlobalOutbreaks JSON_parse env captured net st').
Proof.
  unfold fetchGlobalOutbreaks.
  destruct (negb (configured (API_KEY env)) || negb (configured (API_URL env)));
    [reflexivity|].
  destruct (tryFetch JSON_parse net); [reflexivity|].
  now destruct (captured <? maxRetries).
Qed.

Lemma rejected_call env captured err st :
  configured (API_KEY env) = true -> configured (API_URL env) = true ->
  captured < 3 ->
  fetchGlobalOutbreaks JSON_parse env captured (FetchRejects err) st
  = (mkState (globalReports st) false
       (Some ("Retrying... Failed to fetch global outbreaks: "
              ++ errorMessage err)%string)
       (retryCount st + 1),
     [2000 * (captured + 1)]).
Proof.
  intros Hkey Hurl Hlt.
  apply (proj1 (proj2 (proj2 (proj2
           (failed_call_branches_on_captured_count JSON_parse)))
           env captured (FetchRejects err) st err Hkey Hurl eq_refl) Hlt).
Qed.

End Retries.

(** C7: where the code departs from it.  The callback created with
    [retryCount = 0] is the one its own timer calls again, so it never
    sees the count reach the ceiling of 3.  Whatever the state has
    become in the meantime, a rejected request makes this callback raise
    the count by one, show the retrying message and schedule one more
    retry, after 2000 ms as before; so it does in the state the
    component is in once the final message has been shown, with the
    count at 3: the count becomes 4, the retrying message replaces the
    final one, and another retry is scheduled. *)
Theorem stale_callback_retries_past_the_ceiling :
  maxRetries = 3
  /\ (forall st,
        fetchGlobalOutbreaks sampleParse sampleEnv 0
          (FetchRejects (ErrorWith "Failed to fetch")) st
        = (mkState (globalReports st) false
             (Some "Retrying... Failed to fetch global outbreaks: Failed to fetch"%string)
             (retryCount st + 1),
           [2000]))
  /\ fetchGlobalOutbreaks sampleParse sampleEnv 0
       (FetchRejects (ErrorWith "Failed to fetch"))
       (mkState (JsonObject []) false
          (Some "Failed to fetch global outbreaks after 3 retries: Failed to fetch"%string)
          3)
     = (mkState (JsonObject []) false
          (Some "Retrying... Failed to fetch global outbreaks: Failed to fetch"%string)
          4,
        [2000])
  /\ fetchGlobalOutbreaks sampleParse sampleEnv 3
       (FetchRejects (ErrorWith "Failed to fetch"))
       (mkState (JsonObject []) false
          (Some "Retrying... Failed to fetch global outbreaks: Failed to fetch"%string)
          3)
     = (mkState (JsonObject []) false
          (Some "Failed to fetch global outbreaks after 3 retries: Failed to fetch"%string)
          3,
        []).
Proof.
  split; [reflexivity|]. split; [|split; reflexivity].
  intros st. now rewrite rejected_call.
Qed.

End GlobalFetchFacts.

(* ------------------------------------------------------------------ *)
(** ** The prescription thread: what the handlers write *)

Module PrescriptionFacts.
Import JSString JSObject Prescription Notions.

Lemma status_setThread t th d t' :
  payment_status (setThread t th d t') =
  if String.eqb t' t then payment_status th else payment_status (d t').
Proof. unfold setThread. now destruct (String.eqb t' t). Qed.

Lemma status_writeMessages t f w t' :
  payment_status (db (writeMessages t f w) t') = payment_status (db w t').
Proof.
  unfold writeMessages, deliverMessages. simpl.
  rewrite status_setThread. simpl.
  destruct (String.eqb t' t) eqn:E; [|reflexivity].
  apply String.eqb_eq in E. now subst.
Qed.

Lemma status_setPayment t ps w t' :
  payment_status (db (setPayment t ps w) t') =
  if String.eqb t' t then Some ps else payment_status (db w t').
Proof.
  unfold setPayment, deliverPayment. simpl. now rewrite status_setThread.
Qed.

Lemma db_local i f w : db (local i f w) = db w.
Proof. reflexivity. Qed.


Section Writes.
Variable env : Env.
Variable searchLinks : string -> string.

Lemma status_fetchBuyLinks i c medicines reply st w t :
  payment_status (db (fetchBuyLinks env searchLinks i c medicines reply st w) t)
  = payment_status (db w t).
Proof.
  unfold fetchBuyLinks.
  destruct (negb (present (API_KEY env)) || negb (present (API_URL env)));
    [reflexivity|].
  destruct reply; [reflexivity|].
  unfold setMessage. apply status_writeMessages.
Qed.

(** Every handler writes to [payment_status] what [gateWrite] says,
    and nothing else. *)
Lemma status_handle i c e w t :
  payment_status (db (handle env searchLinks i c e w) t) =
  match gateWrite c e with
  | Some (t', ps) =>
      if String.eqb t t' then Some ps else payment_status (db w t)
  | None => payment_status (db w t)
  end.
Proof.
  destruct e; cbn [handle gateWrite]; try reflexivity.
  - (* ClickSend *)
    unfold handleSendChat.
    destruct (negb (truthy (trim (inputText c))) || negb (signedIn c));
      [reflexivity|].
    rewrite db_local. unfold saveMessage.
    destruct (present (targetOf c)); [|reflexivity].
    apply status_writeMessages.
  - (* ClickSendPrescription *)
    unfold handleSendPrescription, formComplete.
    destruct (truthy (problemDiagnosis (form c)));
      destruct (truthy (medicineNames (form c)));
      destruct (truthy (dosageInstructions (form c)));
      destruct (truthy (date (form c))); cbn [negb orb andb];
      try reflexivity.
    destruct (signedIn c); cbn [negb orb andb]; [|reflexivity].
    destruct (present (patientId c)); cbn [negb orb andb]; [|reflexivity].
    rewrite db_local, status_fetchBuyLinks, status_setPayment.
    destruct (String.eqb t (pathOf (patientId c))); [reflexivity|].
    apply status_writeMessages.
  - (* ClickDelete *)
    unfold handleDeletePrescription.
    destruct (signedIn c); [|reflexivity].
    apply status_writeMessages.
  - (* ClickClearChat *)
    unfold handleClearChat.
    destruct (signedIn c); [|reflexivity].
    rewrite db_local. apply status_writeMessages.
  - (* ClickConfirmPayment *)
    unfold handleConfirmPayment.
    destruct (user c); [|reflexivity].
    apply status_setPayment.
  - (* ClickVerifyYes *)
    unfold handleVerifyYes.
    destruct (signedIn c); cbn [negb orb andb]; [|reflexivity].
    destruct (present (patientId c)); cbn [negb orb andb]; [|reflexivity].
    rewrite db_local. apply status_setPayment.
  - (* ClickVerifyNo *)
    unfold handleVerifyNo.
    destruct (signedIn c); cbn [negb orb andb]; [|reflexivity].
    destruct (present (patientId c)); cbn [negb orb andb]; [|reflexivity].
    rewrite db_local. apply status_setPayment.
Qed.

Lemma gateWrite_values c e t ps :
  gateWrite c e = Some (t, ps) ->
  ps = Unclaimed \/ ps = Claimed \/ ps = Verified.
Proof.
  destruct e; simpl; try discriminate.
  - destruct (formComplete (form c) && (signedIn c && present (patientId c)));
      [|discriminate].
    intros [= _ <-]. now left.
  - destruct (user c); [|discriminate]. intros [= _ <-]. now right; left.
  - destruct (signedIn c && present (patientId c)); [|discriminate].
    intros [= _ <-]. now right; right.
  - destruct (signedIn c && present (patientId c)); [|discriminate].
    intros [= _ <-]. now left.
Qed.

End Writes.

(** *** The components stay in step with the store *)

Lemma synced_popup d c :
  synced d c -> showVerificationPopup c = true ->
  role c = doctor /\ paymentClaimed c = true /\ paymentVerified c = false.
Proof. intros [Hs _ _]. apply (wf_popup _ Hs). Qed.







Lemma onMessages_delivered data c :
  onMessages data c =
  match delivered data with
  | [] => withShown [] c
  | m :: ms => withHasDoctorSentFirst true (withShown (m :: ms) c)
  end.
Proof.
  unfold onMessages, delivered.
  now destruct (JSArray.sort _ (values data)).
Qed.

Lemma props_onMessages data c : props (onMessages data c) = props c.
Proof. rewrite onMessages_delivered. now destruct (delivered data). Qed.

Lemma props_onPayment ps c : props (onPayment ps c) = props c.
Proof.
  unfold onPayment.
  now destruct (Bool.eqb (paymentClaimed c) (claimed ps)
                && Bool.eqb (paymentVerified c) (verified ps)).
Qed.

Lemma props_subscribe d c : props (subscribe d c) = props c.
Proof.
  unfold subscribe. destruct (subscribedTo c); [|reflexivity].
  now rewrite props_onPayment, props_onMessages.
Qed.

(** What a component listens to depends on its properties alone. *)
Lemma props_subscribedTo c c' :
  props c = props c' ->
  role c = role c' /\ targetOf c = targetOf c'
  /\ subscribedTo c = subscribedTo c'.
Proof.
  unfold props, subscribedTo, targetOf. intros [= Hr Hu Hp].
  now rewrite Hr, Hu, Hp.
Qed.



Lemma role_onMessages data c : role (onMessages data c) = role c.
Proof. apply props_subscribedTo, props_onMessages. Qed.

Lemma role_onPayment ps c : role (onPayment ps c) = role c.
Proof. apply props_subscribedTo, props_onPayment. Qed.

Lemma subscribedTo_target c t : subscribedTo c = Some t -> targetOf c = Some t.
Proof.
  unfold subscribedTo. destruct (user c); [|discriminate].
  now destruct (present (targetOf c)).
Qed.

(** **** The messages callback *)




(** **** The payment callback *)










(** **** Writes *)

Lemma thread_setThread_same t th d : setThread t th d t = th.
Proof. unfold setThread. now rewrite String.eqb_refl. Qed.

Lemma thread_setThread_other t th d t' : t' <> t -> setThread t th d t' = d t'.
Proof.
  intros H. unfold setThread. apply String.eqb_neq in H. now rewrite H.
Qed.

Lemma messages_writeMessages t f w :
  messages (db (writeMessages t f w) t) = f (messages (db w t)).
Proof.
  unfold writeMessages, deliverMessages. cbn [db].
  now rewrite thread_setThread_same.
Qed.





(** *** The properties of a session do not change while it handles an event *)





(** *** Every step keeps the components in step *)

Section Steps.
Variable env : Env.
Variable searchLinks : string -> string.






Lemma run_app w steps1 steps2 :
  run env searchLinks w (steps1 ++ steps2) =
  run env searchLinks (run env searchLinks w steps1) steps2.
Proof. unfold run. apply fold_left_app. Qed.

Lemma reachable_run w steps :
  reachable env searchLinks w -> reachable env searchLinks (run env searchLinks w steps).
Proof.
  intros (db0 & steps0 & ->). exists db0, (steps0 ++ steps).
  symmetry. apply run_app.
Qed.

End Steps.

(** *** The payment gate *)



Section Gate.
Variable env : Env.
Variable searchLinks : string -> string.



Lemma synced_upToDate d c : synced d c -> upToDate d c.
Proof.
  intros Hc. split; [apply (synced_payment _ _ Hc)|].
  apply (synced_popup _ _ Hc).
Qed.





Lemma storeAfter_app d m1 m2 :
  storeAfter env searchLinks d (m1 ++ m2)
  = storeAfter env searchLinks (storeAfter env searchLinks d m1) m2.
Proof. unfold storeAfter. apply fold_left_app. Qed.




End Gate.





(** *** What the patient is shown *)

Section Display.
Variable env : Env.
Variable searchLinks : string -> string.




End Display.



(** *** The invariant of the record *)

Lemma valid_written ps :
  ps = Unclaimed \/ ps = Claimed \/ ps = Verified -> validStatus ps.
Proof. intros [-> | [-> | ->]]; unfold validStatus; cbn; congruence. Qed.

Section Invariant.
Variable env : Env.
Variable searchLinks : string -> string.

(** C4.  Whatever a handler leaves in [payment_status] is either what
    was there before or the value the event writes, which is one of
    unclaimed, claimed and verified: confirming writes claimed, "verify
    yes" verified, "verify no" and sending a prescription unclaimed.
    Every value written therefore has [claimed] set whenever [verified]
    is, and a store in which all records are so stays so at every
    step. *)
Theorem written_status_is_valid :
  (forall i c e w t ps,
      payment_status (db (handle env searchLinks i c e w) t) = Some ps ->
      payment_status (db w t) = Some ps
      \/ (gateWrite c e = Some (t, ps) /\ validStatus ps))
  /\ (forall c e t ps, gateWrite c e = Some (t, ps) -> validStatus ps)
  /\ (forall c uid w,
        user c = Some uid ->
        payment_status (db (handleConfirmPayment c w) uid)
        = Some (mkPayment true false))
  /\ (forall i c pid w,
        signedIn c = true -> patientId c = Some pid -> pid <> EmptyString ->
        payment_status (db (handleVerifyYes i c w) pid)
        = Some (mkPayment true true)
        /\ payment_status (db (handleVerifyNo i c w) pid)
           = Some (mkPayment false false))
  /\ (forall w s,
        (forall t ps, payment_status (db w t) = Some ps -> validStatus ps) ->
        forall t ps,
          payment_status (db (step env searchLinks w s) t) = Some ps ->
          validStatus ps).
Proof.
  assert (Hvalid : forall c e t ps,
             gateWrite c e = Some (t, ps) -> validStatus ps).
  { intros c e t ps Hg. eapply valid_written, gateWrite_values. exact Hg. }
  assert (Hhandle : forall i c e w t ps,
             payment_status (db (handle env searchLinks i c e w) t) = Some ps ->
             payment_status (db w t) = Some ps
             \/ (gateWrite c e = Some (t, ps) /\ validStatus ps)).
  { intros i c e w t ps. rewrite status_handle.
    destruct (gateWrite c e) as [[t' ps']|] eqn:Hg; [|now left].
    destruct (String.eqb t t') eqn:E; [|now left].
    apply String.eqb_eq in E; subst t'. intros [= ->].
    right. split; [reflexivity|]. eapply Hvalid. exact Hg. }
  split; [exact Hhandle|]. split; [exact Hvalid|]. split; [|split].
  - intros c uid w Hu.
    pose proof (status_handle env searchLinks 0 c ClickConfirmPayment w uid) as H.
    cbn [handle gateWrite] in H. rewrite Hu, String.eqb_refl in H. exact H.
  - intros i c pid w Hu Hp Hne.
    assert (Hg : signedIn c && present (patientId c) = true).
    { rewrite Hu, Hp. cbn. now apply JSStringFacts.truthy_nonempty. }
    split.
    + pose proof (status_handle env searchLinks i c ClickVerifyYes w pid) as H.
      cbn [handle gateWrite] in H. rewrite Hg, Hp in H. cbn [pathOf] in H.
      now rewrite String.eqb_refl in H.
    + pose proof (status_handle env searchLinks i c ClickVerifyNo w pid) as H.
      cbn [handle gateWrite] in H. rewrite Hg, Hp in H. cbn [pathOf] in H.
      now rewrite String.eqb_refl in H.
  - intros w s Hall t ps.
    destruct s as [r u pid|i pid|i e]; cbn [step]; [apply Hall| |].
    { destruct (nth_error (sessions w) i) as [c|]; [|apply Hall].
      destruct (isDoctor (role c) && truthy pid); apply Hall. }
    destruct (nth_error (sessions w) i) as [c|]; [|apply Hall].
    destruct (rendered c e); [|apply Hall].
    intros H. destruct (Hhandle _ _ _ _ _ _ H) as [Hold|[_ Hv]];
      [eapply Hall; exact Hold | exact Hv].
Qed.

(** C9.  Whenever the doctor's form is complete and the doctor is
    signed in with a patient selected, sending the prescription leaves
    [{claimed: false, verified: false}] in the patient's thread, whatever
    was there before; sent from the doctor's component when the thread is
    verified, it makes it unclaimed. *)
Theorem send_prescription_resets_the_gate :
  (forall i c st reply st' w pid,
      formComplete (form c) = true -> signedIn c = true ->
      patientId c = Some pid -> pid <> EmptyString ->
      payment_status
        (db (handleSendPrescription env searchLinks i c st reply st' w) pid)
      = Some (mkPayment false false))
  /\ (forall i c st reply st' w pid,
        nth_error (sessions w) i = Some c -> role c = doctor ->
        formComplete (form c) = true -> signedIn c = true ->
        patientId c = Some pid -> pid <> EmptyString ->
        paymentOf (db w) pid = Verified ->
        paymentOf
          (db (step env searchLinks w
                 (Act i (ClickSendPrescription st reply st'))))
          pid
        = Unclaimed).
Proof.
  assert (Hsend : forall i c st reply st' w pid,
             formComplete (form c) = true -> signedIn c = true ->
             patientId c = Some pid -> pid <> EmptyString ->
             payment_status
               (db (handleSendPrescription env searchLinks i c st reply st' w) pid)
             = Some (mkPayment false false)).
  { intros i c st reply st' w pid Hf Hu Hp Hne.
    pose proof (status_handle env searchLinks i c
                  (ClickSendPrescription st reply st') w pid) as H.
    cbn [handle gateWrite] in H.
    rewrite Hf, Hu, Hp in H. cbn [present andb pathOf] in H.
    rewrite (JSStringFacts.truthy_nonempty _ Hne), String.eqb_refl in H.
    exact H. }
  split; [exact Hsend|].
  intros i c st reply st' w pid Hn Hr Hf Hu Hp Hne _.
  cbn [step]. rewrite Hn. cbn [rendered]. rewrite Hr. cbn [isDoctor handle].
  unfold paymentOf. now rewrite Hsend.
Qed.

End Invariant.

Lemma written_status_is_valid_witness :
  validStatus (mkPayment true true).
Proof.
  apply (proj1 (proj2 (written_status_is_valid sampleEnv sampleLinks))
           doctorWithForm ClickVerifyYes "pat"%string (mkPayment true true)).
  reflexivity.
Defined.

Lemma send_prescription_resets_the_gate_witness :
  paymentOf (db afterVerification) "pat" = Verified
  /\ payment_status
       (db (handleSendPrescription sampleEnv sampleLinks 0 doctorWithForm
              (mkStamp "m3" 200) ReplyFails (mkStamp "m4" 201)
              afterVerification) "pat")
     = Some (mkPayment false false).
Proof.
  split; [vm_compute; reflexivity|].
  apply (proj1 (send_prescription_resets_the_gate sampleEnv sampleLinks)
           0%nat doctorWithForm (mkStamp "m3" 200) ReplyFails (mkStamp "m4" 201)
           afterVerification "pat"%string).
  - reflexivity.
  - reflexivity.
  - reflexivity.
  - discriminate.
Defined.

End PrescriptionFacts.

(* ------------------------------------------------------------------ *)
(** ** Rendering of the buy links *)

Module MarkdownFacts.
Import JSString Markdown.

Lemma append_assoc (a b c : string) :
  ((a ++ b) ++ c)%string = (a ++ (b ++ c))%string.
Proof. induction a as [|x a IH]; simpl; [reflexivity | now rewrite IH]. Qed.

Lemma splitLines_nonempty s : splitLines s <> [].
Proof.
  destruct s as [|c s]; simpl; [discriminate|].
  destruct (Ascii.eqb c newlineChar); [discriminate|].
  destruct (splitLines s); discriminate.
Qed.

Lemma joinLines_cons line rest :
  rest <> [] ->
  joinLines (line :: rest) = (line ++ String newlineChar (joinLines rest))%string.
Proof. destruct rest; [congruence | reflexivity]. Qed.

(** Splitting loses nothing: joining the lines with newlines gives the
    text back. *)
Lemma joinLines_splitLines s : joinLines (splitLines s) = s.
Proof.
  induction s as [|c s IH]; [reflexivity|].
  simpl. destruct (Ascii.eqb c newlineChar) eqn:E.
  - apply Ascii.eqb_eq in E; subst c.
    rewrite joinLines_cons by apply splitLines_nonempty.
    simpl. now rewrite IH.
  - pose proof (splitLines_nonempty s) as Hne.
    destruct (splitLines s) as [|line lines]; [congruence|].
    destruct lines as [|l2 lines].
    + simpl in *. now rewrite IH.
    + rewrite joinLines_cons by discriminate.
      rewrite joinLines_cons in IH by discriminate.
      rewrite <- IH. reflexivity.
Qed.

Lemma splitLines_no_newline s :
  Forall (fun line => occurs newlineChar line = false) (splitLines s).
Proof.
  induction s as [|c s IH]; simpl.
  - constructor; [reflexivity | constructor].
  - destruct (Ascii.eqb c newlineChar) eqn:E.
    + constructor; [reflexivity | exact IH].
    + destruct (splitLines s) as [|line lines]; simpl.
      * constructor; [simpl; now rewrite E | constructor].
      * inversion IH as [|? ? Hl Hls]; subst.
        constructor; [simpl; now rewrite E, Hl | exact Hls].
Qed.

(** *** What a match consists of *)

Lemma closeOf_sound s href :
  closeOf s = Some href ->
  exists post,
    s = (href ++ String closeParen post)%string
    /\ occurs closeParen href = false
    /\ noLineTerminator href = true.
Proof.
  revert href. induction s as [|c s IH]; simpl; intros href; [discriminate|].
  destruct (Ascii.eqb c closeParen) eqn:E.
  - intros [= <-]. apply Ascii.eqb_eq in E; subst c.
    exists s. repeat split.
  - destruct (isLineTerminator c) eqn:T; [discriminate|].
    destruct (closeOf s) as [h|]; [|discriminate].
    intros [= <-]. destruct (IH h eq_refl) as (post & -> & Ho & Hn).
    exists post. simpl. rewrite E, T, Ho, Hn. repeat split.
Qed.

Lemma labelOf_sound s label href :
  labelOf s = Some (label, href) ->
  exists post,
    s = (label ++ String closeBracket (String openParen href)
         ++ String closeParen post)%string
    /\ noLineTerminator label = true
    /\ occurs closeParen href = false
    /\ noLineTerminator href = true.
Proof.
  revert label. induction s as [|c s IH]; simpl; intros label; [discriminate|].
  destruct (if Ascii.eqb c closeBracket
            then match s with
                 | String c' s'' =>
                     if Ascii.eqb c' openParen then closeOf s'' else None
                 | EmptyString => None
                 end
            else None) as [h|] eqn:Hhere.
  - intros [= <- <-].
    destruct (Ascii.eqb c closeBracket) eqn:E; [|discriminate].
    apply Ascii.eqb_eq in E; subst c.
    destruct s as [|c' s'']; [discriminate|].
    destruct (Ascii.eqb c' openParen) eqn:E'; [|discriminate].
    apply Ascii.eqb_eq in E'; subst c'.
    destruct (closeOf_sound _ _ Hhere) as (post & -> & Ho & Hn).
    exists post. repeat split; assumption.
  - destruct (isLineTerminator c) eqn:T; [discriminate|].
    destruct (labelOf s) as [[l h]|]; [|discriminate].
    intros [= <- <-].
    destruct (IH l eq_refl) as (post & -> & Hl & Ho & Hn).
    exists post. simpl. rewrite T, Hl. repeat split; assumption.
Qed.

Lemma matchLink_sound line label href :
  matchLink line = Some (label, href) ->
  exists pre post,
    line = (pre ++ linkText label href ++ post)%string
    /\ noLineTerminator label = true
    /\ occurs closeParen href = false
    /\ noLineTerminator href = true.
Proof.
  induction line as [|c s IH]; simpl; [discriminate|].
  assert (Hlater : matchLink s = Some (label, href) ->
                   exists pre post,
                     String c s = (pre ++ linkText label href ++ post)%string
                     /\ noLineTerminator label = true
                     /\ occurs closeParen href = false
                     /\ noLineTerminator href = true).
  { intros H. destruct (IH H) as (pre & post & -> & Hl & Ho & Hn).
    exists (String c pre), post. repeat split; assumption. }
  destruct (Ascii.eqb c openBracket) eqn:E; [|exact Hlater].
  destruct (labelOf s) as [[l h]|] eqn:Hl; [|exact Hlater].
  intros [= -> ->]. apply Ascii.eqb_eq in E; subst c.
  destruct (labelOf_sound _ _ _ Hl) as (post & -> & Hlab & Ho & Hn).
  exists EmptyString, post. repeat split; try assumption.
  unfold linkText. simpl. f_equal.
  rewrite append_assoc. simpl. rewrite append_assoc. reflexivity.
Qed.

(** *** Which lines match *)

Lemma closeOf_complete href post :
  occurs closeParen href = false -> noLineTerminator href = true ->
  closeOf (href ++ String closeParen post) = Some href.
Proof.
  induction href as [|c h IH]; simpl; intros Ho Hn; [reflexivity|].
  apply orb_false_iff in Ho as [Hc Ho].
  apply andb_prop in Hn as [Ht Hn]. apply negb_true_iff in Ht.
  now rewrite Hc, Ht, IH.
Qed.

Lemma labelOf_complete label href post :
  occurs closeBracket label = false -> noLineTerminator label = true ->
  occurs closeParen href = false -> noLineTerminator href = true ->
  labelOf (label ++ String closeBracket
                      (String openParen (href ++ String closeParen post)))
  = Some (label, href).
Proof.
  intros Hb Hl Ho Hn.
  induction label as [|c l IH].
  - simpl. now rewrite closeOf_complete.
  - simpl in Hb, Hl.
    apply orb_false_iff in Hb as [Hc Hb].
    apply andb_prop in Hl as [Ht Hl]. apply negb_true_iff in Ht.
    cbn [append labelOf]. rewrite Hc, Ht. now rewrite IH.
Qed.

Lemma matchLink_none line : occurs openBracket line = false -> matchLink line = None.
Proof.
  induction line as [|c s IH]; simpl; [reflexivity|].
  intros H. apply orb_false_iff in H as [Hc Hs]. now rewrite Hc, IH.
Qed.

Lemma matchLink_skip pre rest :
  occurs openBracket pre = false -> matchLink (pre ++ rest) = matchLink rest.
Proof.
  induction pre as [|c p IH]; simpl; [reflexivity|].
  intros H. apply orb_false_iff in H as [Hc Hp]. now rewrite Hc, IH.
Qed.

Lemma linkText_append label href post :
  (linkText label href ++ post)%string =
  String openBracket
    (label ++ String closeBracket
                (String openParen (href ++ String closeParen post))).
Proof.
  unfold linkText. simpl. f_equal.
  rewrite append_assoc. simpl. now rewrite append_assoc.
Qed.

(** X1.  [renderMarkdownLinks] makes one paragraph per line of the text:
    the lines it works on contain no newline and, joined with newlines, are
    the text again, so that nothing is lost or merged by the split. *)
Theorem renderMarkdownLinks_one_paragraph_per_line (text : string) :
  List.length (renderMarkdownLinks text) = List.length (splitLines text)
  /\ joinLines (splitLines text) = text
  /\ Forall (fun line => occurs newlineChar line = false) (splitLines text)
  /\ renderMarkdownLinks text <> [].
Proof.
  split; [apply length_map|]. split; [apply joinLines_splitLines|].
  split; [apply splitLines_no_newline|].
  unfold renderMarkdownLinks. intros H. apply map_eq_nil in H.
  now apply splitLines_nonempty in H.
Qed.

(** X2.  A line rendered as a link contains that link written out as
    [[label](href)]; the label and the target contain no line terminator
    and the target no closing parenthesis.  What stands before and after the
    link on the line is not shown.  A line rendered plainly is shown as it
    is. *)
Theorem renderLine_shows_a_link_of_the_line (line : string) :
  (forall label href,
      renderLine line = Link label href ->
      exists pre post,
        line = (pre ++ linkText label href ++ post)%string
        /\ noLineTerminator label = true
        /\ occurs closeParen href = false
        /\ noLineTerminator href = true)
  /\ (forall shown, renderLine line = Plain shown -> shown = line).
Proof.
  unfold renderLine. split.
  - intros label href.
    destruct (matchLink line) as [[l h]|] eqn:Hm; [|discriminate].
    intros [= <- <-]. now apply matchLink_sound.
  - intros shown. destruct (matchLink line) as [[l h]|]; [discriminate|].
    now intros [= <-].
Qed.

Lemma renderLine_shows_a_link_of_the_line_witness :
  exists pre post,
    "- [Search on 1mg](https://www.1mg.com/search/all?name=Paracetamol)  "%string
    = (pre ++ linkText "Search on 1mg"
                "https://www.1mg.com/search/all?name=Paracetamol" ++ post)%string
    /\ noLineTerminator "Search on 1mg" = true
    /\ occurs closeParen "https://www.1mg.com/search/all?name=Paracetamol" = false
    /\ noLineTerminator "https://www.1mg.com/search/all?name=Paracetamol" = true.
Proof.
  apply (proj1 (renderLine_shows_a_link_of_the_line
                  "- [Search on 1mg](https://www.1mg.com/search/all?name=Paracetamol)  ")).
  reflexivity.
Defined.

(** X3.  A link written as [[label](href)] is rendered with exactly that
    label and target, whatever follows it on the line, provided no opening
    bracket precedes it, the label holds no closing bracket, the target no
    closing parenthesis, and neither holds a line terminator.  A line
    without an opening bracket is rendered plainly. *)
Theorem renderLine_reads_back_a_written_link :
  (forall pre label href post,
      occurs openBracket pre = false ->
      occurs closeBracket label = false -> noLineTerminator label = true ->
      occurs closeParen href = false -> noLineTerminator href = true ->
      renderLine (pre ++ linkText label href ++ post) = Link label href)
  /\ (forall line, occurs openBracket line = false ->
                   renderLine line = Plain line).
Proof.
  split.
  - intros pre label href post Hpre Hb Hl Ho Hn. unfold renderLine.
    rewrite matchLink_skip by assumption.
    rewrite linkText_append. cbn [matchLink].
    replace (Ascii.eqb openBracket openBracket) with true
      by (symmetry; apply Ascii.eqb_refl).
    now rewrite labelOf_complete.
  - intros line H. unfold renderLine. now rewrite matchLink_none.
Qed.

Lemma renderLine_reads_back_a_written_link_witness :
  renderLine ("- " ++ linkText "Search on Netmeds" "https://www.netmeds.com/q" ++ "  ")
  = Link "Search on Netmeds" "https://www.netmeds.com/q".
Proof.
  apply (proj1 renderLine_reads_back_a_written_link
           "- "%string "Search on Netmeds"%string
           "https://www.netmeds.com/q"%string "  "%string);
    reflexivity.
Defined.

End MarkdownFacts.

(* ------------------------------------------------------------------ *)
(** ** Arrays: ties and comparators *)

Module JSArrayMore.
Import JSArray JSArrayFacts Notions.

Section Keyed.
Context {A : Type}.
Variable cmp : A -> A -> Z.
Variable key : A -> Z.
(** Elements with the same key do not compare greater than one another. *)
Hypothesis cmp_key : forall x y, key x = key y -> cmp x y <= 0.

Lemma filter_insertSorted k x l :
  filter (hasKey key k) (insertSorted cmp x l) = filter (hasKey key k) (x :: l).
Proof.
  induction l as [|y l IH]; [reflexivity|].
  cbn [insertSorted]. destruct (cmp x y <=? 0) eqn:E; [reflexivity|].
  apply Z.leb_gt in E.
  cbn [filter] in *. rewrite IH.
  unfold hasKey.
  destruct (key x =? k) eqn:Ex; destruct (key y =? k) eqn:Ey; try reflexivity.
  apply Z.eqb_eq in Ex, Ey.
  assert (cmp x y <= 0) by (apply cmp_key; congruence). lia.
Qed.

(** The sort keeps the elements of equal key in the order they had. *)
Lemma filter_sort k l :
  filter (hasKey key k) (sort cmp l) = filter (hasKey key k) l.
Proof.
  induction l as [|x l IH]; [reflexivity|].
  cbn [sort fold_right]. fold (sort cmp l).
  rewrite filter_insertSorted. cbn [filter]. now rewrite IH.
Qed.
End Keyed.

Lemma sort_ext {A : Type} (cmp cmp' : A -> A -> Z) l :
  (forall a b, cmp a b = cmp' a b) -> sort cmp l = sort cmp' l.
Proof.
  intros H. induction l as [|x l IH]; [reflexivity|].
  cbn [sort fold_right]. fold (sort cmp l) (sort cmp' l). rewrite IH.
  generalize (sort cmp' l). intros m.
  induction m as [|y m IHm]; [reflexivity|].
  cbn [insertSorted]. rewrite H, IHm. reflexivity.
Qed.

Lemma StronglySorted_weaken {A : Type} (R R' : A -> A -> Prop) l :
  (forall a b, R a b -> R' a b) -> StronglySorted R l -> StronglySorted R' l.
Proof.
  intros H. induction 1 as [|x l Hs IH Hx]; constructor; [exact IH|].
  eapply Forall_impl; [|exact Hx]. intros b. apply H.
Qed.

(** The comparator [(a, b) => f(a) - f(b)] orders by [f], ascending. *)
Lemma sort_ascending {A : Type} (f : A -> Z) l :
  StronglySorted (fun a b => f a <= f b) (sort (fun a b => f a - f b) l).
Proof.
  rewrite (sort_ext _ (byDescending (fun x => - f x)))
    by (intros a b; unfold byDescending; lia).
  eapply StronglySorted_weaken; [|apply sort_descending].
  unfold descending. intros a b. lia.
Qed.

End JSArrayMore.

(* ------------------------------------------------------------------ *)
(** ** More on strings: normal forms *)

Module JSStringMore.
Import JSString JSStringFacts Notions.

Lemma lowerChar_idempotent c : lowerChar (lowerChar c) = lowerChar c.
Proof. destruct c as [[] [] [] [] [] [] [] []]; reflexivity. Qed.

Lemma toLowerCase_idempotent s : toLowerCase (toLowerCase s) = toLowerCase s.
Proof.
  induction s as [|c s IH]; simpl; [reflexivity|].
  now rewrite lowerChar_idempotent, IH.
Qed.

Lemma trimStart_startsClean s : startsClean (trimStart s) = true.
Proof.
  induction s as [|c s IH]; simpl; [reflexivity|].
  destruct (isWhiteSpace c) eqn:E; [exact IH|]. simpl. now rewrite E.
Qed.

Lemma trimStart_clean s : startsClean s = true -> trimStart s = s.
Proof.
  destruct s as [|c s]; simpl; [reflexivity|].
  intros H. apply negb_true_iff in H. now rewrite H.
Qed.

Lemma trimEnd_startsClean s : startsClean s = true -> startsClean (trimEnd s) = true.
Proof.
  destruct s as [|c s]; simpl; [reflexivity|].
  intros H. destruct (trimEnd s); simpl; [|exact H].
  apply negb_true_iff in H. rewrite H. simpl. now rewrite H.
Qed.

Lemma trimEnd_idempotent s : trimEnd (trimEnd s) = trimEnd s.
Proof.
  induction s as [|c s IH]; simpl; [reflexivity|].
  destruct (trimEnd s) as [|a t] eqn:E.
  - destruct (isWhiteSpace c) eqn:W; simpl; [reflexivity | now rewrite W].
  - cbn [trimEnd]. cbn [trimEnd] in IH. rewrite IH. reflexivity.
Qed.

Lemma trim_idempotent s : trim (trim s) = trim s.
Proof.
  unfold trim.
  rewrite (trimStart_clean (trimEnd (trimStart s)))
    by apply trimEnd_startsClean, trimStart_startsClean.
  apply trimEnd_idempotent.
Qed.

Lemma toLowerCase_nonempty s : s <> EmptyString -> toLowerCase s <> EmptyString.
Proof. destruct s; [congruence | discriminate]. Qed.

Lemma normalized_normalize s : normalized (Outbreak.normalize s).
Proof.
  unfold normalized, Outbreak.normalize. split.
  - now rewrite <- toLowerCase_trim, trim_idempotent.
  - apply toLowerCase_idempotent.
Qed.

End JSStringMore.

(* ------------------------------------------------------------------ *)
(** ** More on the outbreak table *)

Module OutbreakMore.
Import JSString JSObject JSArray Outbreak Notions.
Import JSObjectFacts JSArrayFacts JSStringFacts OutbreakFacts.
Import JSArrayMore JSStringMore.

(** As in module [Outbreak], a call of [groupLocal] is one made while
    [Object.prototype] holds only what the language puts there; the
    statements about reports none of whose keys is [constructor] or
    [__proto__] are about such calls. *)

Local Abbreviation tallied rs := (fold_left tally rs []).

(** *** Every report is counted once *)

Section Weighted.
Context {V : Type}.
Variable weight : V -> Z.

Lemma sumBy_update (o : obj V) k v :
  sumBy weight (update k v o) =
  sumBy weight o
  + match get o k with Some x => weight v - weight x | None => 0 end.
Proof.
  unfold sumBy.
  induction o as [|[k0 v0] o IH]; simpl; [rewrite sum_nil; lia|].
  destruct (String.eqb k k0); simpl.
  - rewrite !sum_cons. simpl. lia.
  - rewrite !sum_cons, IH. lia.
Qed.

Lemma sumBy_insertIndex n (o : obj V) k v :
  sumBy weight (insertIndex n k v o) = sumBy weight o + weight v.
Proof.
  unfold sumBy.
  induction o as [|[k0 v0] o IH]; simpl.
  - rewrite sum_cons, sum_nil. simpl. lia.
  - destruct (arrayIndex k0) as [m|]; [destruct (n <? m)%N|];
      simpl; rewrite !sum_cons, ?IH; simpl; lia.
Qed.

Lemma sumBy_set (o : obj V) k v :
  sumBy weight (set k v o) =
  sumBy weight o
  - match get o k with Some x => weight x | None => 0 end + weight v.
Proof.
  unfold set. destruct (get o k) as [x|] eqn:Hk.
  - rewrite sumBy_update, Hk. lia.
  - destruct (arrayIndex k).
    + rewrite sumBy_insertIndex. lia.
    + unfold sumBy. rewrite map_app, sum_app. simpl.
      rewrite sum_cons, sum_nil. lia.
Qed.
End Weighted.

Lemma counted_tally agg r : counted (tally agg r) = counted agg + 1.
Proof.
  unfold counted, tally, withRow.
  destruct (get agg (cityOf r)) as [dis|] eqn:Hrow.
  - rewrite Hrow, sumBy_set, Hrow, sum_values_set, orZero_valueOr0. lia.
  - rewrite get_set_same, !sumBy_set, get_set_same, Hrow, sum_values_set.
    simpl. rewrite sum_nil. lia.
Qed.

Lemma counted_fold rs : forall agg,
  counted (fold_left tally rs agg) = counted agg + Z.of_nat (List.length rs).
Proof.
  induction rs as [|r rs IH]; intros agg; simpl fold_left.
  - simpl. lia.
  - rewrite IH, counted_tally. cbn [Datatypes.length]. lia.
Qed.

Lemma totals_counted agg :
  JSArray.sum (map total (sortedEntries agg)) = counted agg.
Proof.
  rewrite (sum_Permutation _ _
             (Permutation_map total (sortedEntries_Permutation agg))).
  rewrite map_map. reflexivity.
Qed.

Lemma tallied_totals_add_up (reports : list Report) :
  JSArray.sum (map total (localEntries (tallied reports)))
  = Z.of_nat (List.length reports)
  /\ JSArray.sum
       (map (fun e => JSArray.sum (map snd (diseases e)))
            (localEntries (tallied reports)))
     = Z.of_nat (List.length reports).
Proof.
  assert (H : JSArray.sum (map total (localEntries (tallied reports)))
              = Z.of_nat (List.length reports)).
  { unfold localEntries.
    rewrite totals_counted, counted_fold. reflexivity. }
  split; [exact H|].
  rewrite <- H. f_equal. apply map_ext_in.
  intros e He. destruct (entry_row _ _ (distinctKeys_tallied _) He) as [dis [_ Heq]].
  rewrite Heq. simpl. symmetry. apply sum_Permutation.
  unfold values. apply Permutation_map. symmetry. apply sort_Permutation.
Qed.

(** *** What the entries list *)

Lemma filter_count_pos {A : Type} (f : A -> bool) l :
  Z.of_nat (List.length (filter f l)) <> 0 <-> exists x, In x l /\ f x = true.
Proof.
  split.
  - destruct (filter f l) as [|x m] eqn:E; [simpl; lia|].
    intros _. exists x. apply filter_In. rewrite E. now left.
  - intros [x Hx]. apply filter_In in Hx.
    destruct (filter f l); [destruct Hx | simpl; lia].
Qed.

Lemma filter_count_Permutation {A : Type} (f : A -> bool) l l' :
  Permutation l l' ->
  List.length (filter f l) = List.length (filter f l').
Proof.
  induction 1 as [|x l l' _ IH|x y l|l l' l'' _ IH1 _ IH2]; simpl.
  - reflexivity.
  - destruct (f x); simpl; congruence.
  - destruct (f x), (f y); reflexivity.
  - congruence.
Qed.

Lemma inCity_pos c rs :
  inCity c rs <> 0 <-> exists r, In r rs /\ cityOf r = c.
Proof.
  unfold inCity. rewrite filter_count_pos.
  split; intros [r [Hr H]]; exists r; split; try exact Hr;
    now apply String.eqb_eq.
Qed.

Lemma matching_pos c d rs :
  matching c d rs <> 0 <->
  exists r, In r rs /\ cityOf r = c /\ diseaseOf r = d.
Proof.
  unfold matching, matches. rewrite filter_count_pos.
  split; intros [r [Hr H]]; exists r; split; try exact Hr.
  - apply andb_true_iff in H as [H1 H2].
    split; now apply String.eqb_eq.
  - destruct H as [-> ->]. now rewrite !String.eqb_refl.
Qed.

Lemma inCity_nonneg c rs : 0 <= inCity c rs.
Proof. unfold inCity. lia. Qed.

Lemma inCity_Permutation c rs rs' :
  Permutation rs rs' -> inCity c rs = inCity c rs'.
Proof.
  intros H. unfold inCity. f_equal. now apply filter_count_Permutation.
Qed.

Lemma matching_Permutation c d rs rs' :
  Permutation rs rs' -> matching c d rs = matching c d rs'.
Proof.
  intros H. unfold matching. f_equal. now apply filter_count_Permutation.
Qed.

Lemma row_tally agg r c :
  get (tally agg r) c = None <-> get agg c = None /\ cityOf r <> c.
Proof.
  unfold tally, withRow.
  destruct (get agg (cityOf r)) as [dis|] eqn:Hrow.
  - rewrite Hrow, get_set.
    destruct (String.eqb c (cityOf r)) eqn:Ec.
    + apply String.eqb_eq in Ec; subst c. rewrite Hrow.
      split; [discriminate | intros [H _]; discriminate].
    + apply String.eqb_neq in Ec. split; [intros H; split; congruence|tauto].
  - rewrite get_set_same, !get_set.
    destruct (String.eqb c (cityOf r)) eqn:Ec.
    + apply String.eqb_eq in Ec; subst c.
      split; [discriminate | intros [_ H]; congruence].
    + apply String.eqb_neq in Ec. split; [intros H; split; congruence|tauto].
Qed.

Lemma row_fold rs : forall agg c,
  get (fold_left tally rs agg) c = None <->
  get agg c = None /\ inCity c rs = 0.
Proof.
  induction rs as [|r rs IH]; intros agg c; simpl fold_left.
  - unfold inCity. simpl. tauto.
  - rewrite IH, row_tally, inCity_cons.
    pose proof (inCity_nonneg c rs).
    destruct (String.eqb (cityOf r) c) eqn:E.
    + apply String.eqb_eq in E. split; [tauto | lia].
    + apply String.eqb_neq in E. split; (intros [H1 H2]; split; [tauto | lia]).
Qed.

Lemma row_tallied rs c :
  get (tallied rs) c = None <-> inCity c rs = 0.
Proof. rewrite row_fold. simpl. tauto. Qed.

Lemma total_tallied rs c dis :
  get (tallied rs) c = Some dis -> JSArray.sum (values dis) = inCity c rs.
Proof.
  intros Hrow.
  pose proof (rowTotal_fold rs [] c) as Hsum.
  unfold rowTotal in Hsum. rewrite Hrow in Hsum. simpl in Hsum.
  exact Hsum.
Qed.

Lemma count_tallied rs c d :
  count (tallied rs) c d =
  if matching c d rs =? 0 then None else Some (matching c d rs).
Proof.
  rewrite count_fold. simpl.
  destruct (matching c d rs =? 0); [reflexivity|]. f_equal.
Qed.

(** The cells of a row are the diseases reported in its city, each with
    the number of its reports. *)
Lemma cell_In rs c dis d n :
  get (tallied rs) c = Some dis ->
  In (d, n) dis <-> n = matching c d rs /\ n <> 0.
Proof.
  intros Hrow.
  assert (Hnd : NoDup (keys dis))
    by (eapply (proj2 (distinctKeys_tallied rs)); exact Hrow).
  pose proof (count_tallied rs c d) as Hc.
  unfold count in Hc. rewrite Hrow in Hc.
  split.
  - intros Hin. apply (In_get _ _ _ Hnd) in Hin. rewrite Hin in Hc.
    destruct (matching c d rs =? 0) eqn:E; [discriminate|].
    apply Z.eqb_neq in E. injection Hc as ->. now split.
  - intros [-> Hn]. apply Z.eqb_neq in Hn. rewrite Hn in Hc.
    now apply get_In.
Qed.

Lemma In_diseases rs e d n :
  In e (localEntries (tallied rs)) ->
  In (d, n) (diseases e) <-> n = matching (city e) d rs /\ n <> 0.
Proof.
  intros He. destruct (entry_row _ _ (distinctKeys_tallied _) He) as [dis [Hrow Heq]].
  rewrite <- (cell_In rs (city e) dis d n Hrow).
  rewrite Heq at 1. simpl. apply sort_In.
Qed.

Lemma normalized_cityOf r : normalized (cityOf r).
Proof. apply normalized_normalize. Qed.

Lemma normalized_diseaseOf r : normalized (diseaseOf r).
Proof. apply normalized_normalize. Qed.

Lemma tallied_list_only_what_was_reported
    (reports : list Report) (e : Entry) :
  In e (localEntries (tallied reports)) ->
  normalized (city e)
  /\ (exists r, In r reports /\ cityOf r = city e)
  /\ 1 <= total e
  /\ diseases e <> []
  /\ Forall
       (fun kv =>
          normalized (fst kv)
          /\ snd kv = matching (city e) (fst kv) reports
          /\ 1 <= snd kv
          /\ exists r, In r reports /\ cityOf r = city e
                       /\ diseaseOf r = fst kv)
       (diseases e).
Proof.
  intros He. destruct (entry_row _ _ (distinctKeys_tallied _) He) as [dis [Hrow Heq]].
  assert (Ht : total e = inCity (city e) reports).
  { rewrite Heq at 1. simpl. now apply total_tallied. }
  assert (Hpos : inCity (city e) reports <> 0).
  { intros H0. apply row_tallied in H0. congruence. }
  pose proof (inCity_nonneg (city e) reports) as Hge.
  destruct (proj1 (inCity_pos _ _) Hpos) as [r [Hr Hc]].
  split; [rewrite <- Hc; apply normalized_cityOf|].
  split; [now exists r|].
  split; [lia|].
  split.
  - intros Hnil. rewrite Heq in Hnil. simpl in Hnil.
    apply sort_nil_inv in Hnil. unfold entries in Hnil. subst dis.
    apply total_tallied in Hrow. simpl in Hrow. rewrite sum_nil in Hrow.
    lia.
  - apply Forall_forall. intros [d n] Hin. simpl.
    apply (In_diseases _ _ _ _ He) in Hin as [Hn Hn0].
    pose proof (matching_nonneg (city e) d reports) as Hm.
    assert (Hm0 : matching (city e) d reports <> 0) by congruence.
    destruct (proj1 (matching_pos _ _ _) Hm0) as [r' [Hr' [Hc' Hd']]].
    split; [rewrite <- Hd'; apply normalized_diseaseOf|].
    split; [exact Hn|]. split; [lia|]. now exists r'.
Qed.

Lemma tallied_every_report_is_listed (reports : list Report) :
  NoDup (map city (localEntries (tallied reports)))
  /\ forall r,
       In r reports ->
       exists e,
         In e (localEntries (tallied reports))
         /\ city e = cityOf r
         /\ In (diseaseOf r, matching (cityOf r) (diseaseOf r) reports)
               (diseases e)
         /\ 1 <= matching (cityOf r) (diseaseOf r) reports.
Proof.
  split.
  - apply (Permutation_NoDup
             (l := keys (tallied reports))).
    + unfold localEntries. symmetry.
      rewrite (Permutation_map city (sortedEntries_Permutation _)).
      rewrite map_map. unfold keys. simpl. reflexivity.
    + apply (proj1 (distinctKeys_tallied reports)).
  - intros r Hr.
    assert (Hc : inCity (cityOf r) reports <> 0)
      by (apply inCity_pos; now exists r).
    destruct (get (tallied reports) (cityOf r)) as [dis|] eqn:Hrow;
      [|now apply row_tallied in Hrow].
    assert (Hm : matching (cityOf r) (diseaseOf r) reports <> 0)
      by (apply matching_pos; now exists r).
    pose proof (matching_nonneg (cityOf r) (diseaseOf r) reports).
    exists (entryOf (cityOf r, dis)).
    split; [|split; [reflexivity|split; [|lia]]].
    + unfold localEntries. rewrite sortedEntries_eq. apply sort_In.
      apply in_map. now apply get_In.
    + simpl. apply sort_In. unfold entries.
      apply (cell_In reports (cityOf r) dis); [exact Hrow | now split].
Qed.

(** *** The order of the reports *)

Lemma NoDup_entries {V : Type} (o : obj V) : NoDup (keys o) -> NoDup o.
Proof. apply NoDup_map_inv. Qed.

Lemma tallied_ignore_report_order
    (reports reports' : list Report) (e : Entry) :
  Permutation reports reports' ->
  In e (localEntries (tallied reports)) ->
  exists e',
    In e' (localEntries (tallied reports'))
    /\ city e' = city e
    /\ total e' = total e
    /\ Permutation (diseases e') (diseases e).
Proof.
  intros Hp He. destruct (entry_row _ _ (distinctKeys_tallied _) He) as [dis [Hrow Heq]].
  assert (Hpos : inCity (city e) reports' <> 0).
  { rewrite <- (inCity_Permutation _ _ _ Hp).
    intros H0. apply row_tallied in H0. congruence. }
  destruct (get (tallied reports') (city e)) as [dis'|] eqn:Hrow';
    [|now apply row_tallied in Hrow'].
  exists (entryOf (city e, dis')).
  split; [|split; [reflexivity|split]].
  - unfold localEntries. rewrite sortedEntries_eq. apply sort_In.
    apply in_map. now apply get_In.
  - rewrite Heq. simpl.
    rewrite (total_tallied _ _ _ Hrow), (total_tallied _ _ _ Hrow').
    symmetry. now apply inCity_Permutation.
  - rewrite Heq. simpl. rewrite !sort_Permutation. unfold entries.
    apply NoDup_Permutation.
    + apply NoDup_entries.
      eapply (proj2 (distinctKeys_tallied reports')); exact Hrow'.
    + apply NoDup_entries.
      eapply (proj2 (distinctKeys_tallied reports)); exact Hrow.
    + intros [d n].
      rewrite (cell_In _ _ _ d n Hrow), (cell_In _ _ _ d n Hrow').
      now rewrite (matching_Permutation _ _ _ _ Hp).
Qed.

(** *** Ties *)

Lemma filter_map_swap' {A B : Type} (f : B -> bool) (g : A -> B) l :
  filter f (map g l) = map g (filter (fun a => f (g a)) l).
Proof.
  induction l as [|a l IH]; simpl; [reflexivity|].
  destruct (f (g a)); simpl; now rewrite IH.
Qed.

Lemma ties_sortedEntries agg k :
  map city (filter (hasKey total k) (sortedEntries agg))
  = keys (filter (fun cd => JSArray.sum (values (snd cd)) =? k) agg).
Proof.
  rewrite sortedEntries_eq.
  rewrite (filter_sort (fun a b => total b - total a) total)
    by (intros x y H; lia).
  rewrite filter_map_swap', map_map. reflexivity.
Qed.

(** X8.  Cities with the same total are shown in the order in which the
    table enumerates them, in the local and in the global view, and
    within an entry diseases with the same count keep the order of their
    row: the sort does not reorder ties. *)
Theorem ties_keep_the_order_of_the_table :
  (forall aggregatedLocal k,
      map city (filter (hasKey total k) (localEntries aggregatedLocal))
      = keys (filter (fun cd => JSArray.sum (values (snd cd)) =? k)
                     (entries aggregatedLocal)))
  /\ (forall globalReports k,
        map city (filter (hasKey total k) (globalEntries globalReports))
        = keys (filter (fun cd => JSArray.sum (values (snd cd)) =? k)
                       (entries globalReports)))
  /\ (forall globalReports e k,
        In e (globalEntries globalReports) ->
        exists dis,
          In (city e, dis) (entries globalReports)
          /\ filter (hasKey snd k) (diseases e)
             = filter (hasKey snd k) (entries dis)).
Proof.
  split; [|split].
  - intros agg k. apply ties_sortedEntries.
  - intros agg k. apply ties_sortedEntries.
  - intros agg e k He.
    apply In_sortedEntries in He as [dis [Hin Heq]].
    exists dis. split; [exact Hin|].
    rewrite Heq. simpl.
    apply (filter_sort (fun a b : string * Z => snd b - snd a) snd).
    intros x y H. lia.
Qed.

Lemma ties_keep_the_order_of_the_table_witness :
  exists dis,
    In ("pune"%string, dis)
       (entries [("pune"%string, [("flu"%string, 1); ("cold"%string, 3);
                                  ("dengue"%string, 1)])])
    /\ filter (hasKey snd 1)
         [("cold"%string, 3); ("flu"%string, 1); ("dengue"%string, 1)]
       = filter (hasKey snd 1) (entries dis).
Proof.
  apply (proj2 (proj2 ties_keep_the_order_of_the_table)
           [("pune"%string, [("flu"%string, 1); ("cold"%string, 3);
                             ("dengue"%string, 1)])]
           (mkEntry "pune"
              [("cold"%string, 3); ("flu"%string, 1); ("dengue"%string, 1)]
              5)
           1).
  vm_compute. left. reflexivity.
Defined.

(** *** The local view of reports with plain keys *)

Lemma forallb_Permutation {A : Type} (f : A -> bool) l l' :
  Permutation l l' -> forallb f l = forallb f l'.
Proof.
  induction 1 as [|x l l' _ IH|x y l|l l' l'' _ IH1 _ IH2]; simpl.
  - reflexivity.
  - now rewrite IH.
  - now destruct (f x), (f y).
  - congruence.
Qed.

(** X4.  For reports none of whose normalised keys is [constructor] or
    [__proto__], the totals of the entries shown add up to the number of
    reports, and so do the counts of all listed diseases: every such
    report is counted in exactly one cell. *)
Theorem localEntries_totals_add_up (reports : list Report) :
  forallb plain reports = true ->
  exists agg,
    groupLocal reports = Returns agg
    /\ JSArray.sum (map total (localEntries agg))
       = Z.of_nat (List.length reports)
    /\ JSArray.sum
         (map (fun e => JSArray.sum (map snd (diseases e)))
              (localEntries agg))
       = Z.of_nat (List.length reports).
Proof.
  intros Hp. exists (tallied reports).
  split; [now apply groupLocal_plain|]. apply tallied_totals_add_up.
Qed.

Lemma localEntries_totals_add_up_witness :
  exists agg,
    groupLocal scenario = Returns agg
    /\ JSArray.sum (map total (localEntries agg)) = 3
    /\ JSArray.sum
         (map (fun e => JSArray.sum (map snd (diseases e)))
              (localEntries agg))
       = 3.
Proof.
  apply (localEntries_totals_add_up scenario).
  vm_compute. reflexivity.
Defined.

(** X5.  For reports none of whose normalised keys is [constructor] or
    [__proto__], every entry shown stands for a city that at least one
    report names: its key is trimmed and lower-case, its total is at
    least one, and it lists at least one disease; every disease listed
    has a trimmed lower-case key and a count of at least one, the number
    of the city's reports of that disease. *)
Theorem localEntries_list_only_what_was_reported (reports : list Report) :
  forallb plain reports = true ->
  exists agg,
    groupLocal reports = Returns agg
    /\ forall e,
         In e (localEntries agg) ->
         normalized (city e)
         /\ (exists r, In r reports /\ cityOf r = city e)
         /\ 1 <= total e
         /\ diseases e <> []
         /\ Forall
              (fun kv =>
                 normalized (fst kv)
                 /\ snd kv = matching (city e) (fst kv) reports
                 /\ 1 <= snd kv
                 /\ exists r, In r reports /\ cityOf r = city e
                              /\ diseaseOf r = fst kv)
              (diseases e).
Proof.
  intros Hp. exists (tallied reports).
  split; [now apply groupLocal_plain|].
  intros e. apply tallied_list_only_what_was_reported.
Qed.

Lemma localEntries_list_only_what_was_reported_witness :
  exists agg,
    groupLocal scenario = Returns agg
    /\ forall e,
         In e (localEntries agg) ->
         normalized (city e)
         /\ (exists r, In r scenario /\ cityOf r = city e)
         /\ 1 <= total e
         /\ diseases e <> []
         /\ Forall
              (fun kv =>
                 normalized (fst kv)
                 /\ snd kv = matching (city e) (fst kv) scenario
                 /\ 1 <= snd kv
                 /\ exists r, In r scenario /\ cityOf r = city e
                              /\ diseaseOf r = fst kv)
              (diseases e).
Proof.
  apply (localEntries_list_only_what_was_reported scenario).
  vm_compute. reflexivity.
Defined.

(** X6.  For reports none of whose normalised keys is [constructor] or
    [__proto__], the entries shown name each city once, and every report
    is listed: there is an entry for its normalised city, and that entry
    lists its normalised disease with the number of reports that share
    both keys, the report itself among them. *)
Theorem every_report_is_listed (reports : list Report) :
  forallb plain reports = true ->
  exists agg,
    groupLocal reports = Returns agg
    /\ NoDup (map city (localEntries agg))
    /\ forall r,
         In r reports ->
         exists e,
           In e (localEntries agg)
           /\ city e = cityOf r
           /\ In (diseaseOf r, matching (cityOf r) (diseaseOf r) reports)
                 (diseases e)
           /\ 1 <= matching (cityOf r) (diseaseOf r) reports.
Proof.
  intros Hp. exists (tallied reports).
  split; [now apply groupLocal_plain|]. apply tallied_every_report_is_listed.
Qed.

Lemma every_report_is_listed_witness :
  exists agg,
    groupLocal scenario = Returns agg
    /\ NoDup (map city (localEntries agg))
    /\ forall r,
         In r scenario ->
         exists e,
           In e (localEntries agg)
           /\ city e = cityOf r
           /\ In (diseaseOf r, matching (cityOf r) (diseaseOf r) scenario)
                 (diseases e)
           /\ 1 <= matching (cityOf r) (diseaseOf r) scenario.
Proof.
  apply (every_report_is_listed scenario).
  vm_compute. reflexivity.
Defined.

(** X7.  For reports none of whose normalised keys is [constructor] or
    [__proto__], the order in which the reports arrive changes neither
    the cities shown nor their numbers: for a rearranged list, every
    entry has a counterpart with the same city, the same total and the
    same diseases with the same counts. *)
Theorem localEntries_ignore_report_order (reports reports' : list Report) :
  Permutation reports reports' ->
  forallb plain reports = true ->
  exists agg agg',
    groupLocal reports = Returns agg
    /\ groupLocal reports' = Returns agg'
    /\ forall e,
         In e (localEntries agg) ->
         exists e',
           In e' (localEntries agg')
           /\ city e' = city e
           /\ total e' = total e
           /\ Permutation (diseases e') (diseases e).
Proof.
  intros Hperm Hp.
  assert (Hp' : forallb plain reports' = true)
    by now rewrite <- (forallb_Permutation plain _ _ Hperm).
  exists (tallied reports), (tallied reports').
  split; [now apply groupLocal_plain|].
  split; [now apply groupLocal_plain|].
  intros e. now apply tallied_ignore_report_order.
Qed.

Lemma localEntries_ignore_report_order_witness :
  exists agg agg',
    groupLocal scenario = Returns agg
    /\ groupLocal (rev scenario) = Returns agg'
    /\ forall e,
         In e (localEntries agg) ->
         exists e',
           In e' (localEntries agg')
           /\ city e' = city e
           /\ total e' = total e
           /\ Permutation (diseases e') (diseases e).
Proof.
  apply (localEntries_ignore_report_order scenario (rev scenario)).
  - apply Permutation_rev.
  - vm_compute. reflexivity.
Defined.

(** *** The global view *)

Lemma abs_le_sum xs x : In x xs -> Z.abs x <= JSArray.sum (map Z.abs xs).
Proof.
  induction xs as [|y xs IH]; [intros []|].
  cbn [map]. rewrite sum_cons. intros [-> | H].
  - assert (0 <= JSArray.sum (map Z.abs xs)).
    { clear. induction xs as [|z xs IH]; cbn [map];
        [rewrite sum_nil | rewrite sum_cons]; lia. }
    lia.
  - specialize (IH H). lia.
Qed.

Lemma sum_abs xs : Z.abs (JSArray.sum xs) <= JSArray.sum (map Z.abs xs).
Proof.
  induction xs as [|y xs IH]; cbn [map];
    [rewrite !sum_nil | rewrite !sum_cons]; lia.
Qed.

(** X9.  For a table of global counts that are whole numbers, the
    absolute values of each row adding up to at most 2^53 so that the
    sums the code forms are exact, the entries shown are ordered by
    total, descending; they name exactly the cities of the table, each
    entry listing its row ordered by count, descending, with the sum of
    the row as total, every count and every total being of absolute
    value at most 2^53; an empty table shows nothing. *)
Theorem globalEntries_sorted_by_count_and_total (globalReports : Aggregated) :
  exactSums globalReports = true ->
  StronglySorted (fun a b => total b <= total a) (globalEntries globalReports)
  /\ Permutation (map city (globalEntries globalReports)) (keys globalReports)
  /\ Forall
       (fun e =>
          StronglySorted (fun a b => snd b <= snd a) (diseases e)
          /\ total e = JSArray.sum (map snd (diseases e))
          /\ Z.abs (total e) <= 2 ^ 53
          /\ Forall (fun kv => Z.abs (snd kv) <= 2 ^ 53) (diseases e)
          /\ exists dis,
               In (city e, dis) (entries globalReports)
               /\ Permutation (diseases e) (entries dis))
       (globalEntries globalReports)
  /\ (globalEntries globalReports = [] <-> globalReports = []).
Proof.
  intros Hex. unfold globalEntries.
  split; [|split; [|split]].
  - rewrite sortedEntries_eq. apply (sort_descending total).
  - rewrite (Permutation_map city (sortedEntries_Permutation _)).
    rewrite map_map. unfold keys. simpl. reflexivity.
  - apply Forall_forall. intros e He.
    apply In_sortedEntries in He as [dis [Hin Heq]].
    assert (Hrow : JSArray.sum (map Z.abs (values dis)) <= 2 ^ 53).
    { unfold exactSums in Hex. rewrite forallb_forall in Hex.
      apply Z.leb_le. apply Hex. unfold values.
      change dis with (snd (city e, dis)). now apply in_map. }
    split; [|split; [|split; [|split]]].
    + rewrite Heq. simpl. apply (sort_descending (@snd string Z)).
    + rewrite Heq. simpl. apply sum_Permutation.
      unfold values. apply Permutation_map. symmetry. apply sort_Permutation.
    + rewrite Heq. simpl. pose proof (sum_abs (values dis)). lia.
    + rewrite Heq. simpl. apply Forall_forall. intros kv Hkv.
      apply sort_In in Hkv. unfold entries in Hkv.
      assert (Hv : In (snd kv) (values dis)) by (unfold values; now apply in_map).
      pose proof (abs_le_sum _ _ Hv). lia.
    + exists dis. split; [exact Hin|].
      rewrite Heq. simpl. apply sort_Permutation.
  - rewrite sortedEntries_eq. split.
    + intros H. apply sort_nil_inv in H. now destruct globalReports.
    + intros ->. reflexivity.
Qed.

Lemma globalEntries_sorted_by_count_and_total_witness :
  StronglySorted (fun a b => total b <= total a) (globalEntries sampleGlobal)
  /\ Permutation (map city (globalEntries sampleGlobal)) (keys sampleGlobal)
  /\ Forall
       (fun e =>
          StronglySorted (fun a b => snd b <= snd a) (diseases e)
          /\ total e = JSArray.sum (map snd (diseases e))
          /\ Z.abs (total e) <= 2 ^ 53
          /\ Forall (fun kv => Z.abs (snd kv) <= 2 ^ 53) (diseases e)
          /\ exists dis,
               In (city e, dis) (entries sampleGlobal)
               /\ Permutation (diseases e) (entries dis))
       (globalEntries sampleGlobal)
  /\ (globalEntries sampleGlobal = [] <-> sampleGlobal = []).
Proof.
  apply (globalEntries_sorted_by_count_and_total sampleGlobal).
  vm_compute. reflexivity.
Defined.

End OutbreakMore.

(* ------------------------------------------------------------------ *)
(** ** The dashboards: from the report form to the outbreak box *)

Module DashboardFacts.
Import JSString JSObject JSArray Dashboard Notions.
Import JSObjectFacts JSArrayFacts JSStringFacts OutbreakFacts.
Import JSArrayMore JSStringMore OutbreakMore.

(** *** Writing and removing a child *)

Section Children.
Context {V : Type}.
Implicit Types (o : obj V) (k : string) (v : V).

Lemma insertIndex_Permutation n o k v :
  Permutation (insertIndex n k v o) ((k, v) :: o).
Proof.
  induction o as [|[k0 v0] o IH]; simpl; [reflexivity|].
  destruct (arrayIndex k0) as [m|]; [destruct (n <? m)%N|];
    try reflexivity.
  rewrite IH. apply perm_swap.
Qed.

Lemma set_Permutation_new o k v :
  get o k = None -> Permutation (set k v o) ((k, v) :: o).
Proof.
  intros H. unfold set. rewrite H.
  destruct (arrayIndex k).
  - apply insertIndex_Permutation.
  - symmetry. apply Permutation_cons_append.
Qed.

Lemma removeKey_Permutation o k v :
  get o k = Some v ->
  Permutation o ((k, v) :: Prescription.removeKey k o).
Proof.
  induction o as [|[k0 v0] o IH]; simpl; [discriminate|].
  destruct (String.eqb k k0) eqn:E.
  - apply String.eqb_eq in E; subst k0. intros [= ->]. reflexivity.
  - intros H. rewrite (IH H) at 1. apply perm_swap.
Qed.

Lemma removeKey_absent o k :
  get o k = None -> Prescription.removeKey k o = o.
Proof.
  induction o as [|[k0 v0] o IH]; simpl; [reflexivity|].
  destruct (String.eqb k k0); [discriminate|].
  intros H. now rewrite IH.
Qed.

Lemma removeKey_insertIndex n o k v :
  get o k = None -> Prescription.removeKey k (insertIndex n k v o) = o.
Proof.
  induction o as [|[k0 v0] o IH]; simpl.
  - now rewrite String.eqb_refl.
  - destruct (String.eqb k k0) eqn:E; [discriminate|]. intros H.
    destruct (arrayIndex k0) as [m|]; [destruct (n <? m)%N|]; simpl;
      rewrite ?String.eqb_refl, ?E, ?IH; auto.
Qed.

Lemma removeKey_app_new o k v :
  get o k = None -> Prescription.removeKey k (o ++ [(k, v)]) = o.
Proof.
  induction o as [|[k0 v0] o IH]; simpl.
  - now rewrite String.eqb_refl.
  - destruct (String.eqb k k0) eqn:E; [discriminate|]. intros H.
    now rewrite IH.
Qed.

Lemma removeKey_set_new o k v :
  get o k = None -> Prescription.removeKey k (set k v o) = o.
Proof.
  intros H. unfold set. rewrite H.
  destruct (arrayIndex k).
  - now apply removeKey_insertIndex.
  - now apply removeKey_app_new.
Qed.
End Children.

Section MoreChildren.
Context {V : Type}.
Implicit Types (o : obj V) (k : string) (v : V).

Lemma get_removeKey_other o k k' :
  k' <> k -> get (Prescription.removeKey k o) k' = get o k'.
Proof.
  intros Hne.
  induction o as [|[k0 v0] o IH]; simpl; [reflexivity|].
  destruct (String.eqb k k0) eqn:E.
  - apply String.eqb_eq in E; subst k0.
    apply String.eqb_neq in Hne. now rewrite Hne.
  - simpl. now rewrite IH.
Qed.

Lemma get_removeKey_same o k :
  NoDup (keys o) -> get (Prescription.removeKey k o) k = None.
Proof.
  induction o as [|[k0 v0] o IH]; simpl; [reflexivity|].
  intros Hnd. inversion Hnd as [|? ? Hnotin Hnd']; subst.
  destruct (String.eqb k k0) eqn:E.
  - apply String.eqb_eq in E; subst k0.
    destruct (get o k) as [v|] eqn:Hg; [|reflexivity].
    exfalso. apply Hnotin. apply get_In in Hg.
    change k with (fst (k, v)). now apply in_map.
  - simpl. rewrite E. now apply IH.
Qed.
End MoreChildren.

(** *** The form *)

Lemma truthy_false s : truthy s = false <-> s = EmptyString.
Proof. destruct s; simpl; split; congruence. Qed.

Lemma truthy_true s : truthy s = true <-> s <> EmptyString.
Proof. destruct s; simpl; split; congruence. Qed.

(** What [onSubmit] does once the user and both fields pass its tests. *)
Lemma onSubmit_valid u tf lf key now write reports :
  u <> EmptyString ->
  trim (asString tf) <> EmptyString ->
  trim (asString lf) <> EmptyString ->
  onSubmit (Some u) tf lf key now write reports =
  match write with
  | WriteDone =>
      (set key (mkStored key (trim (asString tf)) (trim (asString lf)) u now)
           reports,
       ReportSubmitted)
  | WriteRejected (Some message) => (reports, FailedToSubmit message)
  | WriteRejected None => (reports, FailedToSubmit "Please try again")
  end.
Proof.
  intros Hu Ht Hl. unfold onSubmit.
  apply truthy_true in Hu, Ht, Hl. rewrite Hu, Ht, Hl. reflexivity.
Qed.

Lemma onSubmit_submitted uid tf lf key now write reports :
  snd (onSubmit uid tf lf key now write reports) = ReportSubmitted ->
  exists u,
    uid = Some u /\ u <> EmptyString
    /\ trim (asString tf) <> EmptyString
    /\ trim (asString lf) <> EmptyString
    /\ write = WriteDone.
Proof.
  unfold onSubmit.
  destruct uid as [u|]; [|discriminate].
  destruct (truthy u) eqn:Hu; [|discriminate]. cbn [negb].
  destruct (truthy (trim (asString tf))) eqn:Ht; [|discriminate].
  destruct (truthy (trim (asString lf))) eqn:Hl; [|discriminate].
  cbn [negb orb].
  destruct write as [|[m|]]; try discriminate.
  intros _. exists u. repeat split; try now apply truthy_true.
Qed.

Lemma onSubmit_not_submitted uid tf lf key now write reports :
  snd (onSubmit uid tf lf key now write reports) <> ReportSubmitted ->
  fst (onSubmit uid tf lf key now write reports) = reports.
Proof.
  unfold onSubmit.
  destruct uid as [u|]; [|reflexivity].
  destruct (negb (truthy u)); [reflexivity|].
  destruct (negb (truthy (trim (asString tf)))
            || negb (truthy (trim (asString lf)))); [reflexivity|].
  destruct write as [|[m|]]; try reflexivity.
  simpl. congruence.
Qed.

(** X10.  The report form writes a report exactly when a user with a
    non-empty id is signed in, both fields are non-empty after trimming
    and the write goes through; otherwise the stored reports are left as
    they were.  The report written sits under the pushed key, carries
    that key as id, the user's id, the time of the call and the two
    trimmed, non-empty fields, and no other stored report changes. *)
Theorem onSubmit_writes_only_a_valid_report
    (uid : option string) (typeField locationField : FormValue)
    (key : string) (now : Z) (write : Write) (reports : obj Stored) :
  let result := onSubmit uid typeField locationField key now write reports in
  (snd result = ReportSubmitted <->
   exists u,
     uid = Some u /\ u <> EmptyString
     /\ trim (asString typeField) <> EmptyString
     /\ trim (asString locationField) <> EmptyString
     /\ write = WriteDone)
  /\ (snd result <> ReportSubmitted -> fst result = reports)
  /\ (snd result = ReportSubmitted ->
      exists r,
        get (fst result) key = Some r
        /\ fromForm r
        /\ id r = key
        /\ uid = Some (userId r)
        /\ createdAt r = now
        /\ type r = trim (asString typeField)
        /\ location r = trim (asString locationField)
        /\ forall k, k <> key -> get (fst result) k = get reports k).
Proof.
  intros result. subst result.
  split; [split|split].
  - apply onSubmit_submitted.
  - intros (u & -> & Hu & Ht & Hl & ->).
    now rewrite onSubmit_valid.
  - apply onSubmit_not_submitted.
  - intros H.
    destruct (onSubmit_submitted _ _ _ _ _ _ _ H)
      as (u & -> & Hu & Ht & Hl & ->).
    rewrite onSubmit_valid by assumption. cbn [fst].
    eexists. split; [apply get_set_same|].
    cbn [id userId createdAt type location].
    split; [|repeat split].
    + unfold fromForm. cbn [type location].
      rewrite !trim_idempotent. now repeat split.
    + intros k Hk. now apply get_set_other.
Qed.

Lemma onSubmit_writes_only_a_valid_report_witness :
  fst (onSubmit (Some "u1") (Text " Flu ") (Text "Pune") "k1" 7
         (WriteRejected None) [])
  = [].
Proof.
  apply (proj1 (proj2 (onSubmit_writes_only_a_valid_report
                         (Some "u1"%string) (Text " Flu ") (Text "Pune")
                         "k1" 7 (WriteRejected None) []))).
  vm_compute. discriminate.
Defined.

(** *** The list of reports *)

Lemma listReports_Permutation s :
  Permutation (listReports s) (map withId (entries s)).
Proof. apply sort_Permutation. Qed.

Lemma ids_withId (s : obj Stored) : map id (map withId s) = keys s.
Proof. rewrite map_map. reflexivity. Qed.

(** X11.  The doctor's list of reports shows every stored report once,
    under its key as id whatever id was stored, newest first; reports
    created at the same instant keep the order of the snapshot, and the
    ids listed are distinct. *)
Theorem listReports_newest_first (snapshot : obj Stored) :
  StronglySorted (fun a b => createdAt b <= createdAt a)
    (listReports snapshot)
  /\ Permutation (listReports snapshot) (map withId (entries snapshot))
  /\ Permutation (map id (listReports snapshot)) (keys snapshot)
  /\ (forall t,
        map id (filter (hasKey createdAt t) (listReports snapshot))
        = keys (filter (fun kd => createdAt (snd kd) =? t)
                       (entries snapshot)))
  /\ (NoDup (keys snapshot) -> NoDup (map id (listReports snapshot))).
Proof.
  assert (Hp : Permutation (map id (listReports snapshot)) (keys snapshot)).
  { rewrite (Permutation_map id (listReports_Permutation snapshot)).
    unfold entries. now rewrite ids_withId. }
  split; [|split; [|split; [|split]]].
  - apply (sort_descending createdAt).
  - apply listReports_Permutation.
  - exact Hp.
  - intros t. unfold listReports.
    rewrite (filter_sort (fun a b => createdAt b - createdAt a) createdAt)
      by (intros x y H; lia).
    rewrite filter_map_swap', map_map. reflexivity.
  - intros Hnd. apply (Permutation_NoDup (l := keys snapshot));
      [now symmetry | exact Hnd].
Qed.

Lemma listReports_newest_first_witness :
  NoDup (map id (listReports
                   [("a"%string, mkStored "x" "flu" "pune" "u" 3);
                    ("b"%string, mkStored "x" "flu" "pune" "u" 5)])).
Proof.
  apply (proj2 (proj2 (proj2 (proj2
           (listReports_newest_first
              [("a"%string, mkStored "x" "flu" "pune" "u" 3);
               ("b"%string, mkStored "x" "flu" "pune" "u" 5)]))))).
  vm_compute. repeat constructor; simpl; intuition discriminate.
Defined.

(** *** From the stored reports to the outbreak box *)

Lemma forallb_map {A B : Type} (f : B -> bool) (g : A -> B) l :
  forallb f (map g l) = forallb (fun a => f (g a)) l.
Proof. induction l as [|a l IH]; simpl; [reflexivity | now rewrite IH]. Qed.

Lemma plain_listReports s :
  forallb Outbreak.plain (map toProps (listReports s))
  = forallb plainStored (values s).
Proof.
  rewrite (forallb_Permutation _ _ _
             (Permutation_map toProps (listReports_Permutation s))).
  unfold values, entries. rewrite !forallb_map. reflexivity.
Qed.

Lemma plainStored_Permutation (s s' : obj Stored) :
  Permutation s s' ->
  forallb plainStored (values s) = forallb plainStored (values s').
Proof.
  intros H. apply forallb_Permutation. unfold values.
  now apply Permutation_map.
Qed.

Lemma outbreakTable_plain s :
  forallb plainStored (values s) = true ->
  outbreakTable s
  = Outbreak.Returns
      (fold_left Outbreak.tally (map toProps (listReports s)) []).
Proof.
  intros H. unfold outbreakTable. apply groupLocal_plain.
  now rewrite plain_listReports.
Qed.

(** The reports of a snapshot with the given normalised fields. *)
Lemma reportedIn_matching s c d :
  forallb plainStored (values s) = true ->
  reportedIn s c d
  = Some (Outbreak.matching c d (map toProps (map withId (entries s)))).
Proof.
  intros H. unfold reportedIn. rewrite (outbreakTable_plain _ H).
  rewrite count_tallied.
  rewrite (matching_Permutation c d _ _
             (Permutation_map toProps (listReports_Permutation s))).
  destruct (Outbreak.matching c d _ =? 0) eqn:E; simpl; [|reflexivity].
  apply Z.eqb_eq in E. now rewrite E.
Qed.

Lemma matching_stored_Permutation (s s' : obj Stored) c d :
  Permutation s s' ->
  Outbreak.matching c d (map toProps (map withId (entries s)))
  = Outbreak.matching c d (map toProps (map withId (entries s'))).
Proof.
  intros H. unfold entries.
  apply matching_Permutation. now do 2 apply Permutation_map.
Qed.

Lemma matching_stored_cons k r (s : obj Stored) c d :
  Outbreak.matching c d (map toProps (map withId (entries ((k, r) :: s))))
  = (if Outbreak.matches c d (toProps r) then 1 else 0)
    + Outbreak.matching c d (map toProps (map withId (entries s))).
Proof. unfold entries. cbn [map]. rewrite matching_cons. reflexivity. Qed.

Lemma cityOf_fromForm r :
  fromForm r ->
  Outbreak.cityOf (toProps r) = toLowerCase (location r)
  /\ Outbreak.diseaseOf (toProps r) = toLowerCase (type r).
Proof.
  intros (Ht & Ht0 & Hl & Hl0).
  unfold Outbreak.cityOf, Outbreak.diseaseOf, Outbreak.normalize. simpl.
  rewrite (truthy_nonempty _ Ht0), (truthy_nonempty _ Hl0).
  now rewrite Ht, Hl.
Qed.

(** X12.  Among stored reports none of whose fields reads [constructor]
    or [__proto__], a report with such fields submitted through the form
    under a new key raises exactly one cell of the doctor's outbreak box
    by one, the cell of its lower-cased trimmed location and type, and
    leaves every other cell as it was; deleting that report restores the
    stored reports. *)
Theorem submitted_report_raises_one_cell
    (u : string) (typeField locationField : FormValue) (key : string)
    (now : Z) (reports reports' : obj Stored) (c d : string) :
  get reports key = None ->
  onSubmit (Some u) typeField locationField key now WriteDone reports
  = (reports', ReportSubmitted) ->
  forallb plainStored (values reports) = true ->
  Outbreak.inheritedName (toLowerCase (trim (asString locationField))) = false ->
  Outbreak.inheritedName (toLowerCase (trim (asString typeField))) = false ->
  exists n,
    reportedIn reports c d = Some n
    /\ reportedIn reports' c d
       = Some (n + (if String.eqb c (toLowerCase (trim (asString locationField)))
                       && String.eqb d (toLowerCase (trim (asString typeField)))
                    then 1 else 0))
    /\ deleteReport key reports' = reports.
Proof.
  intros Hnew Hsub Hplain Hloc Htype.
  assert (Hs : snd (onSubmit (Some u) typeField locationField key now
                      WriteDone reports) = ReportSubmitted)
    by now rewrite Hsub.
  destruct (onSubmit_submitted _ _ _ _ _ _ _ Hs)
    as (u' & Hu' & Hu & Ht & Hl & _).
  injection Hu' as <-.
  rewrite onSubmit_valid in Hsub by assumption.
  injection Hsub as <-.
  set (data := mkStored key (trim (asString typeField))
                 (trim (asString locationField)) u now).
  assert (Hf : fromForm data).
  { unfold fromForm, data. cbn [type location].
    rewrite !trim_idempotent. now repeat split. }
  destruct (cityOf_fromForm _ Hf) as [Hc Hd].
  assert (Hpd : plainStored data = true).
  { unfold plainStored, Outbreak.plain. rewrite Hc, Hd.
    unfold data. cbn [type location]. now rewrite Hloc, Htype. }
  assert (Hplain' : forallb plainStored (values (set key data reports)) = true).
  { rewrite (plainStored_Permutation _ _
               (set_Permutation_new reports key data Hnew)).
    unfold values. cbn [map forallb snd]. now rewrite Hpd. }
  eexists. split; [now apply reportedIn_matching|].
  split.
  - rewrite (reportedIn_matching _ _ _ Hplain').
    rewrite (matching_stored_Permutation _ _ c d
               (set_Permutation_new reports key data Hnew)).
    rewrite matching_stored_cons. f_equal.
    unfold Outbreak.matches. rewrite Hc, Hd. unfold data. cbn [type location].
    rewrite (String.eqb_sym _ c), (String.eqb_sym _ d). lia.
  - unfold deleteReport. now apply removeKey_set_new.
Qed.

Lemma submitted_report_raises_one_cell_witness :
  exists n,
    reportedIn [("k0"%string, mkStored "k0" "flu" "Pune" "u0" 3)] "pune" "flu"
    = Some n
    /\ reportedIn
         [("k0"%string, mkStored "k0" "flu" "Pune" "u0" 3);
          ("k1"%string, mkStored "k1" "Flu" "pune" "u1" 7)]
         "pune" "flu"
       = Some (n + 1)
    /\ deleteReport "k1"
         [("k0"%string, mkStored "k0" "flu" "Pune" "u0" 3);
          ("k1"%string, mkStored "k1" "Flu" "pune" "u1" 7)]
       = [("k0"%string, mkStored "k0" "flu" "Pune" "u0" 3)].
Proof.
  apply (submitted_report_raises_one_cell "u1" (Text " Flu ") (Text "pune ")
           "k1" 7 [("k0"%string, mkStored "k0" "flu" "Pune" "u0" 3)]).
  - vm_compute. reflexivity.
  - vm_compute. reflexivity.
  - vm_compute. reflexivity.
  - vm_compute. reflexivity.
  - vm_compute. reflexivity.
Defined.

(** X13.  Among stored reports none of whose fields reads [constructor]
    or [__proto__], deleting a report lowers by one the cell of the
    outbreak box that counted it and no other.  For any stored reports,
    nothing is stored under the key afterwards, every other key holds
    what it held, and deleting under a key that holds nothing changes
    nothing. *)
Theorem deleted_report_lowers_one_cell
    (reportId : string) (reports : obj Stored) :
  NoDup (keys reports) ->
  (forallb plainStored (values reports) = true ->
   forall r c d,
     get reports reportId = Some r ->
     exists n,
       reportedIn reports c d = Some n
       /\ reportedIn (deleteReport reportId reports) c d
          = Some (n - (if Outbreak.matches c d (toProps r) then 1 else 0)))
  /\ get (deleteReport reportId reports) reportId = None
  /\ (forall k, k <> reportId ->
        get (deleteReport reportId reports) k = get reports k)
  /\ (get reports reportId = None ->
      deleteReport reportId reports = reports).
Proof.
  intros Hnd. unfold deleteReport.
  split; [|split; [|split]].
  - intros Hplain r c d Hr.
    pose proof (removeKey_Permutation _ _ _ Hr) as Hperm.
    assert (Hplain' :
              forallb plainStored
                (values (Prescription.removeKey reportId reports)) = true).
    { rewrite (plainStored_Permutation _ _ Hperm) in Hplain.
      unfold values in Hplain. cbn [map forallb] in Hplain.
      now apply andb_true_iff in Hplain as [_ H]. }
    eexists. split; [now apply reportedIn_matching|].
    rewrite (reportedIn_matching _ _ _ Hplain').
    rewrite (matching_stored_Permutation _ _ c d Hperm).
    rewrite matching_stored_cons. f_equal. lia.
  - now apply get_removeKey_same.
  - intros k Hk. now apply get_removeKey_other.
  - apply removeKey_absent.
Qed.

Lemma deleted_report_lowers_one_cell_witness :
  exists n,
    reportedIn
      [("k0"%string, mkStored "k0" "flu" "Pune" "u0" 3);
       ("k1"%string, mkStored "k1" "Flu" "pune" "u1" 7)]
      "pune" "flu"
    = Some n
    /\ reportedIn
         (deleteReport "k0"
            [("k0"%string, mkStored "k0" "flu" "Pune" "u0" 3);
             ("k1"%string, mkStored "k1" "Flu" "pune" "u1" 7)])
         "pune" "flu"
       = Some (n - 1).
Proof.
  refine (proj1 (deleted_report_lowers_one_cell "k0"
                   [("k0"%string, mkStored "k0" "flu" "Pune" "u0" 3);
                    ("k1"%string, mkStored "k1" "Flu" "pune" "u1" 7)] _)
            _ (mkStored "k0" "flu" "Pune" "u0" 3) "pune"%string "flu"%string _).
  - vm_compute. repeat constructor; simpl; intuition discriminate.
  - vm_compute. reflexivity.
  - vm_compute. reflexivity.
Defined.

(** X14.  For stored reports none of whose fields reads [constructor] or
    [__proto__], the doctor's outbreak box accounts for every stored
    report exactly once: its totals add up to the number of stored
    reports, and the number it holds for a city and a disease is the
    number of stored reports with these normalised fields, whatever
    their creation times.  When all of them came from the form, every
    city shown is the lower-cased location of a stored report and is not
    empty. *)
Theorem outbreakSummary_counts_the_stored_reports (snapshot : obj Stored) :
  forallb plainStored (values snapshot) = true ->
  exists shown,
    outbreakSummary snapshot = Some shown
    /\ JSArray.sum (map Outbreak.total shown)
       = Z.of_nat (List.length (entries snapshot))
    /\ (forall c d,
          reportedIn snapshot c d
          = Some
              (Z.of_nat
                 (List.length
                    (filter (fun kd => Outbreak.matches c d (toProps (snd kd)))
                            (entries snapshot)))))
    /\ (Forall fromForm (values snapshot) ->
        forall e,
          In e shown ->
          Outbreak.city e <> EmptyString
          /\ exists k r,
               In (k, r) (entries snapshot)
               /\ Outbreak.city e = toLowerCase (location r)).
Proof.
  intros Hplain. unfold outbreakSummary.
  rewrite (outbreakTable_plain _ Hplain).
  eexists. split; [reflexivity|].
  split; [|split].
  - rewrite (proj1 (tallied_totals_add_up _)).
    rewrite length_map.
    rewrite (Permutation_length (listReports_Permutation snapshot)).
    now rewrite length_map.
  - intros c d. rewrite (reportedIn_matching _ _ _ Hplain).
    unfold Outbreak.matching.
    rewrite map_map, filter_map_swap', length_map. reflexivity.
  - intros Hall e He.
    destruct (entry_row _ _ (distinctKeys_tallied _) He) as [dis [Hrow _]].
    assert (Hpos : Outbreak.inCity (Outbreak.city e)
                     (map toProps (listReports snapshot)) <> 0).
    { intros H0. apply row_tallied in H0. congruence. }
    apply inCity_pos in Hpos as [p [Hp Hc]].
    apply in_map_iff in Hp as [r' [<- Hr']].
    apply (Permutation_in _ (listReports_Permutation snapshot)) in Hr'.
    apply in_map_iff in Hr' as [[k r] [<- Hin]].
    assert (Hf : fromForm r).
    { rewrite Forall_forall in Hall. apply Hall.
      unfold values. change r with (snd (k, r)). now apply in_map. }
    destruct (cityOf_fromForm (withId (k, r))) as [Hcity _];
      [exact Hf|].
    rewrite Hcity in Hc. cbn [withId location snd] in Hc.
    split.
    + rewrite <- Hc. apply toLowerCase_nonempty. apply Hf.
    + exists k, r. split; [exact Hin | now symmetry].
Qed.

Lemma outbreakSummary_counts_the_stored_reports_witness :
  exists shown,
    outbreakSummary
      [("k0"%string, mkStored "k0" "flu" "Pune" "u0" 3);
       ("k1"%string, mkStored "k1" "Flu" "pune" "u1" 7)]
    = Some shown
    /\ JSArray.sum (map Outbreak.total shown) = 2
    /\ (forall c d,
          reportedIn
            [("k0"%string, mkStored "k0" "flu" "Pune" "u0" 3);
             ("k1"%string, mkStored "k1" "Flu" "pune" "u1" 7)] c d
          = Some
              (Z.of_nat
                 (List.length
                    (filter (fun kd => Outbreak.matches c d (toProps (snd kd)))
                            (entries
                               [("k0"%string, mkStored "k0" "flu" "Pune" "u0" 3);
                                ("k1"%string, mkStored "k1" "Flu" "pune" "u1" 7)])))))
    /\ (Forall fromForm
          (values [("k0"%string, mkStored "k0" "flu" "Pune" "u0" 3);
                   ("k1"%string, mkStored "k1" "Flu" "pune" "u1" 7)]) ->
        forall e,
          In e shown ->
          Outbreak.city e <> EmptyString
          /\ exists k r,
               In (k, r)
                  (entries [("k0"%string, mkStored "k0" "flu" "Pune" "u0" 3);
                            ("k1"%string, mkStored "k1" "Flu" "pune" "u1" 7)])
               /\ Outbreak.city e = toLowerCase (location r)).
Proof.
  apply (outbreakSummary_counts_the_stored_reports
           [("k0"%string, mkStored "k0" "flu" "Pune" "u0" 3);
            ("k1"%string, mkStored "k1" "Flu" "pune" "u1" 7)]).
  vm_compute. reflexivity.
Defined.

End DashboardFacts.

(* ------------------------------------------------------------------ *)
(** ** More on the global fetch *)

Module GlobalFetchMore.
Import JSString GlobalFetch GlobalFetchFacts.

(** *** When the regular expression matches *)

Lemma string_app_assoc (a b c : string) :
  ((a ++ b) ++ c = a ++ (b ++ c))%string.
Proof. induction a as [|x a IH]; simpl; [reflexivity | now rewrite IH]. Qed.

Lemma fromFirstOpen_app pre rest :
  exists q,
    fromFirstOpen (pre ++ String openBrace rest)%string
    = Some (String openBrace (q ++ rest)%string).
Proof.
  induction pre as [|c pre IH]; simpl.
  - exists EmptyString. reflexivity.
  - destruct (Ascii.eqb c openBrace) eqn:E; [|exact IH].
    apply Ascii.eqb_eq in E; subst c.
    exists (pre ++ String openBrace EmptyString)%string.
    now rewrite string_app_assoc.
Qed.

Lemma upToLastClose_app a post :
  exists b, upToLastClose (a ++ String closeBrace post)%string = Some b.
Proof.
  induction a as [|c a [b IH]].
  - cbn [append upToLastClose].
    destruct (upToLastClose post); eexists; reflexivity.
  - cbn [append upToLastClose]. rewrite IH. eexists; reflexivity.
Qed.

Lemma upToLastClose_closed a :
  upToLastClose (a ++ String closeBrace EmptyString)%string
  = Some (a ++ String closeBrace EmptyString)%string.
Proof.
  induction a as [|c a IH]; [reflexivity|].
  cbn [append upToLastClose]. now rewrite IH.
Qed.

(** X15.  The regular expression finds a block exactly in a text that
    has an opening brace with a closing brace somewhere after it, so the
    second parse attempt is made on every such text and on no other; the
    block it extracts is left as it is when extracted from again. *)
Theorem matchBraces_matches_iff_braces_in_order :
  (forall text,
      (exists block, matchBraces text = Some block) <->
      exists pre mid post,
        text = (pre ++ String openBrace (mid ++ String closeBrace post))%string)
  /\ (forall text block,
        matchBraces text = Some block -> matchBraces block = Some block).
Proof.
  split.
  - intros text. split.
    + intros [block H].
      destruct (matchBraces_spec _ _ H)
        as (pre & inner & post & -> & -> & _ & _).
      exists pre, inner, post. simpl. now rewrite string_app_assoc.
    + intros (pre & mid & post & ->). unfold matchBraces.
      destruct (fromFirstOpen_app pre (mid ++ String closeBrace post)%string)
        as [q ->].
      rewrite <- string_app_assoc.
      apply (upToLastClose_app (String openBrace (q ++ mid))).
  - intros text block H.
    destruct (matchBraces_spec _ _ H)
      as (pre & inner & post & _ & -> & _ & _).
    unfold matchBraces. cbn [append fromFirstOpen].
    rewrite Ascii.eqb_refl.
    apply (upToLastClose_closed (String openBrace inner)).
Qed.

Lemma matchBraces_matches_iff_braces_in_order_witness :
  matchBraces "{a}" = Some "{a}"%string.
Proof.
  apply (proj2 matchBraces_matches_iff_braces_in_order
           "x {a} y"%string "{a}"%string).
  vm_compute. reflexivity.
Defined.

(** *** What one call changes *)

Section Calls.
Variable JSON_parse : string -> option json.

Lemma fetch_unconfigured env captured net st :
  configured (API_KEY env) = false \/ configured (API_URL env) = false ->
  fetchGlobalOutbreaks JSON_parse env captured net st
  = (mkState (globalReports st) (isLoading st)
       (Some "API key or URL is missing. Please check your environment configuration."%string)
       (retryCount st),
     []).
Proof.
  intros H. unfold fetchGlobalOutbreaks.
  destruct H as [-> | ->]; cbn [negb orb]; [reflexivity|].
  now rewrite orb_true_r.
Qed.

Lemma fetch_success env captured net st v :
  configured (API_KEY env) = true -> configured (API_URL env) = true ->
  tryFetch JSON_parse net = inl v ->
  fetchGlobalOutbreaks JSON_parse env captured net st
  = (mkState v false None 0, []).
Proof.
  intros Hk Hu Hv. unfold fetchGlobalOutbreaks.
  rewrite Hk, Hu, Hv. reflexivity.
Qed.

Lemma fetch_failure env captured net st err :
  configured (API_KEY env) = true -> configured (API_URL env) = true ->
  tryFetch JSON_parse net = inr err ->
  fetchGlobalOutbreaks JSON_parse env captured net st
  = if captured <? maxRetries then
      (mkState (globalReports st) false
         (Some ("Retrying... Failed to fetch global outbreaks: "
                ++ errorMessage err)%string)
         (retryCount st + 1),
       [2000 * (captured + 1)])
    else
      (mkState (globalReports st) false
         (Some ("Failed to fetch global outbreaks after "
                ++ showNumber maxRetries ++ " retries: "
                ++ errorMessage err)%string)
         (retryCount st),
       []).
Proof.
  intros Hk Hu Hv. unfold fetchGlobalOutbreaks.
  rewrite Hk, Hu, Hv. reflexivity.
Qed.

(** X16.  A call of the fetch replaces the table shown only by a table
    it has just parsed, and then it clears the error, resets the retry
    count to zero and sets no timer; in every other case the table stays
    as it was and an error message is shown.  A call sets at most one
    timer, and only on behalf of a callback that closed over a count
    below 3; the retry count in the state never goes down except to the
    zero of a success; with the configuration missing nothing but the
    error message changes. *)
Theorem fetch_keeps_the_table_unless_it_parsed_one
    (env : Env) (captured : Z) (net : Network) (st : State) :
  let r := fetchGlobalOutbreaks JSON_parse env captured net st in
  ((exists v,
      tryFetch JSON_parse net = inl v
      /\ configured (API_KEY env) = true /\ configured (API_URL env) = true
      /\ r = (mkState v false None 0, []))
   \/ (globalReports (fst r) = globalReports st
       /\ error (fst r) <> None
       /\ retryCount st <= retryCount (fst r) <= retryCount st + 1))
  /\ (snd r = []
      \/ (snd r = [2000 * (captured + 1)] /\ captured < 3
          /\ retryCount (fst r) = retryCount st + 1
          /\ isLoading (fst r) = false))
  /\ (configured (API_KEY env) = false \/ configured (API_URL env) = false ->
      snd r = []
      /\ globalReports (fst r) = globalReports st
      /\ isLoading (fst r) = isLoading st
      /\ retryCount (fst r) = retryCount st)
  /\ (configured (API_KEY env) = true -> configured (API_URL env) = true ->
      isLoading (fst r) = false).
Proof.
  intros r. subst r.
  destruct (configured (API_KEY env)) eqn:Hk;
    [destruct (configured (API_URL env)) eqn:Hu|].
  - destruct (tryFetch JSON_parse net) as [v|err] eqn:Hv.
    + rewrite (fetch_success _ _ _ _ _ Hk Hu Hv). cbn [fst snd].
      split; [left; exists v; now repeat split|].
      split; [now left|]. split; [intros [H|H]; discriminate|].
      reflexivity.
    + rewrite (fetch_failure _ _ _ _ _ Hk Hu Hv).
      unfold maxRetries.
      destruct (captured <? 3) eqn:E; cbn [fst snd globalReports error
        retryCount isLoading].
      * apply Z.ltb_lt in E.
        split; [right; repeat split; try discriminate; lia|].
        split; [right; now repeat split|].
        split; [intros [H|H]; discriminate|]. reflexivity.
      * split; [right; repeat split; try discriminate; lia|].
        split; [now left|].
        split; [intros [H|H]; discriminate|]. reflexivity.
  - rewrite fetch_unconfigured by now right.
    cbn [fst snd globalReports error retryCount isLoading].
    split; [right; repeat split; try discriminate; lia|].
    split; [now left|]. split; [now repeat split|]. discriminate.
  - rewrite fetch_unconfigured by now left.
    cbn [fst snd globalReports error retryCount isLoading].
    split; [right; repeat split; try discriminate; lia|].
    split; [now left|]. split; [now repeat split|]. discriminate.
Qed.

End Calls.

Lemma fetch_keeps_the_table_unless_it_parsed_one_witness :
  isLoading
    (fst (fetchGlobalOutbreaks sampleParse sampleEnv 0
            (FetchRejects NotAnError)
            (mkState (JsonObject []) true None 0)))
  = false.
Proof.
  apply (proj2 (proj2 (proj2
           (fetch_keeps_the_table_unless_it_parsed_one sampleParse sampleEnv 0
              (FetchRejects NotAnError)
              (mkState (JsonObject []) true None 0))))).
  - reflexivity.
  - reflexivity.
Defined.

End GlobalFetchMore.

(* ------------------------------------------------------------------ *)
(** ** More on the prescription chat *)

Module PrescriptionMore.
Import JSString JSObject JSArray Prescription Notions.
Import JSObjectFacts JSArrayFacts JSStringFacts PrescriptionFacts.
Import JSArrayMore.

(** *** Components stay where they are *)

Lemma nth_error_alterAt i f l :
  nth_error (alterAt i f l) i = option_map f (nth_error l i).
Proof.
  revert i. induction l as [|c l IH]; intros [|i]; simpl; auto.
Qed.

Lemma nth_error_alterAt_other i j f l :
  i <> j -> nth_error (alterAt i f l) j = nth_error l j.
Proof.
  revert i j. induction l as [|c l IH]; intros [|i] [|j] H; simpl; auto;
    try congruence.
Qed.

Section Carried.
Variable R : Component -> Component -> Prop.
Hypothesis R_refl : forall c, R c c.
Hypothesis R_trans : forall a b c, R a b -> R b c -> R a c.

Lemma carried_refl l : carried R l l.
Proof. intros i c H. now exists c. Qed.

Lemma carried_trans l1 l2 l3 :
  carried R l1 l2 -> carried R l2 l3 -> carried R l1 l3.
Proof.
  intros H12 H23 i c H.
  destruct (H12 _ _ H) as [c2 [H2 R2]].
  destruct (H23 _ _ H2) as [c3 [H3 R3]].
  exists c3. split; [exact H3 | eauto].
Qed.

Lemma carried_map g l : (forall c, R c (g c)) -> carried R l (map g l).
Proof.
  intros Hg i c H. exists (g c). split; [|apply Hg].
  rewrite nth_error_map, H. reflexivity.
Qed.

Lemma carried_alterAt j f l : (forall c, R c (f c)) -> carried R l (alterAt j f l).
Proof.
  intros Hf i c H.
  destruct (Nat.eq_dec j i) as [->|Hne].
  - exists (f c). split; [|apply Hf].
    rewrite nth_error_alterAt, H. reflexivity.
  - exists c. split; [|apply R_refl].
    now rewrite nth_error_alterAt_other.
Qed.

Lemma carried_app l x : carried R l (l ++ [x]).
Proof.
  intros i c H. exists c. split; [|apply R_refl].
  rewrite nth_error_app1; [exact H|].
  apply nth_error_Some. congruence.
Qed.

Hypothesis R_onMessages : forall data c, R c (onMessages data c).
Hypothesis R_onPayment : forall ps c, R c (onPayment ps c).
Hypothesis R_withInputText : forall s c, R c (withInputText s c).
Hypothesis R_withForm : forall f c, R c (withForm f c).
Hypothesis R_withPopup : forall b c, R c (withPopup b c).
Hypothesis R_withShown : forall l c, R c (withShown l c).
Hypothesis R_withPatientId : forall pid c, R c (withPatientId pid c).

Lemma carried_local i f w :
  (forall c, R c (f c)) -> carried R (sessions w) (sessions (local i f w)).
Proof. intros H. now apply carried_alterAt. Qed.

Lemma carried_writeMessages t f w :
  carried R (sessions w) (sessions (writeMessages t f w)).
Proof.
  unfold writeMessages, deliverMessages. cbn [sessions].
  apply carried_map. intros c. destruct (listens t c); auto.
Qed.

Lemma carried_setPayment t ps w :
  carried R (sessions w) (sessions (setPayment t ps w)).
Proof.
  unfold setPayment, deliverPayment. cbn [sessions].
  apply carried_map. intros c. destruct (listens t c); auto.
Qed.

Lemma R_subscribe d c : R c (subscribe d c).
Proof.
  unfold subscribe. destruct (subscribedTo c); [|apply R_refl].
  eapply R_trans; [apply R_onMessages | apply R_onPayment].
Qed.

Variable env : Env.
Variable searchLinks : string -> string.

Lemma carried_fetchBuyLinks i c medicines reply st w :
  carried R (sessions w)
    (sessions (fetchBuyLinks env searchLinks i c medicines reply st w)).
Proof.
  unfold fetchBuyLinks.
  destruct (negb (present (API_KEY env)) || negb (present (API_URL env))).
  - apply carried_local. intros c'. apply R_withShown.
  - destruct reply.
    + apply carried_local. intros c'. apply R_withShown.
    + apply carried_writeMessages.
Qed.

Lemma carried_handle i c e w :
  carried R (sessions w) (sessions (handle env searchLinks i c e w)).
Proof.
  destruct e; cbn [handle].
  - now apply carried_local.
  - apply carried_local. intros c'. apply R_withForm.
  - apply carried_local. intros c'. apply R_withForm.
  - apply carried_local. intros c'. apply R_withForm.
  - apply carried_local. intros c'. apply R_withForm.
  - unfold handleSendChat.
    destruct (negb (truthy (trim (inputText c))) || negb (signedIn c));
      [apply carried_refl|].
    eapply carried_trans; [|now apply carried_local].
    unfold saveMessage. destruct (present (targetOf c));
      [apply carried_writeMessages | apply carried_refl].
  - unfold handleSendPrescription.
    destruct (negb _ || negb _ || negb _ || negb _); [apply carried_refl|].
    destruct (negb _ || negb _); [apply carried_refl|].
    eapply carried_trans; [|now apply carried_local].
    eapply carried_trans; [|apply carried_fetchBuyLinks].
    eapply carried_trans; [|apply carried_setPayment].
    apply carried_writeMessages.
  - unfold handleDeletePrescription.
    destruct (signedIn c); [apply carried_writeMessages | apply carried_refl].
  - unfold handleClearChat.
    destruct (signedIn c); [|apply carried_refl].
    eapply carried_trans; [|now apply carried_local].
    apply carried_writeMessages.
  - unfold handleConfirmPayment.
    destruct (user c); [apply carried_setPayment | apply carried_refl].
  - unfold handleVerifyYes.
    destruct (negb _ || negb _); [apply carried_refl|].
    eapply carried_trans; [|now apply carried_local].
    apply carried_setPayment.
  - unfold handleVerifyNo.
    destruct (negb _ || negb _); [apply carried_refl|].
    eapply carried_trans; [|now apply carried_local].
    apply carried_setPayment.
Qed.

Lemma carried_step w s :
  carried R (sessions w) (sessions (step env searchLinks w s)).
Proof.
  destruct s as [r u pid|i pid|i e]; cbn [step].
  - cbn [sessions]. apply carried_app.
  - destruct (nth_error (sessions w) i) as [c|]; [|apply carried_refl].
    destruct (isDoctor (role c) && truthy pid); [|apply carried_refl].
    apply carried_local. intros c'. unfold select.
    eapply R_trans; [apply R_withPatientId | apply R_subscribe].
  - destruct (nth_error (sessions w) i) as [c|]; [|apply carried_refl].
    destruct (rendered c e); [apply carried_handle | apply carried_refl].
Qed.

Lemma carried_run steps : forall w,
  carried R (sessions w) (sessions (run env searchLinks w steps)).
Proof.
  induction steps as [|s steps IH]; intros w; cbn [run fold_left].
  - apply carried_refl.
  - eapply carried_trans; [apply carried_step | apply IH].
Qed.
End Carried.

(** *** The flag that hides the patient's chat input *)

Lemma keepsFlag_refl c : keepsFlag c c.
Proof. now split. Qed.

Lemma keepsFlag_trans a b c : keepsFlag a b -> keepsFlag b c -> keepsFlag a c.
Proof.
  intros (H1 & H2) (H3 & H4). split; [congruence | auto].
Qed.

Lemma keepsFlag_onMessages data c : keepsFlag c (onMessages data c).
Proof.
  unfold onMessages.
  destruct (JSArray.sort _ _); now split.
Qed.

Lemma keepsFlag_onPayment ps c : keepsFlag c (onPayment ps c).
Proof.
  unfold onPayment. destruct (_ && _); now split.
Qed.

Lemma keepsFlag_update c u : keepsFlag c (update c u).
Proof.
  destruct u; cbn [update];
    first [ apply keepsFlag_onMessages | apply keepsFlag_onPayment
          | now split ].
Qed.

Lemma keepsFlag_updates us : forall c, keepsFlag c (updates c us).
Proof.
  induction us as [|u us IH]; intros c; cbn [updates fold_left].
  - apply keepsFlag_refl.
  - eapply keepsFlag_trans; [apply keepsFlag_update | apply IH].
Qed.

Lemma updates_app c us1 us2 :
  updates c (us1 ++ us2) = updates (updates c us1) us2.
Proof. unfold updates. apply fold_left_app. Qed.

Lemma laterState_refl c : laterState c c.
Proof. now exists []. Qed.

Lemma laterState_trans a b c :
  laterState a b -> laterState b c -> laterState a c.
Proof.
  intros [us1 ->] [us2 ->]. exists (us1 ++ us2). symmetry. apply updates_app.
Qed.

Lemma laterState_update c u : laterState c (update c u).
Proof. now exists [u]. Qed.

Section Flag.
Variable env : Env.
Variable searchLinks : string -> string.

(** A step of the world changes the components that are mounted by
    updates only. *)
Lemma laterState_step w s :
  carried laterState (sessions w) (sessions (step env searchLinks w s)).
Proof.
  apply carried_step;
    first [ exact laterState_refl | exact laterState_trans | idtac ].
  - intros data c. apply (laterState_update c (MessagesSnapshot data)).
  - intros ps c. apply (laterState_update c (PaymentSnapshot ps)).
  - intros s0 c. apply (laterState_update c (SetInputText s0)).
  - intros f c. apply (laterState_update c (SetForm f)).
  - intros b c. apply (laterState_update c (SetPopup b)).
  - intros l c. apply (laterState_update c (SetMessages l)).
  - intros pid c. apply (laterState_update c (NewPatientId pid)).
Qed.

(** X18.  Whatever reaches a box while it is mounted (snapshots of
    either listener, whenever they arrive and whatever they hold,
    another [patientId], a sign-out or another user, the state updates
    of its handlers), its role stays and its flag [hasDoctorSentFirst],
    once raised, is never lowered, not even by clearing the chat or by
    an empty snapshot.  So once the payment panel has replaced a
    patient's chat input, the input, the Send button and the Clear
    button stay away until a snapshot says that the payment is verified.
    The user of the box may change meanwhile.  Every step of the world
    changes the mounted boxes by such updates only. *)
Theorem payment_panel_stays_until_verified (c : Component) (us : list Update) :
  role (updates c us) = role c
  /\ (hasDoctorSentFirst c = true -> hasDoctorSentFirst (updates c us) = true)
  /\ (role c = patient -> paymentPanel c = true ->
      paymentVerified (updates c us) = true
      \/ (paymentPanel (updates c us) = true
          /\ forall s st,
               rendered (updates c us) (ChangeInputText s) = false
               /\ rendered (updates c us) (ClickSend st) = false
               /\ rendered (updates c us) ClickClearChat = false))
  /\ (forall u, user (updates c (us ++ [NewUser u])) = u)
  /\ (forall w s i,
        nth_error (sessions w) i = Some c ->
        exists us',
          nth_error (sessions (step env searchLinks w s)) i
          = Some (updates c us')).
Proof.
  destruct (keepsFlag_updates us c) as (Hr & Hf).
  split; [exact Hr|]. split; [exact Hf|]. split; [|split].
  - intros Hp Hpanel. unfold paymentPanel in Hpanel.
    apply andb_true_iff in Hpanel as [Hflag _].
    destruct (paymentVerified (updates c us)) eqn:Hv; [now left|right].
    assert (Hpanel' : paymentPanel (updates c us) = true)
      by (unfold paymentPanel; now rewrite (Hf Hflag), Hv).
    split; [exact Hpanel'|].
    intros s st. cbn [rendered]. rewrite Hr, Hp, Hpanel'. now repeat split.
  - intros u. now rewrite updates_app.
  - intros w s i Hn.
    destruct (laterState_step w s i c Hn) as [c' [Hn' [us' ->]]].
    now exists us'.
Qed.
End Flag.

Lemma payment_panel_stays_until_verified_witness :
  let us := [ SetMessages []; MessagesSnapshot []; NewUser None;
              PaymentSnapshot Claimed; NewUser (Some "pat2"%string);
              PaymentSnapshot Unclaimed ] in
  user (updates patientView us) = Some "pat2"%string
  /\ paymentPanel (updates patientView us) = true
  /\ rendered (updates patientView us) ClickClearChat = false.
Proof.
  intros us.
  split; [reflexivity|].
  destruct (proj1 (proj2 (proj2
              (payment_panel_stays_until_verified sampleEnv sampleLinks
                 patientView us))) eq_refl eq_refl) as [Hv|[Hp Hr]].
  - vm_compute in Hv. discriminate Hv.
  - split; [exact Hp|].
    exact (proj2 (proj2 (Hr EmptyString (mkStamp EmptyString 0)))).
Defined.

(** *** What a write of messages leaves behind *)

Lemma subscribed_signedIn c t :
  subscribedTo c = Some t ->
  targetOf c = Some t /\ present (targetOf c) = true /\ signedIn c = true.
Proof.
  intros H. split; [now apply subscribedTo_target|].
  unfold subscribedTo, signedIn in *.
  destruct (user c); [|discriminate].
  destruct (present (targetOf c)); [now split | discriminate].
Qed.

Lemma subscribed_listens c t : subscribedTo c = Some t -> listens t c = true.
Proof. intros H. unfold listens. rewrite H. apply String.eqb_refl. Qed.

Lemma shown_onMessages data c : shown (onMessages data c) = delivered data.
Proof. rewrite onMessages_delivered. now destruct (delivered data). Qed.

Lemma flag_onMessages data c :
  hasDoctorSentFirst (onMessages data c)
  = match delivered data with
    | [] => hasDoctorSentFirst c
    | _ :: _ => true
    end.
Proof. rewrite onMessages_delivered. now destruct (delivered data). Qed.

Lemma payment_flags_onMessages data c :
  paymentClaimed (onMessages data c) = paymentClaimed c
  /\ paymentVerified (onMessages data c) = paymentVerified c
  /\ inputText (onMessages data c) = inputText c.
Proof. rewrite onMessages_delivered. now destruct (delivered data). Qed.

Lemma delivered_In data msg : In msg (delivered data) <-> In msg (values data).
Proof. apply sort_In. Qed.

Lemma delivered_nil data : delivered data = [] -> data = [].
Proof.
  intros H. apply sort_nil_inv in H. now destruct data.
Qed.

Lemma other_threads_writeMessages t f w t' :
  t' <> t -> db (writeMessages t f w) t' = db w t'.
Proof.
  intros H. unfold writeMessages, deliverMessages. cbn [db].
  now apply thread_setThread_other.
Qed.

(** Every component listening to the thread is handed the new messages;
    the others are left alone. *)
Lemma sessions_writeMessages t f w j c0 :
  nth_error (sessions w) j = Some c0 ->
  nth_error (sessions (writeMessages t f w)) j
  = Some (if listens t c0
          then onMessages (f (messages (db w t))) c0 else c0).
Proof.
  intros H. unfold writeMessages, deliverMessages. cbn [sessions db].
  rewrite nth_error_map, H. cbn [option_map].
  now rewrite thread_setThread_same.
Qed.

Lemma sessions_local i f w j :
  nth_error (sessions (local i f w)) j
  = if Nat.eqb i j then option_map f (nth_error (sessions w) j)
    else nth_error (sessions w) j.
Proof.
  unfold local. cbn [sessions].
  destruct (Nat.eqb i j) eqn:E.
  - apply Nat.eqb_eq in E; subst j. apply nth_error_alterAt.
  - apply Nat.eqb_neq in E. now apply nth_error_alterAt_other.
Qed.

Section Chat.
Variable env : Env.
Variable searchLinks : string -> string.

Lemma step_sendChat w i c t st :
  nth_error (sessions w) i = Some c ->
  subscribedTo c = Some t ->
  rendered c (ClickSend st) = true ->
  trim (inputText c) <> EmptyString ->
  step env searchLinks w (Act i (ClickSend st))
  = local i (withInputText "")
      (writeMessages t
         (set (newId st)
            (mkMessage (newId st) (senderOf (role c)) chat (inputText c)
               (now st)))
         w).
Proof.
  intros Hi Hs Hr Ht. cbn [step]. rewrite Hi, Hr. cbn [handle].
  unfold handleSendChat, saveMessage, setMessage.
  destruct (subscribed_signedIn _ _ Hs) as (Htarget & Hp & Hu).
  rewrite (truthy_nonempty _ Ht), Hu, Hp, Htarget. reflexivity.
Qed.

(** X19.  A chat message is sent only when the input holds more than
    white space.  Sent from a component that listens to a thread, it is
    stored in that thread under its id, with the sender's role and the
    text as typed; no other message of the thread and no payment record
    changes; every component listening to the thread shows it among the
    thread's messages and has its flag raised; the sender's input is
    cleared.  A patient not yet verified who sends a message is shown the
    payment panel from then on, and no Send button. *)
Theorem sent_chat_message_is_stored_and_shown
    (w : World) (i : nat) (c : Component) (st : Stamp) :
  nth_error (sessions w) i = Some c ->
  let msg :=
    mkMessage (newId st) (senderOf (role c)) chat (inputText c) (now st) in
  let w' := step env searchLinks w (Act i (ClickSend st)) in
  (trim (inputText c) = EmptyString -> w' = w)
  /\ forall t,
       subscribedTo c = Some t ->
       rendered c (ClickSend st) = true ->
       trim (inputText c) <> EmptyString ->
       get (messages (db w' t)) (newId st) = Some msg
       /\ (forall k, k <> newId st ->
             get (messages (db w' t)) k = get (messages (db w t)) k)
       /\ (forall t', payment_status (db w' t') = payment_status (db w t'))
       /\ (forall t', t' <> t -> db w' t' = db w t')
       /\ (forall j c0,
             nth_error (sessions w) j = Some c0 ->
             subscribedTo c0 = Some t ->
             exists c1,
               nth_error (sessions w') j = Some c1
               /\ shown c1 = delivered (messages (db w' t))
               /\ In msg (shown c1)
               /\ hasDoctorSentFirst c1 = true)
       /\ exists c',
            nth_error (sessions w') i = Some c'
            /\ inputText c' = EmptyString
            /\ (role c = patient -> paymentVerified c = false ->
                paymentPanel c' = true
                /\ forall st2, rendered c' (ClickSend st2) = false).
Proof.
  intros Hi msg w'. split.
  - intros Hblank. subst w'. cbn [step]. rewrite Hi.
    destruct (rendered c (ClickSend st)); [|reflexivity].
    cbn [handle]. unfold handleSendChat. now rewrite Hblank.
  - intros t Hs Hr Ht.
    assert (Hw : w' = local i (withInputText "")
                       (writeMessages t (set (newId st) msg) w))
      by (apply step_sendChat; assumption).
    assert (Hm : messages (db w' t) = set (newId st) msg (messages (db w t)))
      by (rewrite Hw, db_local; apply messages_writeMessages).
    clearbody w'.
    assert (Hin : In msg (delivered (messages (db w' t)))).
    { apply delivered_In. rewrite Hm. unfold values.
      change msg with (snd (newId st, msg)). apply in_map.
      apply get_In, get_set_same. }
    assert (Hsess : forall j c0,
               nth_error (sessions w) j = Some c0 ->
               subscribedTo c0 = Some t ->
               exists c1,
                 nth_error (sessions w') j = Some c1
                 /\ shown c1 = delivered (messages (db w' t))
                 /\ hasDoctorSentFirst c1 = true
                 /\ paymentVerified c1 = paymentVerified c0
                 /\ role c1 = role c0
                 /\ (j = i -> inputText c1 = EmptyString)).
    { intros j c0 Hj Hs0.
      pose proof (sessions_writeMessages t (set (newId st) msg) w j c0 Hj)
        as Hj'.
      rewrite (subscribed_listens _ _ Hs0) in Hj'.
      assert (Hn : nth_error (sessions w') j
                   = Some (if Nat.eqb i j
                           then withInputText ""
                                  (onMessages (messages (db w' t)) c0)
                           else onMessages (messages (db w' t)) c0)).
      { rewrite Hm, Hw, sessions_local, Hj'. now destruct (Nat.eqb i j). }
      assert (Hflag : hasDoctorSentFirst (onMessages (messages (db w' t)) c0)
                      = true).
      { rewrite flag_onMessages.
        destruct (delivered (messages (db w' t))); [destruct Hin | reflexivity]. }
      destruct (payment_flags_onMessages (messages (db w' t)) c0)
        as (_ & Hv & _).
      eexists. split; [exact Hn|].
      destruct (Nat.eqb i j) eqn:E.
      - cbn [withInputText shown hasDoctorSentFirst paymentVerified role
               inputText].
        rewrite shown_onMessages, role_onMessages. now repeat split.
      - rewrite shown_onMessages, role_onMessages.
        repeat split; try assumption.
        intros ->. now rewrite Nat.eqb_refl in E. }
    split; [rewrite Hm; apply get_set_same|].
    split; [intros k Hk; rewrite Hm; now apply get_set_other|].
    split; [intros t'; rewrite Hw, db_local; apply status_writeMessages|].
    split; [intros t' Hne; rewrite Hw, db_local;
            now apply other_threads_writeMessages|].
    split.
    + intros j c0 Hj Hs0.
      destruct (Hsess j c0 Hj Hs0) as (c1 & H1 & H2 & H3 & _).
      exists c1. repeat split; try assumption. now rewrite H2.
    + destruct (Hsess i c Hi Hs) as (c1 & H1 & H2 & H3 & H4 & H5 & H6).
      exists c1. split; [exact H1|]. split; [now apply H6|].
      intros Hp Hv.
      assert (Hpanel : paymentPanel c1 = true)
        by (unfold paymentPanel; now rewrite H3, H4, Hv).
      split; [exact Hpanel|].
      intros st2. cbn [rendered]. now rewrite H5, Hp, Hpanel.
Qed.
End Chat.

Lemma sent_chat_message_is_stored_and_shown_witness :
  get (messages
         (db (step sampleEnv sampleLinks patientTyping
                (Act 0 (ClickSend (mkStamp "m1" 5))))
             "pat"))
      "m1"
  = Some (mkMessage "m1" byPatient chat "hello" 5).
Proof.
  refine (proj1 (proj2 (sent_chat_message_is_stored_and_shown
                          sampleEnv sampleLinks patientTyping 0 typist
                          (mkStamp "m1" 5) _)
                   "pat"%string _ _ _)).
  - vm_compute. reflexivity.
  - vm_compute. reflexivity.
  - vm_compute. reflexivity.
  - vm_compute. discriminate.
Defined.

(** *** The messages callback *)

(** X20.  The messages callback shows exactly the messages of the
    snapshot, oldest first, messages with the same timestamp in the
    order of the snapshot; it raises the flag when the snapshot holds a
    message and leaves it as it was otherwise, and changes nothing else
    in the component. *)
Theorem messages_are_shown_oldest_first (data : obj Message) (c : Component) :
  shown (onMessages data c)
  = JSArray.sort (fun a b => timestamp a - timestamp b) (values data)
  /\ StronglySorted (fun a b => timestamp a <= timestamp b)
       (shown (onMessages data c))
  /\ Permutation (shown (onMessages data c)) (values data)
  /\ (forall ts,
        filter (hasKey timestamp ts) (shown (onMessages data c))
        = filter (hasKey timestamp ts) (values data))
  /\ hasDoctorSentFirst (onMessages data c)
     = match data with [] => hasDoctorSentFirst c | _ :: _ => true end
  /\ props (onMessages data c) = props c
  /\ inputText (onMessages data c) = inputText c
  /\ form (onMessages data c) = form c
  /\ paymentClaimed (onMessages data c) = paymentClaimed c
  /\ paymentVerified (onMessages data c) = paymentVerified c
  /\ showVerificationPopup (onMessages data c) = showVerificationPopup c.
Proof.
  rewrite shown_onMessages. unfold delivered.
  split; [reflexivity|].
  split; [apply (sort_ascending timestamp)|].
  split; [apply sort_Permutation|].
  split.
  { intros ts.
    apply (filter_sort (fun a b => timestamp a - timestamp b) timestamp).
    intros x y H. lia. }
  split.
  { rewrite flag_onMessages.
    destruct (delivered data) eqn:E.
    - apply delivered_nil in E. now subst.
    - destruct data; [discriminate E | reflexivity]. }
  rewrite onMessages_delivered.
  destruct (delivered data); now repeat split.
Qed.

(** *** Clearing and deleting *)

Section Removal.
Variable env : Env.
Variable searchLinks : string -> string.

(** What a write of messages by session [i], followed by a local
    update, leaves in the store and in the components. *)
Lemma after_writeMessages t f g i w :
  let w' := local i g (writeMessages t f w) in
  messages (db w' t) = f (messages (db w t))
  /\ (forall t', payment_status (db w' t') = payment_status (db w t'))
  /\ (forall t', t' <> t -> db w' t' = db w t')
  /\ (forall j c0,
        nth_error (sessions w) j = Some c0 ->
        nth_error (sessions w') j
        = Some ((if Nat.eqb i j then g else fun x => x)
                  (if listens t c0
                   then onMessages (f (messages (db w t))) c0 else c0))).
Proof.
  intros w'. subst w'. rewrite db_local.
  split; [apply messages_writeMessages|].
  split; [intros t'; apply status_writeMessages|].
  split; [intros t' H; now apply other_threads_writeMessages|].
  intros j c0 Hj. rewrite sessions_local.
  rewrite (sessions_writeMessages t f w j c0 Hj).
  now destruct (Nat.eqb i j).
Qed.

(** X21.  Clear chat, pressed by a signed-in user, removes every
    message of the thread the component writes to, and every component
    listening to that thread shows an empty chat; the payment record,
    the other threads and each component's flag and payment state stay
    as they were, so a patient asked to pay is still asked to pay.
    Pressed with no user signed in it does nothing. *)
Theorem clear_chat_empties_the_thread_only
    (w : World) (i : nat) (c : Component) :
  nth_error (sessions w) i = Some c ->
  rendered c ClickClearChat = true ->
  let t := pathOf (targetOf c) in
  let w' := step env searchLinks w (Act i ClickClearChat) in
  (signedIn c = false -> w' = w)
  /\ (signedIn c = true ->
      messages (db w' t) = []
      /\ (forall t', payment_status (db w' t') = payment_status (db w t'))
      /\ (forall t', t' <> t -> db w' t' = db w t')
      /\ (forall j c0,
            nth_error (sessions w) j = Some c0 ->
            exists c1,
              nth_error (sessions w') j = Some c1
              /\ (listens t c0 = true \/ j = i -> shown c1 = [])
              /\ (listens t c0 = false -> j <> i -> c1 = c0)
              /\ hasDoctorSentFirst c1 = hasDoctorSentFirst c0
              /\ paymentClaimed c1 = paymentClaimed c0
              /\ paymentVerified c1 = paymentVerified c0
              /\ paymentPanel c1 = paymentPanel c0)).
Proof.
  intros Hi Hr t w'.
  assert (Hw : w' = if signedIn c
                    then local i (withShown [])
                           (writeMessages t (fun _ => []) w)
                    else w).
  { subst w'. cbn [step]. now rewrite Hi, Hr. }
  clearbody w'. split.
  - intros Hu. now rewrite Hw, Hu.
  - intros Hu. rewrite Hu in Hw. subst w'.
    destruct (after_writeMessages t (fun _ => []) (withShown []) i w)
      as (H1 & H2 & H3 & H4).
    split; [exact H1|]. split; [exact H2|]. split; [exact H3|].
    intros j c0 Hj. eexists. split; [apply (H4 j c0 Hj)|].
    destruct (Nat.eqb i j) eqn:E; destruct (listens t c0) eqn:L;
      rewrite ?onMessages_delivered; cbn;
      (split; [try reflexivity; intros [H|H]; try discriminate H|]);
      try (apply Nat.eqb_neq in E; congruence);
      (split; [try reflexivity; intros H H'; try discriminate H|]);
      try (apply Nat.eqb_eq in E; congruence);
      now repeat split.
Qed.

End Removal.

Lemma clear_chat_empties_the_thread_only_witness :
  messages
    (db (step sampleEnv sampleLinks afterPrescription (Act 0 ClickClearChat))
        "pat")
  = [].
Proof.
  refine (proj1 (proj2 (clear_chat_empties_the_thread_only
                          sampleEnv sampleLinks afterPrescription 0
                          doctorView _ _) _)).
  - vm_compute. reflexivity.
  - vm_compute. reflexivity.
  - vm_compute. reflexivity.
Defined.

Section Deleting.
Variable env : Env.
Variable searchLinks : string -> string.

Lemma not_deletable c msgId :
  (forall msg, In msg (shown c) -> id msg = msgId -> type msg <> prescription) ->
  existsb (deletable msgId) (shown c) = false.
Proof.
  intros H. destruct (existsb (deletable msgId) (shown c)) eqn:E;
    [|reflexivity].
  apply existsb_exists in E as [msg [Hin Hd]].
  unfold deletable in Hd. apply andb_true_iff in Hd as [Hid Hty].
  apply String.eqb_eq in Hid.
  specialize (H msg Hin Hid). now destruct (type msg).
Qed.

(** X22.  The Delete button exists only in a doctor's view and only for
    a prescription that is shown: a patient can delete nothing, and chat
    and purchase-link messages cannot be deleted one by one.  Pressed by
    a signed-in doctor, it removes the message stored under that id from
    the thread and nothing else: the other messages, the payment record
    and the other threads stay, and every component listening to the
    thread shows the messages that are left. *)
Theorem delete_removes_one_prescription
    (w : World) (i : nat) (c : Component) (msgId : string) :
  nth_error (sessions w) i = Some c ->
  let t := pathOf (targetOf c) in
  let w' := step env searchLinks w (Act i (ClickDelete msgId)) in
  (role c = patient
   \/ (forall msg, In msg (shown c) -> id msg = msgId ->
                   type msg <> prescription)
   \/ signedIn c = false ->
   w' = w)
  /\ (rendered c (ClickDelete msgId) = true -> signedIn c = true ->
      messages (db w' t) = removeKey msgId (messages (db w t))
      /\ (NoDup (keys (messages (db w t))) ->
          get (messages (db w' t)) msgId = None)
      /\ (forall k, k <> msgId ->
            get (messages (db w' t)) k = get (messages (db w t)) k)
      /\ (forall t', payment_status (db w' t') = payment_status (db w t'))
      /\ (forall t', t' <> t -> db w' t' = db w t')
      /\ (forall j c0,
            nth_error (sessions w) j = Some c0 ->
            exists c1,
              nth_error (sessions w') j = Some c1
              /\ (listens t c0 = true ->
                  shown c1 = delivered (messages (db w' t)))
              /\ (listens t c0 = false -> c1 = c0))).
Proof.
  intros Hi t w'.
  assert (Hw : w' = if rendered c (ClickDelete msgId)
                    then if signedIn c
                         then writeMessages t (removeKey msgId) w else w
                    else w).
  { subst w'. cbn [step]. now rewrite Hi. }
  clearbody w'. split.
  - intros [Hp | [Hn | Hu]]; rewrite Hw; cbn [rendered].
    + rewrite Hp. reflexivity.
    + rewrite (not_deletable _ _ Hn), andb_false_r. reflexivity.
    + rewrite Hu. now destruct (_ && _).
  - intros Hr Hu. rewrite Hr, Hu in Hw. subst w'.
    assert (Hm : messages (db (writeMessages t (removeKey msgId) w) t)
                 = removeKey msgId (messages (db w t)))
      by apply messages_writeMessages.
    split; [exact Hm|].
    split; [intros Hnd; rewrite Hm; now apply DashboardFacts.get_removeKey_same|].
    split; [intros k Hk; rewrite Hm;
            now apply DashboardFacts.get_removeKey_other|].
    split; [intros t'; apply status_writeMessages|].
    split; [intros t' H; now apply other_threads_writeMessages|].
    intros j c0 Hj. eexists.
    split; [apply (sessions_writeMessages t (removeKey msgId) w j c0 Hj)|].
    destruct (listens t c0).
    + split; [|discriminate]. intros _.
      now rewrite shown_onMessages, Hm.
    + split; [discriminate | reflexivity].
Qed.

(** X23.  When the configuration is missing or the request for purchase
    links fails, nothing is written to the store: a notice is appended
    to the messages shown by the doctor's own component and no other
    component changes, so the patient never sees it.  When the request
    answers, one purchase-link message is stored in the thread under the
    new id: the trimmed answer, or the search links built from the
    medicine names when the answer is missing or blank. *)
Theorem buy_link_errors_stay_local
    (i : nat) (c : Component) (medicines : string) (reply : Reply)
    (st : Stamp) (w : World) :
  let w' := fetchBuyLinks env searchLinks i c medicines reply st w in
  (present (API_KEY env) = false \/ present (API_URL env) = false
   \/ reply = ReplyFails ->
   db w' = db w
   /\ (forall j, j <> i ->
         nth_error (sessions w') j = nth_error (sessions w) j)
   /\ (forall c0,
         nth_error (sessions w) i = Some c0 ->
         exists notice,
           nth_error (sessions w') i
           = Some (withShown (shown c0 ++ [notice]) c0)
           /\ sender notice = byGemini /\ type notice = buyLink
           /\ id notice = newId st /\ timestamp notice = now st))
  /\ (present (API_KEY env) = true -> present (API_URL env) = true ->
      forall answer,
        reply = ReplyData answer ->
        get (messages (db w' (pathOf (targetOf c)))) (newId st)
        = Some (mkMessage (newId st) byGemini buyLink
                  (match answer with
                   | Some a => if truthy (trim a) then trim a
                               else searchLinks medicines
                   | None => searchLinks medicines
                   end)
                  (now st))
        /\ (forall k, k <> newId st ->
              get (messages (db w' (pathOf (targetOf c)))) k
              = get (messages (db w (pathOf (targetOf c)))) k)
        /\ (forall t', payment_status (db w' t') = payment_status (db w t'))).
Proof.
  intros w'. subst w'. split.
  - intros H.
    assert (Hex : exists notice,
               fetchBuyLinks env searchLinks i c medicines reply st w
               = local i (appendShown notice) w
               /\ sender notice = byGemini /\ type notice = buyLink
               /\ id notice = newId st /\ timestamp notice = now st).
    { unfold fetchBuyLinks.
      destruct (present (API_KEY env)) eqn:Hk;
        [destruct (present (API_URL env)) eqn:Hu|]; cbn [negb orb].
      - destruct H as [H | [H | ->]]; try discriminate H.
        eexists. split; [reflexivity|]. now repeat split.
      - eexists. split; [reflexivity|]. now repeat split.
      - eexists. split; [reflexivity|]. now repeat split. }
    destruct Hex as (notice & -> & Hn).
    split; [apply db_local|].
    split.
    + intros j Hj. rewrite sessions_local.
      destruct (Nat.eqb i j) eqn:E; [|reflexivity].
      apply Nat.eqb_eq in E. congruence.
    + intros c0 Hc0. exists notice. split; [|exact Hn].
      rewrite sessions_local, Nat.eqb_refl, Hc0. reflexivity.
  - intros Hk Hu answer ->. unfold fetchBuyLinks.
    rewrite Hk, Hu. cbn [negb orb]. unfold setMessage. cbn [id].
    rewrite messages_writeMessages.
    split.
    + rewrite get_set_same. destruct answer; reflexivity.
    + split; [intros k Hne; now apply get_set_other|].
      intros t'. apply status_writeMessages.
Qed.
End Deleting.

Lemma delete_removes_one_prescription_witness :
  messages
    (db (step sampleEnv sampleLinks afterPrescription (Act 0 (ClickDelete "m1")))
        "pat")
  = removeKey "m1" (messages (db afterPrescription "pat")).
Proof.
  refine (proj1 (proj2 (delete_removes_one_prescription
                          sampleEnv sampleLinks afterPrescription 0
                          doctorView "m1" _) _ _)).
  - vm_compute. reflexivity.
  - vm_compute. reflexivity.
  - vm_compute. reflexivity.
Defined.

Lemma buy_link_errors_stay_local_witness :
  db (fetchBuyLinks sampleEnv sampleLinks 0 doctorView "Paracetamol"
        ReplyFails (mkStamp "m9" 300) afterPrescription)
  = db afterPrescription.
Proof.
  refine (proj1 (proj1 (buy_link_errors_stay_local
                          sampleEnv sampleLinks 0 doctorView "Paracetamol"
                          ReplyFails (mkStamp "m9" 300) afterPrescription)
                   _)).
  right. right. reflexivity.
Defined.

(** *** Sending a prescription *)

Section Sending.
Variable env : Env.
Variable searchLinks : string -> string.

Lemma messages_setPayment t ps w t' :
  messages (db (setPayment t ps w) t') = messages (db w t').
Proof.
  unfold setPayment, deliverPayment. cbn [db]. unfold setThread.
  destruct (String.eqb t' t) eqn:E; [|reflexivity].
  apply String.eqb_eq in E. now subst.
Qed.

Lemma other_threads_setPayment t ps w t' :
  t' <> t -> db (setPayment t ps w) t' = db w t'.
Proof.
  intros H. unfold setPayment, deliverPayment. cbn [db].
  now apply thread_setThread_other.
Qed.

Lemma formComplete_false f :
  formComplete f = false ->
  negb (truthy (problemDiagnosis f)) || negb (truthy (medicineNames f))
  || negb (truthy (dosageInstructions f)) || negb (truthy (date f)) = true.
Proof.
  unfold formComplete.
  destruct (truthy (problemDiagnosis f)), (truthy (medicineNames f)),
    (truthy (dosageInstructions f)), (truthy (date f)); simpl; congruence.
Qed.

Lemma formComplete_true f :
  formComplete f = true ->
  negb (truthy (problemDiagnosis f)) || negb (truthy (medicineNames f))
  || negb (truthy (dosageInstructions f)) || negb (truthy (date f)) = false.
Proof.
  unfold formComplete.
  destruct (truthy (problemDiagnosis f)), (truthy (medicineNames f)),
    (truthy (dosageInstructions f)), (truthy (date f)); simpl; congruence.
Qed.

Lemma messages_fetchBuyLinks i c medicines reply st w t k :
  k <> newId st ->
  get (messages
         (db (fetchBuyLinks env searchLinks i c medicines reply st w) t)) k
  = get (messages (db w t)) k.
Proof.
  intros Hk. unfold fetchBuyLinks.
  destruct (negb (present (API_KEY env)) || negb (present (API_URL env)));
    [now rewrite db_local|].
  destruct reply as [|answer]; [now rewrite db_local|].
  unfold setMessage. cbn [id].
  destruct (String.eqb t (pathOf (targetOf c))) eqn:E.
  - apply String.eqb_eq in E; subst t.
    rewrite messages_writeMessages. now apply get_set_other.
  - apply String.eqb_neq in E. now rewrite other_threads_writeMessages.
Qed.

Lemma other_threads_fetchBuyLinks i c medicines reply st w t :
  t <> pathOf (targetOf c) ->
  db (fetchBuyLinks env searchLinks i c medicines reply st w) t = db w t.
Proof.
  intros Ht. unfold fetchBuyLinks.
  destruct (negb (present (API_KEY env)) || negb (present (API_URL env)));
    [now rewrite db_local|].
  destruct reply as [|answer]; [now rewrite db_local|].
  unfold setMessage. now apply other_threads_writeMessages.
Qed.

(** X24.  The doctor's Send Prescription does nothing unless all four
    fields of the form are filled in, a user is signed in and a patient
    is selected.  When they are, the prescription is stored in the
    patient's thread under its new id, as a message of the doctor that
    lists the diagnosis, the medicines, the dosage and the next visit on
    four lines; no other thread changes; and the doctor's form is
    emptied. *)
Theorem prescription_is_sent_from_a_complete_form
    (w : World) (i : nat) (c : Component)
    (st : Stamp) (reply : Reply) (st' : Stamp) :
  nth_error (sessions w) i = Some c ->
  rendered c (ClickSendPrescription st reply st') = true ->
  let w' := step env searchLinks w (Act i (ClickSendPrescription st reply st')) in
  (formComplete (form c) = false \/ signedIn c = false
   \/ present (patientId c) = false ->
   w' = w)
  /\ (formComplete (form c) = true -> signedIn c = true ->
      forall pid,
        patientId c = Some pid -> pid <> EmptyString ->
        newId st' <> newId st ->
        get (messages (db w' pid)) (newId st)
        = Some (mkMessage (newId st) byDoctor prescription
                  ("Diagnosis: " ++ problemDiagnosis (form c) ++ newline
                   ++ "Medicines: " ++ medicineNames (form c) ++ newline
                   ++ "Dosage: " ++ dosageInstructions (form c) ++ newline
                   ++ "Next Visit: " ++ date (form c))%string
                  (now st))
        /\ (forall t', t' <> pid -> db w' t' = db w t')
        /\ exists c',
             nth_error (sessions w') i = Some c' /\ form c' = emptyForm).
Proof.
  intros Hi Hr w'.
  assert (Hw : w' = handleSendPrescription env searchLinks i c st reply st' w).
  { subst w'. cbn [step]. now rewrite Hi, Hr. }
  clearbody w'. subst w'. split.
  - intros H. unfold handleSendPrescription.
    destruct (formComplete (form c)) eqn:Hf.
    + rewrite (formComplete_true _ Hf).
      destruct H as [H | [-> | ->]]; [discriminate H | reflexivity |].
      now rewrite orb_true_r.
    + now rewrite (formComplete_false _ Hf).
  - intros Hf Hu pid Hpid Hne Hids.
    assert (Hrole : role c = doctor).
    { cbn [rendered] in Hr. now destruct (role c). }
    assert (Htarget : pathOf (targetOf c) = pid)
      by (unfold targetOf; now rewrite Hrole, Hpid).
    unfold handleSendPrescription.
    rewrite (formComplete_true _ Hf), Hu, Hpid. cbn [present].
    rewrite (truthy_nonempty _ Hne). cbn [negb orb pathOf].
    split; [|split].
    + rewrite db_local.
      rewrite messages_fetchBuyLinks by congruence.
      rewrite messages_setPayment. unfold setMessage. cbn [id].
      rewrite messages_writeMessages. apply get_set_same.
    + intros t' Ht. rewrite db_local.
      rewrite other_threads_fetchBuyLinks by congruence.
      rewrite other_threads_setPayment by assumption.
      unfold setMessage. now apply other_threads_writeMessages.
    + rewrite sessions_local, Nat.eqb_refl.
      set (w2 := setPayment _ _ _).
      assert (H2 : exists c2, nth_error (sessions w2) i = Some c2).
      { subst w2.
        unfold setPayment, deliverPayment, setMessage, writeMessages,
          deliverMessages. cbn [sessions].
        rewrite !nth_error_map, Hi. eexists. reflexivity. }
      destruct H2 as [c2 H2].
      assert (Hcar : carried (fun _ _ => True) (sessions w2)
                       (sessions (fetchBuyLinks env searchLinks i c
                                    (medicineNames (form c)) reply st' w2)))
        by (apply carried_fetchBuyLinks; auto).
      destruct (Hcar i c2 H2) as [c3 [H3 _]]. rewrite H3.
      eexists. split; reflexivity.
Qed.
End Sending.

Lemma prescription_is_sent_from_a_complete_form_witness :
  step sampleEnv sampleLinks afterPrescription
    (Act 0 (ClickSendPrescription (mkStamp "m3" 200) ReplyFails
              (mkStamp "m4" 201)))
  = afterPrescription.
Proof.
  refine (proj1 (prescription_is_sent_from_a_complete_form
                   sampleEnv sampleLinks afterPrescription 0 doctorView
                   (mkStamp "m3" 200) ReplyFails (mkStamp "m4" 201) _ _) _).
  - vm_compute. reflexivity.
  - vm_compute. reflexivity.
  - left. vm_compute. reflexivity.
Defined.

(** *** Claiming the payment *)

Section Claiming.
Variable env : Env.
Variable searchLinks : string -> string.

Lemma sessions_setPayment t ps w j c0 :
  nth_error (sessions w) j = Some c0 ->
  nth_error (sessions (setPayment t ps w)) j
  = Some (if listens t c0 then onPayment ps c0 else c0).
Proof.
  intros H. unfold setPayment, deliverPayment. cbn [sessions db].
  rewrite nth_error_map, H. cbn [option_map].
  unfold paymentOf. now rewrite thread_setThread_same.
Qed.

(** X25.  Confirm Payment is offered by the box's own flags: to a
    patient whose box has seen a message and holds the payment neither
    claimed nor verified.  Pressing it writes the claimed state to the
    thread of the signed-in patient, whatever that thread held, and
    changes no message and no other thread; when the box's flags are
    those of the record, the thread was unclaimed.  A box whose payment
    listener is called with the claimed state holds it and offers
    Confirm Payment no longer; if it did not hold it before, a doctor's
    box then shows the verification popup with both its buttons and a
    patient's box none.  The listeners of the thread are called with
    the claimed state. *)
Theorem confirm_payment_raises_the_doctors_popup
    (w : World) (i : nat) (c : Component) (t : string) :
  nth_error (sessions w) i = Some c ->
  user c = Some t ->
  rendered c ClickConfirmPayment = true ->
  let w' := step env searchLinks w (Act i ClickConfirmPayment) in
  (role c = patient /\ hasDoctorSentFirst c = true
   /\ paymentClaimed c = false /\ paymentVerified c = false)
  /\ paymentOf (db w') t = Claimed
  /\ (forall t', messages (db w' t') = messages (db w t'))
  /\ (forall t', t' <> t -> db w' t' = db w t')
  /\ (mirrorsPayment (db w) c -> t <> EmptyString ->
      paymentOf (db w) t = Unclaimed)
  /\ (forall c0,
        paymentClaimed (onPayment Claimed c0) = true
        /\ paymentVerified (onPayment Claimed c0) = false
        /\ rendered (onPayment Claimed c0) ClickConfirmPayment = false
        /\ (seesClaimed c0 = false ->
            showVerificationPopup (onPayment Claimed c0) = isDoctor (role c0)
            /\ rendered (onPayment Claimed c0) ClickVerifyYes
               = isDoctor (role c0)
            /\ rendered (onPayment Claimed c0) ClickVerifyNo
               = isDoctor (role c0)))
  /\ (forall j c0,
        nth_error (sessions w) j = Some c0 ->
        nth_error (sessions w') j
        = Some (if listens t c0 then onPayment Claimed c0 else c0)).
Proof.
  intros Hi Huser Hr w'.
  pose proof Hr as Hr0.
  cbn [rendered] in Hr.
  apply andb_true_iff in Hr as [Hr Hcl].
  apply andb_true_iff in Hr as [Hrole Hpanel].
  apply negb_true_iff in Hcl.
  unfold paymentPanel in Hpanel.
  apply andb_true_iff in Hpanel as [Hflag Hv]. apply negb_true_iff in Hv.
  assert (Hp : role c = patient) by now destruct (role c).
  assert (Hw : w' = setPayment t Claimed w).
  { subst w'. cbn [step]. rewrite Hi, Hr0. cbn [handle].
    unfold handleConfirmPayment. now rewrite Huser. }
  clearbody w'. subst w'.
  split; [now repeat split|].
  split; [unfold paymentOf; now rewrite status_setPayment, String.eqb_refl|].
  split; [intros t'; apply messages_setPayment|].
  split; [intros t' Ht; now apply other_threads_setPayment|].
  split.
  { intros Hm Ht.
    assert (Hs : subscribedTo c = Some t).
    { unfold subscribedTo, targetOf. rewrite Hp, Huser.
      now destruct t. }
    rewrite <- (Hm t Hs), Hcl, Hv. reflexivity. }
  split.
  { intros c0. unfold onPayment, seesClaimed.
    destruct (paymentClaimed c0) eqn:E1, (paymentVerified c0) eqn:E2;
      destruct (role c0) eqn:E3; cbn; rewrite ?E1, ?E2, ?E3; cbn;
      repeat split; try reflexivity; try discriminate;
      try apply andb_false_r. }
  intros j c0 Hj. now apply sessions_setPayment.
Qed.
End Claiming.

Lemma confirm_payment_raises_the_doctors_popup_witness :
  paymentOf (db staleConfirm) "pat" = Verified
  /\ paymentOf
       (db (step sampleEnv sampleLinks staleConfirm
              (Act 2 ClickConfirmPayment)))
       "pat"
     = Claimed
  /\ paymentOf (db afterPrescription) "pat" = Unclaimed
  /\ paymentOf
       (db (step sampleEnv sampleLinks afterPrescription
              (Act 1 ClickConfirmPayment)))
       "pat"
     = Claimed.
Proof.
  split; [vm_compute; reflexivity|].
  split.
  { refine (proj1 (proj2
              (confirm_payment_raises_the_doctors_popup
                 sampleEnv sampleLinks staleConfirm 2
                 (nth 2 (sessions staleConfirm) patientView)
                 "pat"%string _ _ _))).
    - vm_compute. reflexivity.
    - vm_compute. reflexivity.
    - vm_compute. reflexivity. }
  pose proof (confirm_payment_raises_the_doctors_popup
                sampleEnv sampleLinks afterPrescription 1 patientView
                "pat"%string) as H.
  refine ((fun H' =>
             conj (proj1 (proj2 (proj2 (proj2 (proj2 H')))) _ _)
                  (proj1 (proj2 H')))
            (H _ _ _)).
  - intros t' Hs. vm_compute in Hs. injection Hs as <-.
    vm_compute. reflexivity.
  - discriminate.
  - vm_compute. reflexivity.
  - vm_compute. reflexivity.
  - vm_compute. reflexivity.
Defined.

End PrescriptionMore.
